(** * Lethe: actor runtime, conversation coalescing, amygdala and hippocampus

    A shallow embedding of the parts of the Lethe sources that the checked
    properties talk about:

    - [lethe/actor/__init__.py]   ([Actor], [ActorRegistry]),
    - [lethe/actor/tools.py]      (the tool closures of [create_actor_tools]),
    - [lethe/actor/runner.py]     ([ActorRunner.run]),
    - [lethe/actor/amygdala.py]   ([Amygdala]),
    - [lethe/conversation/__init__.py] ([ConversationState]),
    - [lethe/hippocampus/__init__.py]  ([HippocampusManager.judge_response]).

    Python objects that are shared by reference (actors are held both by the
    registry dictionary and by the runner that drives them) live in an explicit
    heap; dictionaries are [gmap]s; the sources of randomness and time
    ([uuid.uuid4], [datetime.now]) are explicit supplies threaded through the
    state; the language model, which the sources only reach through
    [llm.chat], is an oracle that answers each turn with the tool calls it
    makes and the final text (or the exception) of the call.

    Python [str] values are modelled by [string]: the characters are the code
    points below 256. *)

From Stdlib Require Import ZArith NArith Ascii String List Bool Lia Floats.
From Stdlib Require Import DecimalString.
From stdpp Require Import gmap strings list.

Set Default Proof Using "Type".
Set Warnings "-register-all,-inexact-float".

(** ** Python built-ins on text and lists *)

Module Py.

(** [str.isspace] on one character: U+0009..U+000D, U+001C..U+0020, U+0085
    and U+00A0. *)
Definition isspace (c : ascii) : bool :=
  let n := N_of_ascii c in
  ((9 <=? n) && (n <=? 13) || (28 <=? n) && (n <=? 32) || (n =? 133) || (n =? 160))%N.

(** The line boundaries of [str.splitlines]: LF, VT, FF, CR, FS, GS, RS, NEL. *)
Definition islinebreak (c : ascii) : bool :=
  let n := N_of_ascii c in
  ((10 <=? n) && (n <=? 13) || (28 <=? n) && (n <=? 30) || (n =? 133))%N.

(** [str.lower] on one character: A..Z and the Latin-1 capitals. *)
Definition lower_char (c : ascii) : ascii :=
  let n := N_of_ascii c in
  if ((65 <=? n) && (n <=? 90) || (192 <=? n) && (n <=? 222) && negb (n =? 215))%N
  then ascii_of_N (n + 32) else c.

Fixpoint lower (s : string) : string :=
  match s with
  | EmptyString => EmptyString
  | String c s' => String (lower_char c) (lower s')
  end.

(** Truth value of a string: [if s]. *)
Definition truthy (s : string) : bool :=
  match s with EmptyString => false | _ => true end.

(** [a or b] on strings. *)
Definition str_or (a b : string) : string := if truthy a then a else b.

Fixpoint lstrip (s : string) : string :=
  match s with
  | EmptyString => EmptyString
  | String c s' => if isspace c then lstrip s' else s
  end.

Fixpoint rstrip (s : string) : string :=
  match s with
  | EmptyString => EmptyString
  | String c s' =>
      match rstrip s' with
      | EmptyString => if isspace c then EmptyString else String c EmptyString
      | r => String c r
      end
  end.

Definition strip (s : string) : string := rstrip (lstrip s).

(** [s.startswith(p)]. *)
Definition startswith (s p : string) : bool := String.prefix p s.

(** [needle in hay]. *)
Fixpoint contains (needle hay : string) : bool :=
  String.prefix needle hay ||
  match hay with
  | EmptyString => false
  | String _ hay' => contains needle hay'
  end.

(** [any(k in hay for k in keys)]. *)
Definition any_in (keys : list string) (hay : string) : bool :=
  existsb (fun k => contains k hay) keys.

(** [s[:n]] and [s[n:]] for [n >= 0]. *)
Fixpoint slice_to (n : nat) (s : string) : string :=
  match n, s with
  | S n', String c s' => String c (slice_to n' s')
  | _, _ => EmptyString
  end.

Fixpoint slice_from (n : nat) (s : string) : string :=
  match n, s with
  | S n', String _ s' => slice_from n' s'
  | _, _ => s
  end.

(** [l[-n:]] for [n >= 1]. *)
Definition last_n {A} (n : nat) (l : list A) : list A :=
  drop (length l - n) l.

(** [sep.join(parts)]. *)
Definition join (sep : string) (parts : list string) : string :=
  String.concat sep parts.

(** [str.splitlines()]: a line ends at a line boundary, CR LF counts as one
    boundary, and no empty line is produced after the last boundary. *)
Fixpoint splitlines (s : string) : list string :=
  match s with
  | EmptyString => []
  | String c s' =>
      if islinebreak c then
        match s' with
        | String c' s'' =>
            if Ascii.eqb c "013" && Ascii.eqb c' "010"
            then EmptyString :: splitlines s''
            else EmptyString :: splitlines s'
        | EmptyString => [EmptyString]
        end
      else
        match splitlines s' with
        | [] => [String c EmptyString]
        | l :: ls => String c l :: ls
        end
  end.

(** [str(n)] for a natural number. *)
Definition str_of_nat (n : nat) : string :=
  NilZero.string_of_uint (Nat.to_uint n).

(** [str(z)] for an integer. *)
Definition str_of_Z (z : Z) : string :=
  match z with
  | Zneg p => String "-" (NilZero.string_of_uint (Pos.to_uint p))
  | _ => NilZero.string_of_uint (N.to_uint (Z.to_N z))
  end.

End Py.

(** ** The actor model ([lethe/actor/__init__.py]) *)

Module Actors.

Inductive ActorState := INITIALIZING | RUNNING | WAITING | TERMINATED.

Definition ActorState_eqb (s1 s2 : ActorState) : bool :=
  match s1, s2 with
  | INITIALIZING, INITIALIZING | RUNNING, RUNNING
  | WAITING, WAITING | TERMINATED, TERMINATED => true
  | _, _ => false
  end.

(** The fields of a [datetime] in UTC. *)
Record datetime := mk_datetime {
  year : Z; month : Z; day : Z; hour : Z; minute : Z; second : Z;
  microsecond : Z }.

Record ActorMessage := mk_message {
  msg_id : string;
  sender : string;
  recipient : string;
  content : string;
  reply_to : option string;
  msg_created_at : datetime }.

Record ActorConfig := mk_config {
  name : string;
  group : string;
  goals : string;
  model : string;
  tools : list string;
  max_turns : Z;
  max_messages : Z }.

(** [ActorConfig(name=...)] with the defaults of the dataclass. *)
Definition default_config (n : string) : ActorConfig :=
  {| name := n; group := "default"; goals := ""; model := ""; tools := [];
     max_turns := 20; max_messages := 50 |}.

Record Actor := mk_actor {
  actor_id : string;
  config : ActorConfig;
  spawned_by : string;
  is_principal : bool;
  state : ActorState;
  _inbox : list ActorMessage;
  _messages : list ActorMessage;
  _result : option string;
  _turns : Z;
  created_at : datetime }.

Definition set_state (s : ActorState) (a : Actor) : Actor :=
  mk_actor (actor_id a) (config a) (spawned_by a) (is_principal a) s
           (_inbox a) (_messages a) (_result a) (_turns a) (created_at a).

Definition set_inbox (q : list ActorMessage) (a : Actor) : Actor :=
  mk_actor (actor_id a) (config a) (spawned_by a) (is_principal a) (state a)
           q (_messages a) (_result a) (_turns a) (created_at a).

Definition set_messages (h : list ActorMessage) (a : Actor) : Actor :=
  mk_actor (actor_id a) (config a) (spawned_by a) (is_principal a) (state a)
           (_inbox a) h (_result a) (_turns a) (created_at a).

Definition set_result (r : option string) (a : Actor) : Actor :=
  mk_actor (actor_id a) (config a) (spawned_by a) (is_principal a) (state a)
           (_inbox a) (_messages a) r (_turns a) (created_at a).

Definition set_turns (n : Z) (a : Actor) : Actor :=
  mk_actor (actor_id a) (config a) (spawned_by a) (is_principal a) (state a)
           (_inbox a) (_messages a) (_result a) n (created_at a).

(** The process state the actor code works on.  [heap] holds the [Actor]
    objects, a reference is an index into it; [_actors] and [_principal_id]
    are the two fields of the one [ActorRegistry]; [scheduled] holds the
    [parent.send(msg)] tasks handed to the event loop with [create_task] and
    not yet run; [files] maps the name of a workspace file to its text as
    Python's text mode reads and writes it; the last four fields are
    the supplies behind [uuid.uuid4()] and [datetime.now(timezone.utc)]. *)
Record World := mk_world {
  heap : list Actor;
  _actors : gmap string nat;
  _principal_id : option string;
  scheduled : list (nat * ActorMessage);
  files : gmap string string;
  uuid_src : nat -> N;
  uuid_pos : nat;
  clock_src : nat -> datetime;
  clock_pos : nat }.

Definition with_heap (h : list Actor) (w : World) : World :=
  mk_world h (_actors w) (_principal_id w) (scheduled w) (files w)
           (uuid_src w) (uuid_pos w) (clock_src w) (clock_pos w).

Definition with_actors (m : gmap string nat) (w : World) : World :=
  mk_world (heap w) m (_principal_id w) (scheduled w) (files w)
           (uuid_src w) (uuid_pos w) (clock_src w) (clock_pos w).

Definition with_principal_id (p : option string) (w : World) : World :=
  mk_world (heap w) (_actors w) p (scheduled w) (files w)
           (uuid_src w) (uuid_pos w) (clock_src w) (clock_pos w).

Definition with_scheduled (t : list (nat * ActorMessage)) (w : World) : World :=
  mk_world (heap w) (_actors w) (_principal_id w) t (files w)
           (uuid_src w) (uuid_pos w) (clock_src w) (clock_pos w).

Definition with_files (f : gmap string string) (w : World) : World :=
  mk_world (heap w) (_actors w) (_principal_id w) (scheduled w) f
           (uuid_src w) (uuid_pos w) (clock_src w) (clock_pos w).

(** One hexadecimal digit, lower case. *)
Definition hex_digit (n : N) : ascii :=
  if (n <? 10)%N then ascii_of_N (48 + n) else ascii_of_N (87 + n).

Fixpoint hex_digits (k : nat) (n : N) (acc : string) : string :=
  match k with
  | O => acc
  | S k' => hex_digits k' (n / 16)%N (String (hex_digit (n mod 16)%N) acc)
  end.

(** [str(uuid.uuid4())[:8]]: the first eight hexadecimal digits of a fresh
    UUID, that is 32 random bits. *)
Definition uuid4_8 (w : World) : string * World :=
  (hex_digits 8 (uuid_src w (uuid_pos w)) "",
   mk_world (heap w) (_actors w) (_principal_id w) (scheduled w) (files w)
            (uuid_src w) (S (uuid_pos w)) (clock_src w) (clock_pos w)).

(** [datetime.now(timezone.utc)]. *)
Definition datetime_now (w : World) : datetime * World :=
  (clock_src w (clock_pos w),
   mk_world (heap w) (_actors w) (_principal_id w) (scheduled w) (files w)
            (uuid_src w) (uuid_pos w) (clock_src w) (S (clock_pos w))).

(** In-place update of the object behind a reference. *)
Definition update (a : nat) (f : Actor -> Actor) (w : World) : World :=
  with_heap (alter f a (heap w)) w.

(** [ActorMessage(sender=.., recipient=.., content=.., reply_to=..)]: the
    [id] and [created_at] defaults are drawn in field order. *)
Definition new_message (snd rcp txt : string) (rt : option string) (w : World)
  : ActorMessage * World :=
  let '(mid, w1) := uuid4_8 w in
  let '(t, w2) := datetime_now w1 in
  (mk_message mid snd rcp txt rt t, w2).

(** [Actor.send]: the receiving side.  The inbox is an unbounded
    [asyncio.Queue], so [put] never waits. *)
Definition send (a : nat) (m : ActorMessage) (w : World) : World :=
  update a (fun A => set_inbox (_inbox A ++ [m])
                               (set_messages (_messages A ++ [m]) A)) w.

(** [ActorRegistry.get]. *)
Definition get (w : World) (i : string) : option nat := _actors w !! i.

(** [ActorRegistry.get_principal]. *)
Definition get_principal (w : World) : option nat :=
  match _principal_id w with
  | Some p => if Py.truthy p then _actors w !! p else None
  | None => None
  end.

(** [ActorRegistry.spawn], with [Actor.__init__] inlined: the object is
    created in state [INITIALIZING], entered in [_actors] under its id,
    recorded as principal when asked, and set [RUNNING].  There is no failing
    path. *)
Definition spawn (cfg : ActorConfig) (parent : option string) (principal : bool)
    (w : World) : nat * World :=
  let '(uid, w1) := uuid4_8 w in
  let '(t, w2) := datetime_now w1 in
  let A := {| actor_id := uid; config := cfg;
              spawned_by := match parent with Some p => p | None => "" end;
              is_principal := principal; state := INITIALIZING;
              _inbox := []; _messages := []; _result := None; _turns := 0;
              created_at := t |} in
  let a := length (heap w2) in
  let w3 := with_heap (heap w2 ++ [A]) w2 in
  let w4 := with_actors (<[uid := a]> (_actors w3)) w3 in
  let w5 := if principal then with_principal_id (Some uid) w4 else w4 in
  (a, update a (set_state RUNNING) w5).

(** What [Actor.send_to] yields: the message, or the [ValueError] text. *)
Inductive sent := Sent (m : ActorMessage) | ValueError (text : string).

(** [Actor.send_to]. A reference that is not allocated cannot occur in
    Python; the model raises there as well. *)
Definition send_to (a : nat) (recipient_id txt : string) (rt : option string)
    (w : World) : sent * World :=
  match heap w !! a with
  | None => (ValueError "no such object", w)
  | Some A =>
      let '(msg, w1) := new_message (actor_id A) recipient_id txt rt w in
      match get w1 recipient_id with
      | None => (ValueError ("Actor " +:+ recipient_id +:+ " not found"), w1)
      | Some r =>
          let w2 := send r msg w1 in
          (Sent msg, update a (fun X => set_messages (_messages X ++ [msg]) X) w2)
      end
  end.

(** [ActorRegistry._on_actor_terminated].  [in_loop] tells whether an event
    loop is running in the calling thread: with one the delivery is handed to
    it as a task, without one ([RuntimeError]) the message is queued
    directly. *)
Definition _on_actor_terminated (in_loop : bool) (i : string) (w : World) : World :=
  match _actors w !! i with
  | None => w
  | Some b =>
      match heap w !! b with
      | None => w
      | Some B =>
          let parent :=
            if Py.truthy (spawned_by B) then _actors w !! spawned_by B else None in
          match parent with
          | None => w
          | Some p =>
              match heap w !! p with
              | None => w
              | Some P =>
                  if ActorState_eqb (state P) RUNNING then
                    let '(msg, w1) :=
                      new_message i (spawned_by B)
                        ("[TERMINATED] " +:+ name (config B) +:+ " finished: "
                         +:+ match _result B with
                             | Some r => Py.str_or r "no result"
                             | None => "no result"
                             end) None w in
                    if in_loop then with_scheduled (scheduled w1 ++ [(p, msg)]) w1
                    else update p (fun P' =>
                           set_inbox (_inbox P' ++ [msg])
                                     (set_messages (_messages P' ++ [msg]) P')) w1
                  else w
              end
          end
      end
  end.

(** [Actor.terminate]: no test of the current state. *)
Definition terminate (in_loop : bool) (a : nat) (result : option string)
    (w : World) : World :=
  match heap w !! a with
  | None => w
  | Some A =>
      let r := match result with
               | Some s => Py.str_or s ("Actor " +:+ name (config A) +:+ " terminated")
               | None => "Actor " +:+ name (config A) +:+ " terminated"
               end in
      let w1 := update a (fun X => set_state TERMINATED (set_result (Some r) X)) w in
      _on_actor_terminated in_loop (actor_id A) w1
  end.

(** The event loop runs the delivery tasks it was handed, oldest first. *)
Definition run_scheduled (w : World) : World :=
  fold_left (fun w' t => send (fst t) (snd t) w') (scheduled w)
            (with_scheduled [] w).

(** [ActorRegistry.cleanup_terminated]. *)
Definition is_terminated_ref (w : World) (a : nat) : bool :=
  match heap w !! a with
  | Some A => ActorState_eqb (state A) TERMINATED
  | None => false
  end.

Definition cleanup_terminated (w : World) : World :=
  with_actors (filter (fun kv => is_terminated_ref w (snd kv) = false) (_actors w)) w.

(** [ActorRegistry.active_count]. *)
Definition active_count (w : World) : nat :=
  size (filter (fun kv : string * nat => is_terminated_ref w (snd kv) = false) (_actors w)).

End Actors.

(** ** The tools bound to an actor ([lethe/actor/tools.py]) *)

Module Tools.
Import Actors.

(** [Actor.wait_for_reply]: [asyncio.wait_for(self._inbox.get(), timeout)].
    With a message queued, [get] returns at once; otherwise the coroutine
    suspends, the event loop runs the tasks it holds, and the wait ends with
    the message one of them queued or with the timeout ([None]). *)
Definition wait_for_reply (a : nat) (w : World) : option ActorMessage * World :=
  match heap w !! a with
  | None => (None, w)
  | Some A =>
      match _inbox A with
      | m :: q => (Some m, update a (set_inbox q) w)
      | [] =>
          let w1 := run_scheduled w in
          match heap w1 !! a with
          | Some A1 =>
              match _inbox A1 with
              | m :: q => (Some m, update a (set_inbox q) w1)
              | [] => (None, w1)
              end
          | None => (None, w1)
          end
      end
  end.

(** The display name of a sender: [sender.config.name if sender else
    msg.sender]. *)
Definition sender_name (w : World) (i : string) : string :=
  match get w i with
  | Some s => match heap w !! s with Some X => name (config X) | None => i end
  | None => i
  end.

(** The [send_message] tool. *)
Definition send_message (a : nat) (target_id txt rt : string) (w : World)
  : string * World :=
  match get w target_id with
  | None =>
      ("Error: actor " +:+ target_id
       +:+ " not found. Use discover_actors() to find available actors.", w)
  | Some t =>
      match heap w !! t with
      | None => ("Error: actor " +:+ target_id +:+ " not found.", w)
      | Some T =>
          if ActorState_eqb (state T) TERMINATED then
            ("Error: actor " +:+ target_id +:+ " (" +:+ name (config T)
             +:+ ") is terminated.", w)
          else
            match send_to a target_id txt (if Py.truthy rt then Some rt else None) w with
            | (Sent msg, w1) =>
                ("Message sent (id=" +:+ msg_id msg +:+ ") to " +:+ name (config T)
                 +:+ " (" +:+ target_id +:+ ")", w1)
            | (ValueError e, w1) => (e, w1)
            end
      end
  end.

(** The [wait_for_response] tool. *)
Definition wait_for_response (a : nat) (w : World) : string * World :=
  match wait_for_reply a w with
  | (None, w1) => ("Timed out waiting for response.", w1)
  | (Some m, w1) =>
      ("[From " +:+ sender_name w1 (sender m) +:+ "] " +:+ content m, w1)
  end.

(** The [terminate] tool. *)
Definition terminate_tool (a : nat) (result : string) (w : World) : string * World :=
  ("Terminated. Result sent to parent.", terminate true a (Some result) w).

(** [s.split(",")]. *)
Fixpoint split_comma (s : string) : list string :=
  match s with
  | EmptyString => [EmptyString]
  | String c s' =>
      if Ascii.eqb c ","%char then EmptyString :: split_comma s'
      else match split_comma s' with
           | l :: ls => String c l :: ls
           | [] => [String c EmptyString]
           end
  end.

(** Whether [create_actor_tools] adds [spawn_subagent]. *)
Definition can_spawn (A : Actor) : bool :=
  is_principal A || existsb (String.eqb "spawn") (tools (config A)).

(** The [spawn_subagent] tool. *)
Definition spawn_subagent (a : nat) (nm gls grp tls mdl : string) (mt : Z)
    (w : World) : string * World :=
  match heap w !! a with
  | None => ("", w)
  | Some A =>
      let tool_list :=
        if Py.truthy tls
        then List.filter Py.truthy (map Py.strip (split_comma tls))
        else [] in
      let cfg := {| name := nm; group := Py.str_or grp (group (config A));
                    goals := gls; model := mdl; tools := tool_list;
                    max_turns := mt; max_messages := 50 |} in
      let '(c, w1) := spawn cfg (Some (actor_id A)) false w in
      let cid := match heap w1 !! c with Some C => actor_id C | None => "" end in
      ("Spawned actor '" +:+ nm +:+ "' (id=" +:+ cid +:+ ", group=" +:+ group cfg
       +:+ ")." +:+ String "010" "Goals: " +:+ gls +:+ String "010"
       "It will send you a message when done.", w1)
  end.

(** What the language model does during one [llm.chat]: the calls to the
    tools bound to the actor, calls to the tools of the external pool (which
    can only touch the workspace files), and the points where the coroutine
    really suspends and the event loop runs the tasks it holds. *)
Inductive ToolCall :=
| CallSendMessage (actor_id content reply_to : string)
| CallWaitForResponse
| CallDiscoverActors (group : string)
| CallTerminate (result : string)
| CallSpawnSubagent (name goals group tools model : string) (max_turns : Z)
| CallExternal (effect : gmap string string -> gmap string string)
| Suspend.

Definition exec_call (a : nat) (c : ToolCall) (w : World) : World :=
  match c with
  | CallSendMessage t txt rt => snd (send_message a t txt rt w)
  | CallWaitForResponse => snd (wait_for_response a w)
  | CallDiscoverActors _ => w
  | CallTerminate r => snd (terminate_tool a r w)
  | CallSpawnSubagent nm gls grp tls mdl mt =>
      match heap w !! a with
      | Some A => if can_spawn A then snd (spawn_subagent a nm gls grp tls mdl mt w) else w
      | None => w
      end
  | CallExternal f => with_files (f (files w)) w
  | Suspend => run_scheduled w
  end.

Definition exec_calls (a : nat) (cs : list ToolCall) (w : World) : World :=
  fold_left (fun w' c => exec_call a c w') cs w.

(** How [llm.chat] ends: with the final text, or with an exception. *)
Inductive ChatOutcome := Reply (text : string) | Raises (err : string).

Record ChatResult := mk_chat { calls : list ToolCall; outcome : ChatOutcome }.

(** The language model: turn number and user message to what happens. *)
Definition LLM := nat -> string -> ChatResult.

(** The non-blocking drain of the inbox at the start of a turn. *)
Definition drain_inbox (a : nat) (w : World) : list ActorMessage * World :=
  match heap w !! a with
  | Some A => (_inbox A, update a (set_inbox []) w)
  | None => ([], w)
  end.

End Tools.

(** ** The actor runner ([lethe/actor/runner.py]) *)

Module Runner.
Import Actors Tools.

Definition LF : string := String "010" EmptyString.

Definition initial_message (A : Actor) : string :=
  "You are actor '" +:+ name (config A) +:+ "'. Your goals:" +:+ LF +:+ LF
  +:+ goals (config A) +:+ LF +:+ LF
  +:+ "Begin working on your task. Use tools as needed. "
  +:+ "When done, call terminate(result) with a summary.".

Definition nudge : string :=
  "[System: Continue working on your goals. Call terminate(result) when done.]".

Definition format_incoming (w : World) (incoming : list ActorMessage) : string :=
  Py.join LF (map (fun m => "[Message from " +:+ sender_name w (sender m) +:+ "]: "
                            +:+ content m) incoming).

(** [response and response.strip().lower() in ("ok", "done", "understood")]. *)
Definition is_ack (response : string) : bool :=
  Py.truthy response &&
  existsb (String.eqb (Py.lower (Py.strip response))) ["ok"; "done"; "understood"].

(** The [for turn in range(max_turns)] loop: [n] turns are left, [turn] is
    the loop variable and [response] the local of that name ([None] while it
    is unbound). *)
Fixpoint turns_loop (llm : LLM) (a : nat) (A0 : Actor) (n : nat) (turn : Z)
    (response : option string) (w : World) : option string * World :=
  match n with
  | O => (response, w)
  | S n' =>
      let w1 := update a (set_turns (turn + 1)) w in
      if is_terminated_ref w1 a then (response, w1)
      else
        let '(incoming, w2) := drain_inbox a w1 in
        let message :=
          if (turn =? 0)%Z then initial_message A0
          else match incoming with
               | [] => nudge
               | _ => format_incoming w2 incoming
               end in
        let r := llm (Z.to_nat turn) message in
        let w3 := exec_calls a (calls r) w2 in
        match outcome r with
        | Raises e => (response, terminate true a (Some ("Error: " +:+ e)) w3)
        | Reply resp =>
            if is_terminated_ref w3 a then (Some resp, w3)
            else if is_ack resp then turns_loop llm a A0 n' (turn + 1) (Some resp) w3
            else turns_loop llm a A0 n' (turn + 1) (Some resp)
                            (snd (wait_for_reply a w3))
        end
  end.

(** The text of the [UnboundLocalError] raised when [response] is read
    before any turn assigned it. *)
Definition unbound_response : string :=
  "cannot access local variable 'response' where it is not associated with a value".

(** [ActorRunner.run].  [setup] is [Some e] when the part before the loop
    (the LLM factory, the tool registration) raises an exception with text
    [e]. *)
Definition run (setup : option string) (llm : LLM) (a : nat) (w : World)
  : string * World :=
  match heap w !! a with
  | None => ("No result", w)
  | Some A =>
      let w' :=
        match setup with
        | Some e => terminate true a (Some ("Runner error: " +:+ e)) w
        | None =>
            let '(response, w1) :=
              turns_loop llm a A (Z.to_nat (max_turns (config A))) 0 None w in
            if is_terminated_ref w1 a then w1
            else
              match response with
              | Some r =>
                  terminate true a
                    (Some ("Max turns reached. Last response: "
                           +:+ (if Py.truthy r then Py.slice_to 200 r else "none"))) w1
              | None =>
                  terminate true a (Some ("Runner error: " +:+ unbound_response)) w1
              end
        end in
      (match heap w' !! a with
       | Some A' => match _result A' with
                    | Some r => Py.str_or r "No result"
                    | None => "No result"
                    end
       | None => "No result"
       end, w')
  end.

End Runner.

(** ** Conversation state ([lethe/conversation/__init__.py]) *)

Module Conversation.

Section WithValues.
(** The values of a metadata dictionary ([dict[str, Any]]). *)
Context {V : Type}.

Record PendingMessage := mk_pending {
  content : string;
  metadata : gmap string V;
  created_at : Actors.datetime }.

(** [current_task], a handle on a running [asyncio.Task], has no
    counterpart; [interrupt_event] is the flag of the [asyncio.Event]. *)
Record ConversationState := mk_state {
  chat_id : Z;
  user_id : Z;
  pending_messages : list PendingMessage;
  is_processing : bool;
  interrupt_event : bool }.

Definition with_pending (l : list PendingMessage) (st : ConversationState)
  : ConversationState :=
  mk_state (chat_id st) (user_id st) l (is_processing st) (interrupt_event st).

(** [ConversationState.add_message]; [now] is the creation time of the
    entry, [meta] is [None] for an absent argument. *)
Definition add_message (txt : string) (meta : option (gmap string V))
    (now : Actors.datetime) (st : ConversationState) : bool * ConversationState :=
  let m := mk_pending txt (match meta with Some d => d | None => ∅ end) now in
  let l := pending_messages st ++ [m] in
  if is_processing st
  then (true, mk_state (chat_id st) (user_id st) l (is_processing st) true)
  else (false, with_pending l st).

Definition SEPARATOR : string :=
  String "010" (String "010" ("---" +:+ String "010"
    ("[Additional message while processing:]" +:+ String "010" EmptyString))).

(** [d.update(e)]: the entries of [e] replace those of [d]. *)
Definition dict_update (d e : gmap string V) : gmap string V := e ∪ d.

(** [ConversationState.get_combined_message]: the pair returned and the
    state left behind. *)
Definition get_combined_message (st : ConversationState)
  : (string * gmap string V) * ConversationState :=
  match pending_messages st with
  | [] => (EmptyString, ∅, st)
  | [msg] => (content msg, metadata msg, with_pending [] st)
  | msgs =>
      let contents := map content msgs in
      let merged_metadata :=
        fold_left (fun acc msg => dict_update acc (metadata msg)) msgs ∅ in
      (Py.join SEPARATOR contents, merged_metadata, with_pending [] st)
  end.

(** [ConversationState.check_interrupt]. *)
Definition check_interrupt (st : ConversationState) : bool * ConversationState :=
  if interrupt_event st
  then (true, mk_state (chat_id st) (user_id st) (pending_messages st)
                       (is_processing st) false)
  else (false, st).

(** [ConversationManager.get_pending_count] over the manager's [_states]. *)
Definition get_pending_count (states : gmap Z ConversationState) (c : Z) : nat :=
  match states !! c with
  | Some st => length (pending_messages st)
  | None => 0
  end.

End WithValues.

Arguments PendingMessage : clear implicits.
Arguments ConversationState : clear implicits.

End Conversation.

(** ** Response judgment ([lethe/hippocampus/__init__.py]) *)

Module Hippocampus.

(** A decoded JSON document. *)
Inductive JSON :=
| JNull
| JBool (b : bool)
| JNumber (z : Z)
| JString (s : string)
| JArray (items : list JSON)
| JObject (fields : list (string * JSON)).

(** [d.get(key, default)] on a decoded object. *)
Fixpoint dict_get (fields : list (string * JSON)) (key : string) (default : JSON)
  : JSON :=
  match fields with
  | [] => default
  | (k, v) :: rest => if String.eqb k key then v else dict_get rest key default
  end.

(** The messages of a reply of the agent service, as far as
    [judge_response] looks at them. *)
Inductive Part := TextPart (text : string) | OtherPart.
Inductive Content :=
| ContentStr (s : string)
| ContentList (parts : list Part)
| ContentOther.
Record ReplyMessage := mk_reply {
  message_type : option string;
  content : Content }.



(** The first part with a [text] attribute. *)
Fixpoint first_text (parts : list Part) : option string :=
  match parts with
  | [] => None
  | TextPart t :: _ => Some t
  | OtherPart :: rest => first_text rest
  end.

(** The text of the first [assistant_message]. *)
Fixpoint extract_text (msgs : list ReplyMessage) : option string :=
  match msgs with
  | [] => None
  | m :: rest =>
      match message_type m with
      | Some ty =>
          if String.eqb ty "assistant_message" then
            match content m with
            | ContentStr s => Some s
            | ContentList parts => first_text parts
            | ContentOther => None
            end
          else extract_text rest
      | None => extract_text rest
      end
  end.

Section Judge.
(** [json.loads]: [None] stands for [JSONDecodeError]. *)
Variable json_loads : string -> option JSON.
(** [re.search(r'\{[^{}]*\}', text)]: the matched text, if any. *)
Variable re_search_braces : string -> option string.
(** [get_or_create_agent()]: the agent id, [None] when it raises. *)
Variable agent : option string.
(** [client.agents.messages.create] on the judging prompt, which is built
    from the four arguments of [judge_response]: [None] when it raises. *)
Variable create : string -> string -> Z -> bool -> option (list ReplyMessage).

(** The [try: json.loads ... except JSONDecodeError: re.search ...] block:
    [inl] is the decoded value, [inr true] the return of the default from the
    handler and [inr false] an exception that leaves the block. *)
Definition parse_json (result_text : string) : JSON + bool :=
  match json_loads result_text with
  | Some v => inl v
  | None =>
      match re_search_braces result_text with
      | Some m => match json_loads m with
                  | Some v => inl v
                  | None => inr false
                  end
      | None => inr true
      end
  end.


End Judge.

End Hippocampus.

(** ** The amygdala ([lethe/actor/amygdala.py]) *)

Module Amygdala.
Import Actors Tools.

Definition LF : string := String "010" EmptyString.

Definition HIGH_AROUSAL_THRESHOLD : float := 0.75%float.
Definition FLASHBACK_LOOKBACK : nat := 12.
Definition TAG_LOG_MAX_CHARS : Z := 24000.
Definition TAG_LOG_KEEP_LINES : nat := 140.

(** The two files, named relative to the workspace directory. *)
Definition AMYGDALA_STATE_FILE : string := "amygdala_state.md".
Definition AMYGDALA_TAGS_FILE : string := "emotional_tags.md".

(** *** Time stamps *)

(** A field printed with at least [width] digits ([%02d], [%04d], [%06d]). *)
Definition zero_padded (width : nat) (z : Z) : string :=
  let digits := Py.str_of_Z z in
  string_of_list_ascii (repeat "0"%char (width - String.length digits)) +:+ digits.

(** [t.strftime("%Y-%m-%d %H:%M UTC")]. *)
Definition strftime_minute (t : datetime) : string :=
  zero_padded 4 (year t) +:+ "-" +:+ zero_padded 2 (month t) +:+ "-"
  +:+ zero_padded 2 (day t) +:+ " " +:+ zero_padded 2 (hour t) +:+ ":"
  +:+ zero_padded 2 (minute t) +:+ " UTC".

(** [t.isoformat()] of a time in UTC. *)
Definition isoformat (t : datetime) : string :=
  zero_padded 4 (year t) +:+ "-" +:+ zero_padded 2 (month t) +:+ "-"
  +:+ zero_padded 2 (day t) +:+ "T" +:+ zero_padded 2 (hour t) +:+ ":"
  +:+ zero_padded 2 (minute t) +:+ ":" +:+ zero_padded 2 (second t)
  +:+ (if (microsecond t =? 0)%Z then "" else "." +:+ zero_padded 6 (microsecond t))
  +:+ "+00:00".

(** *** Status *)

Record Status := mk_status {
  status_state : string;
  rounds_total : Z;
  last_started_at : string;
  last_completed_at : string;
  last_turns : Z;
  last_alert : string;
  last_result : string;
  last_error : string;
  tags_pruned_total : Z }.

Definition initial_status : Status :=
  mk_status "idle" 0 "" "" 0 "" "" "" 0.

(** One entry of [_round_history]; the [duration_seconds] entry, a rounded
    floating-point difference of two clock readings, is left out. *)
Record RoundRecord := mk_round {
  started_at : string;
  completed_at : string;
  turns : Z;
  alert : bool;
  error : string;
  result : string }.

Record Amygdala := mk_amygdala {
  cortex_id : string;
  _status : Status;
  _round_history : list RoundRecord;
  _active_patterns : list string;
  _current_actor : option nat }.

(** [deque(maxlen=n).append(x)]. *)
Definition deque_append {A} (maxlen : nat) (x : A) (d : list A) : list A :=
  Py.last_n maxlen (d ++ [x]).

(** *** Notification extraction *)

Definition USER_NOTIFY : string := "[USER_NOTIFY]".
Definition AMYGDALA_ALERT : string := "[AMYGDALA_ALERT]".

(** The candidates collected by [_extract_user_notification]. *)
Fixpoint notification_candidates (messages : list ActorMessage) (cortex : string)
  : list string :=
  match messages with
  | [] => []
  | m :: rest =>
      if negb (String.eqb (recipient m) cortex) || String.eqb (sender m) cortex
      then notification_candidates rest cortex
      else
        let text := Py.strip (content m) in
        if Py.startswith text USER_NOTIFY then
          Py.strip (Py.slice_from (String.length USER_NOTIFY) text)
          :: notification_candidates rest cortex
        else if Py.startswith text AMYGDALA_ALERT then
          text :: notification_candidates rest cortex
        else notification_candidates rest cortex
  end.

(** [Amygdala._extract_user_notification]. *)
Definition _extract_user_notification (messages : list ActorMessage)
    (cortex : string) : option string :=
  last (notification_candidates messages cortex).

(** [x or y] where [x] is a string or [None]. *)
Definition opt_or (x y : option string) : option string :=
  match x with
  | Some s => if Py.truthy s then Some s else y
  | None => y
  end.

(** *** Heuristic seed tags *)

(** [round(x, 2)]: the decimal with two fractional digits nearest to the
    binary value of [x], ties to even, given by its numerator over 100. *)
Definition round_half_even (n d : Z) : Z :=
  let q := (n / d)%Z in
  let r := (n mod d)%Z in
  if (2 * r <? d)%Z then q
  else if (d <? 2 * r)%Z then (q + 1)%Z
  else if Z.even q then q else (q + 1)%Z.

Definition round2 (x : float) : Z :=
  match Prim2SF x with
  | S754_finite sign m e =>
      let n := (100 * Z.pos m)%Z in
      let q := if (0 <=? e)%Z then (n * 2 ^ e)%Z else round_half_even n (2 ^ (- e)) in
      if sign then (- q)%Z else q
  | _ => 0%Z
  end.

(** [min(a, b)] and [max(a, b)] of Python: the first argument wins a tie. *)
Definition py_min (a b : float) : float := if PrimFloat.ltb b a then b else a.
Definition py_max (a b : float) : float := if PrimFloat.ltb a b then b else a.

Record Seed := mk_seed {
  signal : string;
  valence : Z;
  arousal : Z;
  tags : list string;
  high_arousal : bool }.

Definition positive_cues : list string :=
  ["great"; "love"; "thanks"; "good"; "nice"; "awesome"].
Definition negative_cues : list string :=
  ["angry"; "frustrated"; "annoyed"; "hate"; "bad"; "broken"; "error"; "failed"].
Definition contrast_cues : list string :=
  [" but "; " though "; " however "; " keeps "; " still "].
Definition urgency_cues : list string :=
  ["urgent"; "asap"; "now"; "immediately"; "broken"; "error"; "failed"].
Definition risk_cues : list string :=
  ["deadline"; "late"; "overdue"; "risk"; "lost"].

(** The body of the loop of [_heuristic_seed_tags] once the cues of the line
    are known: the five conditional updates in source order, the clamps, and
    the record. *)
Definition seed_of_cues (line : string)
    (urgency has_negative has_positive mixed risk : bool) : Seed :=
  let arousal := 0.2%float in
  let valence := 0.0%float in
  let tags : list string := [] in
  let '(arousal, tags) :=
    if urgency then ((arousal + 0.4)%float, tags ++ ["urgency"]) else (arousal, tags) in
  let '(arousal, valence, tags) :=
    if has_negative
    then ((arousal + 0.25)%float, (valence - 0.5)%float, tags ++ ["negative_affect"])
    else (arousal, valence, tags) in
  let '(valence, tags) :=
    if has_positive then ((valence + 0.5)%float, tags ++ ["positive_affect"])
    else (valence, tags) in
  let '(arousal, valence, tags) :=
    if mixed
    then ((arousal + 0.1)%float, (valence - 0.6)%float, tags ++ ["mixed_or_ironic"])
    else (arousal, valence, tags) in
  let '(arousal, tags) :=
    if risk then ((arousal + 0.2)%float, tags ++ ["risk"]) else (arousal, tags) in
  let arousal := py_max 0.0%float (py_min 1.0%float arousal) in
  let valence := py_max (-1.0)%float (py_min 1.0%float valence) in
  {| signal := Py.slice_to 180 line;
     valence := round2 valence;
     arousal := round2 arousal;
     tags := match tags with [] => ["neutral"] | _ => tags end;
     high_arousal := PrimFloat.leb HIGH_AROUSAL_THRESHOLD arousal |}.

Definition has_positive_cue (lower : string) : bool := Py.any_in positive_cues lower.
Definition has_negative_cue (lower : string) : bool := Py.any_in negative_cues lower.
Definition has_contrast_cue (lower : string) : bool := Py.any_in contrast_cues lower.
Definition has_sarcasm_cue (lower : string) : bool :=
  Py.contains "yeah right" lower || Py.contains "sure..." lower
  || (Py.contains "great job" lower && has_negative_cue lower).

(** The seed record of one signal line. *)
Definition seed_of_line (line : string) : Seed :=
  let lower := Py.lower line in
  let has_positive := has_positive_cue lower in
  let has_negative := has_negative_cue lower in
  let has_contrast := has_contrast_cue lower in
  let has_sarcasm := has_sarcasm_cue lower in
  seed_of_cues line
    (Py.any_in urgency_cues lower) has_negative has_positive
    (has_positive && (has_negative || has_contrast || has_sarcasm))
    (Py.any_in risk_cues lower).

(** The signal lines looked at: stripped, non-empty, the last eight. *)
Definition signal_lines (recent_signals : string) : list string :=
  Py.last_n 8 (List.filter Py.truthy (map Py.strip (Py.splitlines recent_signals))).

(** The list [seeds] built by [_heuristic_seed_tags]. *)
Definition heuristic_seeds (recent_signals : string) : list Seed :=
  map seed_of_line (signal_lines recent_signals).

(** *** Tag log compaction *)

Definition compaction_header (now : string) (pruned : nat) : list string :=
  ["# Emotional tags (compacted at " +:+ now +:+ ")";
   "- pruned_lines: " +:+ Py.str_of_nat pruned;
   "- note: keeping only recent rolling window";
   ""].

(** The lines kept and the text written when the log is compacted. *)
Definition kept_lines (content : string) : list string :=
  let lines := Py.splitlines content in
  if (TAG_LOG_KEEP_LINES <? length lines)%nat
  then Py.last_n TAG_LOG_KEEP_LINES lines else lines.

Definition pruned_lines (content : string) : nat :=
  Nat.max 0 (length (Py.splitlines content) - length (kept_lines content)).

Definition compacted_text (now : string) (content : string) : string :=
  Py.strip (Py.join LF (compaction_header now (pruned_lines content)
                        ++ kept_lines content)) +:+ LF.

Definition add_pruned (n : nat) (st : Status) : Status :=
  mk_status (status_state st) (rounds_total st) (last_started_at st)
            (last_completed_at st) (last_turns st) (last_alert st)
            (last_result st) (last_error st) (tags_pruned_total st + Z.of_nat n).

(** [Amygdala._compact_tag_log]. *)
Definition _compact_tag_log (st : Status) (w : World) : Status * World :=
  match files w !! AMYGDALA_TAGS_FILE with
  | None => (st, w)
  | Some content =>
      if (Z.of_nat (String.length content) <=? TAG_LOG_MAX_CHARS)%Z then (st, w)
      else
        let '(t, w1) := datetime_now w in
        (add_pruned (pruned_lines content) st,
         with_files (<[AMYGDALA_TAGS_FILE :=
                        compacted_text (strftime_minute t) content]> (files w1)) w1)
  end.

(** *** One heartbeat round *)

(** [Amygdala._read_file]. *)
Definition _read_file (w : World) (path fallback : string) : string :=
  match files w !! path with
  | Some text => Py.str_or (Py.strip text) fallback
  | None => fallback
  end.

(** What calling [recent_signals_provider] gives this round. *)
Inductive Provider :=
| NoProvider
| ProviderReturns (text : string)
| ProviderRaises (err : string).

(** [Amygdala._recent_signals]. *)
Definition _recent_signals (p : Provider) : string :=
  match p with
  | NoProvider => "(no signal provider)"
  | ProviderReturns text => Py.str_or (Py.strip text) "(no recent user signals)"
  | ProviderRaises e => "(failed to get recent signals: " +:+ e +:+ ")"
  end.

(** An entry of the registry's event log as far as [run_round] reads it:
    its [payload] dictionary. *)
Record Event := mk_event { payload : gmap string string }.

(** What evaluating [self.registry.events.query(event_type="user_notify",
    actor_id=actor.id, since=round_started_at, limit=5)] gives: an
    exception, or the list of events found. *)
Inductive EventsAnswer :=
| EventsRaise (err : string)
| Events (l : list Event).

(** The [ActorRegistry] of [lethe/actor/__init__.py] defines no attribute
    [events]: its [__init__] sets [_actors], [_principal_id],
    [_on_user_message] and [_llm_factory], and no method adds another.  On
    it the expression [self.registry.events] raises [AttributeError] every
    time it is evaluated. *)
Definition registry_events : nat -> EventsAnswer :=
  fun _ => EventsRaise "'ActorRegistry' object has no attribute 'events'".

(** The configuration of the internal actor. *)
Definition amygdala_config : ActorConfig :=
  {| name := "amygdala"; group := "main";
     goals := "Tag emotional salience, track arousal patterns, detect flashbacks, "
              +:+ "and notify cortex only when escalation is warranted.";
     model := "";
     tools := ["read_file"; "write_file"; "edit_file"; "list_directory";
               "grep_search"; "conversation_search"; "memory_read"];
     max_turns := 6; max_messages := 50 |}.

Definition continue_message : string :=
  "[Continue. If complete, call terminate(result).]".

Definition format_incoming (incoming : list ActorMessage) : string :=
  Py.join LF (map (fun m => "[From " +:+ sender m +:+ "]: " +:+ content m) incoming).

(** [AMYGDALA_ROUND_MESSAGE.format(...)]. *)
Definition round_message (timestamp recent_signals seed_tags previous_state : string)
  : string :=
  "[Amygdala Round - " +:+ timestamp +:+ "]" +:+ LF +:+ LF
  +:+ "Recent user signals:" +:+ LF +:+ recent_signals +:+ LF +:+ LF
  +:+ "Heuristic seed tags:" +:+ LF +:+ seed_tags +:+ LF +:+ LF
  +:+ "Previous state:" +:+ LF +:+ previous_state +:+ LF +:+ LF
  +:+ "Detect salience, tag emotions, check flashbacks, update files, and terminate.".

(** How the turn loop is left: by running out of turns or by a [break]
    ([LoopDone], with the text of an LLM error if that was the cause), or by
    an exception that reaches the outer handler. *)
Inductive LoopExit :=
| LoopDone (llm_error : option string) (user_message : option string) (w : World)
| LoopRaised (err : string) (user_message : option string) (w : World).

Section Round.
(** [json.dumps(seeds, ensure_ascii=True, indent=2)]. *)
Variable json_dumps : list Seed -> string.
Variable llm : LLM.
(** What the query of the event log gives in each turn: [registry_events]
    for the [ActorRegistry] of [lethe/actor/__init__.py]. *)
Variable events : nat -> EventsAnswer.

(** [Amygdala._heuristic_seed_tags]. *)
Definition _heuristic_seed_tags (recent_signals : string) : string :=
  match heuristic_seeds recent_signals with
  | [] => "(none)"
  | seeds => json_dumps seeds
  end.

(** The [for turn in range(config.max_turns)] loop of [run_round]. *)
Fixpoint round_loop (cortex message : string) (a : nat) (n : nat) (turn : Z)
    (user_message : option string) (w : World) : LoopExit :=
  match n with
  | O => LoopDone None user_message w
  | S n' =>
      let w1 := update a (set_turns (turn + 1)) w in
      if is_terminated_ref w1 a then LoopDone None user_message w1
      else
        let '(incoming, w2) := drain_inbox a w1 in
        let turn_message :=
          if (turn =? 0)%Z then message
          else match incoming with
               | [] => continue_message
               | _ => format_incoming incoming
               end in
        let r := llm (Z.to_nat turn) turn_message in
        let w3 := exec_calls a (calls r) w2 in
        match outcome r with
        | Raises e => LoopDone (Some e) user_message w3
        | Reply _ =>
            match events (Z.to_nat turn) with
            | EventsRaise e => LoopRaised e user_message w3
            | Events evs =>
                let user_message' :=
                  match last evs with
                  | Some ev =>
                      opt_or (Some (default "" (payload ev !! "message"))) user_message
                  | None =>
                      opt_or (match heap w3 !! a with
                              | Some A => _extract_user_notification (_messages A) cortex
                              | None => None
                              end) user_message
                  end in
                if is_terminated_ref w3 a then LoopDone None user_message' w3
                else round_loop cortex message a n' (turn + 1) user_message' w3
            end
        end
  end.

(** [Amygdala._update_active_patterns] on the seeds that [seed_tags]
    encodes. *)
Definition _update_active_patterns (seeds : list Seed) (patterns : list string)
  : list string :=
  fold_left (fun d sd =>
               if high_arousal sd then
                 match tags sd with
                 | t :: _ => deque_append FLASHBACK_LOOKBACK t d
                 | [] => d
                 end
               else d) seeds patterns.

(** How [run_round] ends: it returns ([None], always), or the exception
    raised while the LLM client is built leaves it. *)
Inductive RoundOutcome :=
| Returned (am : Amygdala) (w : World)
| Propagated (err : string) (am : Amygdala) (w : World).

(** [Amygdala.run_round].  [signals] is what the signal provider does this
    round and [llm_error] is [Some e] when [_create_amygdala_llm] raises. *)
Definition run_round (signals : Provider) (llm_error : option string)
    (am : Amygdala) (w : World) : RoundOutcome :=
  let '(round_started_at, w) := datetime_now w in
  let timestamp := strftime_minute round_started_at in
  let st := _status am in
  let st := mk_status "running" (rounds_total st) (isoformat round_started_at)
                      (last_completed_at st) (last_turns st) (last_alert st)
                      (last_result st) "" (tags_pruned_total st) in
  let '(st, w) := _compact_tag_log st w in
  let previous_state := _read_file w AMYGDALA_STATE_FILE "(none)" in
  let recent_signals := _recent_signals signals in
  let seeds := heuristic_seeds recent_signals in
  let seed_tags := _heuristic_seed_tags recent_signals in
  let '(a, w) := spawn amygdala_config (Some (cortex_id am)) false w in
  match llm_error with
  | Some e =>
      Propagated e (mk_amygdala (cortex_id am) st (_round_history am)
                                (_active_patterns am) (Some a)) w
  | None =>
      let w := cleanup_terminated w in
      let message := round_message timestamp recent_signals seed_tags previous_state in
      let '(error, user_message, w) :=
        match round_loop (cortex_id am) message a
                         (Z.to_nat (max_turns amygdala_config)) 0 None w with
        | LoopDone llm_err user_message w1 =>
            let w2 :=
              if is_terminated_ref w1 a then w1
              else terminate true a
                     (Some ("Amygdala round complete (turn "
                            +:+ Py.str_of_Z (match heap w1 !! a with
                                             | Some A => _turns A
                                             | None => 0
                                             end) +:+ ")")) w1 in
            (match llm_err with Some e => e | None => "" end, user_message, w2)
        | LoopRaised e user_message w1 =>
            (e, user_message,
             if is_terminated_ref w1 a then w1
             else terminate true a (Some ("Error: " +:+ e)) w1)
        end in
      let '(round_completed_at, w) := datetime_now w in
      let A := heap w !! a in
      let result :=
        match A with
        | Some A' => match _result A' with
                     | Some r => Py.str_or r "No result"
                     | None => "No result"
                     end
        | None => "No result"
        end in
      let actor_turns := match A with Some A' => _turns A' | None => 0%Z end in
      let alert_text :=
        match user_message with
        | Some u => if Py.truthy u then Py.slice_to 240 u else last_alert st
        | None => last_alert st
        end in
      let has_alert :=
        match user_message with Some u => Py.truthy u | None => false end in
      let st := mk_status "idle" (rounds_total st + 1) (last_started_at st)
                          (isoformat round_completed_at) actor_turns alert_text
                          (Py.slice_to 240 result) error (tags_pruned_total st) in
      let patterns := _update_active_patterns seeds (_active_patterns am) in
      let history :=
        deque_append 40
          (mk_round (isoformat round_started_at) (isoformat round_completed_at)
                    actor_turns has_alert error (Py.slice_to 240 result))
          (_round_history am) in
      let '(st, w) := _compact_tag_log st w in
      Returned (mk_amygdala (cortex_id am) st history patterns None) w
  end.

End Round.

End Amygdala.

(** ** Listings of the registry and the context of an actor
    ([lethe/actor/__init__.py]) *)

Module Views.
Import Actors Tools.

#[global] Instance ActorState_eq_dec : EqDecision ActorState.
Proof. solve_decision. Defined.

(** [ActorInfo]: the public view of an actor. *)
Record ActorInfo := mk_info {
  info_id : string;
  info_name : string;
  info_group : string;
  info_goals : string;
  info_state : ActorState;
  info_spawned_by : string }.

(** [Actor.info]. *)
Definition info (A : Actor) : ActorInfo :=
  {| info_id := actor_id A; info_name := name (config A);
     info_group := group (config A); info_goals := goals (config A);
     info_state := state A; info_spawned_by := spawned_by A |}.

(** [self._actors.values()]: the registered references, each with the object
    behind it.  [_actors] is a [gmap], which does not record the insertion
    order a Python dictionary iterates in: the listings below are given up
    to the order of their entries. *)
Definition values (w : World) : list (nat * Actor) :=
  omap (fun kv : string * nat => pair (snd kv) <$> heap w !! snd kv)
       (map_to_list (_actors w)).

(** [ActorRegistry.discover]. *)
Definition discover (w : World) (g : string) : list ActorInfo :=
  map (fun x => info (snd x))
      (filter (fun x : nat * Actor =>
                 group (config (snd x)) = g /\ state (snd x) <> TERMINATED)
              (values w)).

(** [ActorRegistry.get_children]: the references of the children. *)
Definition get_children (w : World) (parent_id : string) : list nat :=
  map fst
      (filter (fun x : nat * Actor =>
                 spawned_by (snd x) = parent_id /\ state (snd x) <> TERMINATED)
              (values w)).

(** [ActorRegistry.all_actors]. *)
Definition all_actors (w : World) : list ActorInfo :=
  map (fun x => info (snd x)) (values w).

(** [l[-k:]] for an integer [k]: the last [k] entries for a positive [k],
    the whole list for [k = 0], and the list without its first [-k] entries
    for a negative [k]. *)
Definition slice_last {A} (k : Z) (l : list A) : list A :=
  if (0 <? k)%Z then drop (length l - Z.to_nat k) l else drop (Z.to_nat (- k)) l.

(** [Actor.get_context_messages]: each dictionary is given by its ["role"]
    and ["content"] entries. *)
Definition get_context_messages (w : World) (a : nat) : list (string * string) :=
  match heap w !! a with
  | None => []
  | Some A =>
      map (fun m =>
             if String.eqb (sender m) (actor_id A) then ("assistant", content m)
             else ("user", "[From " +:+ sender_name w (sender m) +:+ "]: " +:+ content m))
          (slice_last (max_messages (config A)) (_messages A))
  end.

End Views.

(** ** The conversation manager ([lethe/conversation/__init__.py]) *)

Module Manager.
Import Conversation.

Section WithValues.
Context {V : Type}.

Definition with_processing (b : bool) (st : ConversationState V)
  : ConversationState V :=
  mk_state (chat_id st) (user_id st) (pending_messages st) b (interrupt_event st).

Definition with_interrupt (b : bool) (st : ConversationState V)
  : ConversationState V :=
  mk_state (chat_id st) (user_id st) (pending_messages st) (is_processing st) b.

(** [ConversationManager.get_or_create_state]: the state of the chat and
    the dictionary [_states] afterwards. *)
Definition get_or_create_state (states : gmap Z (ConversationState V)) (c u : Z)
  : ConversationState V * gmap Z (ConversationState V) :=
  match states !! c with
  | Some st => (st, states)
  | None => let st := mk_state c u [] false false in (st, <[c := st]> states)
  end.

(** [ConversationManager.add_message].  [process_callback] tells whether a
    callback was passed.  The result is the value returned, whether a task
    running [_process_loop] on the state was created, and [_states] with the
    state of the chat as the call leaves it. *)
Definition add_message (states : gmap Z (ConversationState V)) (c u : Z)
    (txt : string) (meta : option (gmap string V)) (now : Actors.datetime)
    (process_callback : bool)
  : bool * bool * gmap Z (ConversationState V) :=
  let '(st, states1) := get_or_create_state states c u in
  let '(was_interrupted, st1) := Conversation.add_message txt meta now st in
  if was_interrupted then (true, false, <[c := st1]> states1)
  else if is_processing st1 then (true, false, <[c := st1]> states1)
  else if process_callback
       then (true, true, <[c := with_processing true st1]> states1)
       else (true, false, <[c := st1]> states1).

(** [ConversationManager.is_processing]. *)
Definition is_processing_chat (states : gmap Z (ConversationState V)) (c : Z) : bool :=
  match states !! c with
  | Some st => is_processing st
  | None => false
  end.

(** How one [await process_callback(...)] goes: the messages submitted for
    this chat with [ConversationManager.add_message] while the callback is
    awaited (they find the state processing and go through
    [ConversationState.add_message]), and how the await ends. *)
Inductive CallbackEnd := Returns | Fails (err : string) | Cancelled.

Record CallbackRun := mk_run {
  arrivals : list (string * option (gmap string V) * Actors.datetime);
  ending : CallbackEnd }.

(** The callback: number of the call, message and metadata to what
    happens. *)
Definition Callback := nat -> string -> gmap string V -> CallbackRun.

(** The submissions of one await, in order. *)
Definition submit_all
    (l : list (string * option (gmap string V) * Actors.datetime))
    (st : ConversationState V) : ConversationState V :=
  fold_left (fun s m => snd (Conversation.add_message (fst (fst m)) (snd (fst m))
                                                      (snd m) s)) l st.

(** How the loop is left: by the end of the [while] or the [break], or by
    the [CancelledError] that is raised again. *)
Inductive LoopEnd := Finished | CancelledError.

(** The [while state.pending_messages] loop of [_process_loop]; [i] counts
    the calls of the callback made so far.  Beside the way the loop is left
    and the state, the result lists the calls made: message and metadata of
    each.  The loop runs as long as messages keep arriving, hence the
    fuel. *)
Fixpoint process_while (cb : Callback) (fuel : nat) (i : nat)
    (st : ConversationState V)
  : option (LoopEnd * list (string * gmap string V) * ConversationState V) :=
  match fuel with
  | O => None
  | S fuel' =>
      match pending_messages st with
      | [] => Some (Finished, [], st)
      | _ :: _ =>
          let st1 := with_interrupt false st in
          let '(combined, metadata, st2) := get_combined_message st1 in
          if negb (Py.truthy combined) then Some (Finished, [], st2)
          else
            let r := cb i combined metadata in
            let st3 := submit_all (arrivals r) st2 in
            match ending r with
            | Cancelled => Some (CancelledError, [(combined, metadata)], st3)
            | Returns | Fails _ =>
                let st4 := if interrupt_event st3 then with_interrupt false st3
                           else st3 in
                match process_while cb fuel' (S i) st4 with
                | Some (e, calls, st') => Some (e, (combined, metadata) :: calls, st')
                | None => None
                end
            end
      end
  end.

(** [ConversationManager._process_loop]: the loop and the [finally]
    block. *)
Definition _process_loop (cb : Callback) (fuel : nat) (st : ConversationState V)
  : option (LoopEnd * list (string * gmap string V) * ConversationState V) :=
  match process_while cb fuel 0 st with
  | Some (e, calls, st') => Some (e, calls, with_processing false st')
  | None => None
  end.

End WithValues.

Arguments CallbackRun : clear implicits.
Arguments Callback : clear implicits.

End Manager.

(** ** Memory recall ([lethe/hippocampus/__init__.py]) *)

Module Recall.
Import Hippocampus.

Definition LF : string := String "010" EmptyString.

(** [s.replace(old, "")] for a non-empty [old]: the occurrences are found
    from the left and do not overlap; [skip] characters of an occurrence are
    still to be dropped. *)
Fixpoint remove_all (skip : nat) (old s : string) : string :=
  match s with
  | EmptyString => EmptyString
  | String c s' =>
      match skip with
      | S k => remove_all k old s'
      | O => if String.prefix old s then remove_all (String.length old - 1) old s'
             else String c (remove_all 0 old s')
      end
  end.

(** Truth value of a decoded JSON value. *)
Definition json_truthy (v : JSON) : bool :=
  match v with
  | JNull => false
  | JBool b => b
  | JNumber z => negb (z =? 0)%Z
  | JString s => Py.truthy s
  | JArray items => match items with [] => false | _ => true end
  | JObject fields => match fields with [] => false | _ => true end
  end.

(** An entry of [recent_messages]: the ["role"] entry if present, and the
    ["content"] entry if present, which is a string or a list of parts; a
    part counts when it is a dictionary whose ["type"] is ["text"], and then
    carries its ["text"] entry if present. *)
Inductive ContextPart := TextDict (text : option string) | OtherDict.
Inductive ContextContent := ContextStr (s : string) | ContextParts (parts : list ContextPart).
Record RecentMessage := mk_recent {
  role : option string;
  recent_content : option ContextContent }.

(** [" ".join(part.get("text", "") for part in content if ...)]. *)
Definition joined_parts (parts : list ContextPart) : string :=
  Py.join " " (omap (fun p => match p with
                              | TextDict t => Some (default "" t)
                              | OtherDict => None
                              end) parts).

(** One line of the context: the content flattened, cut after 200
    characters, behind the role. *)
Definition context_line (m : RecentMessage) : string :=
  let content := match recent_content m with
                 | None => ""
                 | Some (ContextStr s) => s
                 | Some (ContextParts parts) => joined_parts parts
                 end in
  let content := if (200 <? String.length content)%nat
                 then Py.slice_to 200 content +:+ "..." else content in
  default "unknown" (role m) +:+ ": " +:+ content.

(** The [context] of the prompt: a line for each of the last five
    messages. *)
Definition format_context (recent_messages : list RecentMessage) : string :=
  match map context_line (Views.slice_last 5 recent_messages) with
  | [] => "(new conversation)"
  | context_lines => Py.join LF context_lines
  end.

(** The prompt of [analyze_for_recall]. *)
Definition recall_prompt (context new_message : string) : string :=
  "RECENT CONTEXT:" +:+ LF +:+ context +:+ LF +:+ LF
  +:+ "NEW USER MESSAGE:" +:+ LF +:+ new_message +:+ LF +:+ LF
  +:+ "Would looking up memories (past conversations, archival notes, "
  +:+ "credentials, previous decisions) benefit the response to this message?"
  +:+ LF +:+ LF +:+ "Think about:" +:+ LF
  +:+ "- Does this reference something from before?" +:+ LF
  +:+ "- Would past context improve the answer?" +:+ LF
  +:+ "- Are there credentials/configs/patterns we discussed?" +:+ LF +:+ LF
  +:+ "JSON only:".

(** The prompt of [_compress_memories]. *)
Definition compress_prompt (memories query : string) : string :=
  "The following memories were retrieved for the query " +:+ String "034" query
  +:+ String "034" "." +:+ LF
  +:+ "They are too long to include in full. Summarize the key relevant "
  +:+ "information concisely." +:+ LF
  +:+ "Preserve important facts, names, dates, and context. Do not add "
  +:+ "information that isn't present." +:+ LF +:+ LF
  +:+ "MEMORIES:" +:+ LF +:+ memories +:+ LF +:+ LF
  +:+ "SUMMARY (be concise but preserve key details):".

(** The first text found by the loop of [_compress_memories], which goes on
    to the next message when an assistant message yields none. *)
Fixpoint summary_text (msgs : list ReplyMessage) : option string :=
  match msgs with
  | [] => None
  | m :: rest =>
      match message_type m with
      | Some ty =>
          if String.eqb ty "assistant_message" then
            match content m with
            | ContentStr s => Some s
            | ContentList parts =>
                match first_text parts with
                | Some t => Some t
                | None => summary_text rest
                end
            | ContentOther => summary_text rest
            end
          else summary_text rest
      | None => summary_text rest
      end
  end.

(** A hit of the conversation search: its [message_type] attribute if it
    has one, and the text the chain of [hasattr] tests selects. *)
Record ConversationHit := mk_hit {
  hit_type : option string;
  hit_text : string }.

Section Recall.
Variable json_loads : string -> option JSON.
Variable re_search_braces : string -> option string.
(** [get_or_create_agent()]: the agent id, [None] when it raises. *)
Variable agent : option string.
(** [client.agents.messages.create] on a prompt: [None] when it raises. *)
Variable create : string -> option (list ReplyMessage).
(** [str(v)] of a decoded value that is not a string. *)
Variable str_of_json : JSON -> string.
(** [client.agents.passages.search] and [client.messages.search] for a
    query, as the lists the code collects: the contents of the passages and
    the hits; [None] when the search or the collection raises. *)
Variable archival_search : JSON -> option (list string).
Variable conversation_search : JSON -> option (list ConversationHit).

(** A decoded value inside an f-string. *)
Definition format_value (v : JSON) : string :=
  match v with
  | JString s => s
  | _ => str_of_json v
  end.

(** [HippocampusManager.analyze_for_recall]: the dictionary returned, as its
    entries, or [None]. *)
Definition analyze_for_recall (enabled : bool) (new_message : string)
    (recent_messages : list RecentMessage) : option (list (string * JSON)) :=
  if negb enabled then None
  else
    match agent with
    | None => None
    | Some _ =>
        match create (recall_prompt (format_context recent_messages) new_message) with
        | None => None
        | Some msgs =>
            match extract_text msgs with
            | None => None
            | Some result_text =>
                if negb (Py.truthy result_text) then None
                else
                  match parse_json json_loads re_search_braces result_text with
                  | inl (JObject fields) => Some fields
                  | inl _ => None
                  | inr _ => None
                  end
            end
        end
    end.

(** [HippocampusManager._compress_memories]. *)
Definition _compress_memories (memories : string) (query : JSON) : string :=
  match agent with
  | None => memories
  | Some _ =>
      match create (compress_prompt memories (format_value query)) with
      | None => memories
      | Some msgs =>
          match summary_text msgs with
          | Some t => "[Compressed summary] " +:+ t
          | None => memories
          end
      end
  end.

(** The list [results] that [search_memories] builds, with
    [max_results = 5]. *)
Definition search_results (query : JSON) : list string :=
  match archival_search query with
  | Some passages => map (fun c => "[Archival] " +:+ c) (take 5 passages)
  | None => []
  end
  ++
  match conversation_search query with
  | Some hits =>
      map (fun h => "[" +:+ remove_all 0 "_message" (default "message" (hit_type h))
                    +:+ "] " +:+ hit_text h) (take 5 hits)
  | None => []
  end.

(** [HippocampusManager.search_memories]. *)
Definition search_memories (query : JSON) : string :=
  match search_results query with
  | [] => ""
  | results =>
      let combined := Py.join (LF +:+ LF) results in
      if (3000 <? String.length combined)%nat
      then _compress_memories combined query
      else combined
  end.

(** [HippocampusManager.augment_message]. *)
Definition augment_message (enabled : bool) (new_message : string)
    (recent_messages : list RecentMessage) : string :=
  if negb enabled then new_message
  else
    match analyze_for_recall enabled new_message recent_messages with
    | None => new_message
    | Some analysis =>
        if negb (json_truthy (JObject analysis))
           || negb (json_truthy (dict_get analysis "should_recall" JNull))
           || negb (json_truthy (dict_get analysis "search_query" JNull))
        then new_message
        else
          let query := dict_get analysis "search_query" JNull in
          let memories := search_memories query in
          if negb (Py.truthy memories) then new_message
          else
            let reason :=
              dict_get analysis "reason" (JString "potentially relevant context") in
            new_message +:+ LF +:+ LF +:+ "---" +:+ LF
            +:+ "[Memory recall: " +:+ format_value reason +:+ "]" +:+ LF
            +:+ memories +:+ LF +:+ "[End of recall]"
    end.

End Recall.

End Recall.

(** * Auxiliary notions and scenarios

    Notions the statements below are phrased with, and the concrete worlds
    the examples run in. *)

Section ActorNotions.
Import Actors Tools.

(** A world with nothing in it: ids count up from 10, the clock stands still. *)
Definition empty_world : World :=
  mk_world [] ∅ None [] ∅ (fun n => N.of_nat (n + 10)) 0
           (fun _ => mk_datetime 2026 1 2 3 4 5 0) 0.

(** The registry after the principal "butler" was spawned into it (object 0,
    id 0000000a). *)
Definition one_principal : nat * World :=
  spawn (default_config "butler") None true empty_world.

(** The principal "butler" (object 0, id 0000000a) and its child "researcher"
    (object 1, id 0000000b). *)
Definition butler_and_worker : Actors.World :=
  snd (Actors.spawn
         (Actors.mk_config "researcher" "main" "Research the topic." ""
                           ["web_search"; "read_file"] 5 50)
         (Some "0000000a") false (snd one_principal)).

(** The researcher has terminated (outside any event loop). *)
Definition worker_done : Actors.World :=
  Eval vm_compute in Actors.terminate false 1 (Some "done") butler_and_worker.

(** The two objects of that world. *)
Definition worker_done_butler : Actors.Actor :=
  Eval vm_compute in default (Actors.mk_actor "" (Actors.default_config "") "" false
    Actors.RUNNING [] [] None 0 (Actors.mk_datetime 0 0 0 0 0 0 0))
    (Actors.heap worker_done !! 0).

Definition worker_done_worker : Actors.Actor :=
  Eval vm_compute in default worker_done_butler (Actors.heap worker_done !! 1).

(** Two actor objects that agree on everything but inbox and history. *)
Definition same_core (X X' : Actor) : Prop :=
  actor_id X' = actor_id X /\ config X' = config X /\
  spawned_by X' = spawned_by X /\ is_principal X' = is_principal X /\
  state X' = state X /\ _result X' = _result X /\ _turns X' = _turns X.

(** The notice [_on_actor_terminated] writes for the actor object [B]. *)
Definition termination_notice (B : Actor) : string :=
  "[TERMINATED] " +:+ name (config B) +:+ " finished: "
  +:+ match _result B with
      | Some r => Py.str_or r "no result"
      | None => "no result"
      end.

(** The text [terminate] stores: [result or f"Actor {name} terminated"]. *)
Definition stored_result (A : Actor) (result : option string) : string :=
  match result with
  | Some s => Py.str_or s ("Actor " +:+ name (config A) +:+ " terminated")
  | None => "Actor " +:+ name (config A) +:+ " terminated"
  end.

(** Two states of an actor object that agree on identity, configuration,
    parentage and turn counter. *)
Definition keeps (X X' : Actor) : Prop :=
  actor_id X' = actor_id X /\ config X' = config X /\
  spawned_by X' = spawned_by X /\ is_principal X' = is_principal X /\
  _turns X' = _turns X.

(** Every object of [w] is still there in [w'], with these fields as they
    were. *)
Definition world_keeps (w w' : World) : Prop :=
  forall x X, heap w !! x = Some X ->
              exists X', heap w' !! x = Some X' /\ keeps X X'.

(** The invariant of the turn loop: the object is allocated, its
    configuration is the one the runner read, and its counter does not
    exceed [max_turns]. *)
Definition runner_inv (a : nat) (A0 : Actor) (w : World) : Prop :=
  exists X, heap w !! a = Some X /\ config X = config A0 /\
            (_turns X <= max_turns (config A0))%Z.

(** The counter of the driven actor reads [t]. *)
Definition turns_at (a : nat) (w : World) (t : Z) : Prop :=
  exists X, heap w !! a = Some X /\ _turns X = t.

(** The researcher of [butler_and_worker] (object 1), still Running. *)
Definition researcher : Actors.Actor :=
  Eval vm_compute in default worker_done_butler (Actors.heap butler_and_worker !! 1).

(** The max-turns scenario: a subagent with [max_turns = 3] under a model
    that calls no tool and always answers "Still working...". *)
Definition slow_worker_world : Actors.World :=
  Eval vm_compute in
    snd (Actors.spawn (Actors.mk_config "slow_worker" "main" "Take forever" "" [] 3 50)
                      (Some "0000000a") false (snd one_principal)).

(** The subagent of that world (object 1). *)
Definition slow_worker : Actors.Actor :=
  Eval vm_compute in
    default (Actors.mk_actor "" (Actors.default_config "") "" false Actors.RUNNING
                             [] [] None 0 (Actors.mk_datetime 0 0 0 0 0 0 0))
            (Actors.heap slow_worker_world !! 1).

(** The model of that scenario. *)
Definition still_working : Tools.LLM :=
  fun _ _ => Tools.mk_chat [] (Tools.Reply "Still working...").

End ActorNotions.

Section TextNotions.

(** The line feed. *)
Definition NL : string := String "010" EmptyString.

(** A text without line boundaries. *)
Fixpoint no_linebreak (s : string) : bool :=
  match s with
  | EmptyString => true
  | String c s' => negb (Py.islinebreak c) && no_linebreak s'
  end.

(** What [rstrip] does to a text given by its lines: the trailing lines of
    white space go and the last line left is stripped on the right. *)
Fixpoint rstrip_lines (L : list string) : list string :=
  match L with
  | [] => []
  | l :: ls =>
      match rstrip_lines ls with
      | [] => if Py.truthy (Py.rstrip l) then [Py.rstrip l] else []
      | ls' => l :: ls'
      end
  end.

End TextNotions.

Section ConversationNotions.
Import Conversation.


(** Three messages "a", "b", "c" submitted to chat 7 (the coalescing
    scenario); the second and third both set the key "user". *)
Definition three_pending : Conversation.ConversationState string :=
  let t := Actors.mk_datetime 2026 1 2 3 4 5 0 in
  Conversation.mk_state 7 1
    [Conversation.mk_pending "a" ∅ t;
     Conversation.mk_pending "b" {["user" := "bob"]} t;
     Conversation.mk_pending "c" {["user" := "carol"]} t]
    true false.

End ConversationNotions.

Section ManagerNotions.
Import Conversation Manager.

(** The pending entry that a submission (content, metadata, time) leaves. *)
Definition to_pending {V} (m : string * option (gmap string V) * Actors.datetime)
  : PendingMessage V :=
  mk_pending (fst (fst m)) (match snd (fst m) with Some d => d | None => ∅ end)
             (snd m).

(** What [get_combined_message] returns for a batch of pending messages. *)
Definition combined_of {V} (batch : list (PendingMessage V))
  : string * gmap string V :=
  fst (get_combined_message (mk_state 0 0 batch true false)).


(** A callback during which nothing arrives and which returns. *)
Definition quiet_callback {V} : Callback V := fun _ _ _ => mk_run [] Returns.

(** A callback during whose first call two more messages arrive. *)
Definition busy_callback : Callback string :=
  fun i _ _ =>
    match i with
    | O => mk_run [("d", None, Actors.mk_datetime 2026 1 2 3 4 6 0);
                   ("e", Some {["user" := "eve"]}, Actors.mk_datetime 2026 1 2 3 4 7 0)]
                  Returns
    | S _ => mk_run [] Returns
    end.

End ManagerNotions.

Section HippocampusNotions.
Import Hippocampus.




End HippocampusNotions.

Section AmygdalaNotions.
Import Actors Amygdala.

(** A line that starts like the first line of a compaction header, and the
    number of such lines in a text. *)
Definition COMPACTION_HEADER_PREFIX : string := "# Emotional tags (compacted at ".

Definition is_compaction_header (line : string) : bool :=
  String.prefix COMPACTION_HEADER_PREFIX line.

Definition header_count (text : string) : nat :=
  length (List.filter is_compaction_header (Py.splitlines text)).

(** A log of one line of 24001 characters. *)
Definition one_long_line : string :=
  string_of_list_ascii (repeat "a"%char (Z.to_nat 24001)).

(** A workspace whose tag log is that line. *)
Definition long_log_world : World :=
  with_files {[AMYGDALA_TAGS_FILE := one_long_line]} empty_world.

(** A log entry of 200 characters, and a log of [n] such entries, each
    ended by a line feed. *)
Definition log_entry : string :=
  "- " +:+ string_of_list_ascii (repeat "x"%char 198).

Definition entries_log (n : nat) : string :=
  String.concat "" (repeat (log_entry +:+ NL) n).

(** A workspace whose tag log holds 130 entries (26130 characters), and
    one whose tag log holds 141. *)
Definition steady_log_world : World :=
  with_files {[AMYGDALA_TAGS_FILE := entries_log 130]} empty_world.

Definition full_log_world : World :=
  with_files {[AMYGDALA_TAGS_FILE := entries_log 141]} empty_world.

(** A short log, far below the threshold. *)
Definition short_log_world : Actors.World :=
  Actors.with_files
    {[Amygdala.AMYGDALA_TAGS_FILE := "- 2026-01-02 tag: calm" +:+ NL]} empty_world.

(** The escalation scenario: the amygdala of the principal "butler" and a
    model that in its first turn sends the notification to the cortex and
    terminates. *)
Definition heartbeat : Amygdala.Amygdala :=
  Amygdala.mk_amygdala "0000000a" Amygdala.initial_status [] [] None.

(** The model of the scenario, for a given payload. *)
Definition notifying_llm (payload : string) : Tools.LLM :=
  fun turn _ =>
    match turn with
    | O => Tools.mk_chat
             [Tools.CallSendMessage "0000000a" ("[USER_NOTIFY] " +:+ payload) "";
              Tools.CallTerminate "done"] (Tools.Reply "ok")
    | S _ => Tools.mk_chat [] (Tools.Reply "")
    end.

(** The recent signals of the scenario. *)
Definition furious : Amygdala.Provider :=
  Amygdala.ProviderReturns "the deploy failed again and I am furious".

(** The world in which the turn loop of a round is left. *)
Definition exit_world (e : Amygdala.LoopExit) : Actors.World :=
  match e with
  | Amygdala.LoopDone _ _ w => w
  | Amygdala.LoopRaised _ _ w => w
  end.

(** The principal of [one_principal]. *)
Definition butler : Actors.Actor :=
  Eval vm_compute in
    default (Actors.mk_actor "" (Actors.default_config "") "" false Actors.RUNNING
                             [] [] None 0 (Actors.mk_datetime 0 0 0 0 0 0 0))
            (Actors.heap (snd one_principal) !! 0).

End AmygdalaNotions.

Section RegistryNotions.
Import Actors Tools.

(** The registry is consistent: every key is the id of the object stored
    under it. *)
Definition registry_wf (w : World) : Prop :=
  forall i a, _actors w !! i = Some a ->
              exists A, heap w !! a = Some A /\ actor_id A = i.

(** Two states of an actor object with the same identity, configuration and
    parentage. *)
Definition same_identity (X X' : Actor) : Prop :=
  actor_id X' = actor_id X /\ config X' = config X /\
  spawned_by X' = spawned_by X /\ is_principal X' = is_principal X.

(** A stored result that is not empty. *)
Definition has_result (X : Actor) : Prop :=
  exists r, _result X = Some r /\ Py.truthy r = true.

(** The life cycle of an object between two states of the world: state and
    result are as they were, or the object is terminated with a result. *)
Definition lifecycle (X X' : Actor) : Prop :=
  (state X' = state X /\ _result X' = _result X) \/
  (state X' = TERMINATED /\ has_result X').

(** What the code running on behalf of the actor behind reference [a] can do
    to the world: objects persist with their identity and move within
    [lifecycle]; the state, result and turn counter of every other object stay
    as they are; the principal id is not touched; registered ids stay
    registered; a consistent registry stays consistent. *)
Definition acts (a : nat) (w w' : World) : Prop :=
  (forall x X, heap w !! x = Some X ->
     exists X', heap w' !! x = Some X' /\ same_identity X X' /\ lifecycle X X' /\
                (x <> a -> state X' = state X /\ _result X' = _result X /\
                           _turns X' = _turns X)) /\
  _principal_id w' = _principal_id w /\
  dom (_actors w) ⊆ dom (_actors w') /\
  (registry_wf w -> registry_wf w').

(** No actor was created or registered between [w] and [w']. *)
Definition same_population (w w' : World) : Prop :=
  _actors w' = _actors w /\ length (heap w') = length (heap w).

(** The actor behind [a] sends the texts [txts], one [send_to] each, to the
    actor registered as [rid]. *)
Fixpoint send_all (a : nat) (rid : string) (txts : list string) (w : World) : World :=
  match txts with
  | [] => w
  | t :: ts => send_all a rid ts (snd (send_to a rid t None w))
  end.

(** The actor behind [b] calls [wait_for_reply] [n] times. *)
Fixpoint receive (b : nat) (n : nat) (w : World)
  : list (option ActorMessage) * World :=
  match n with
  | O => ([], w)
  | S n' =>
      let '(m, w1) := wait_for_reply b w in
      let '(ms, w2) := receive b n' w1 in
      (m :: ms, w2)
  end.

(** A tool name as [spawn_subagent] keeps it: not empty, without comma and
    without white space around it. *)
Fixpoint no_comma (s : string) : bool :=
  match s with
  | EmptyString => true
  | String c s' => negb (Ascii.eqb c ","%char) && no_comma s'
  end.

End RegistryNotions.

(** * Properties *)

(** ** Registry: spawning *)

Section SpawnFacts.
Import Actors.

(** An id drawn from the UUID supply is never the empty string. *)
Lemma uuid4_8_truthy w : Py.truthy (fst (uuid4_8 w)) = true.
Proof. reflexivity. Qed.

Lemma lookup_update_eq a f w A :
  heap w !! a = Some A -> heap (update a f w) !! a = Some (f A).
Proof.
  intros H. unfold update; simpl.
  rewrite list_lookup_alter_eq, H. reflexivity.
Qed.

Lemma lookup_update_ne a b f w :
  a <> b -> heap (update a f w) !! b = heap w !! b.
Proof.
  intros H. unfold update; simpl. by rewrite list_lookup_alter_ne.
Qed.

End SpawnFacts.

Section C1.
Import Actors.

(** C1 (as stated, refuted): in the registry holding the live principal
    "butler", a second [spawn] with [is_principal=True] returns a new actor
    and [get_principal] no longer returns the first principal, which is still
    registered and Running. *)
Lemma C1_second_principal_reassigns :
  let '(p1, w1) := one_principal in
  let '(p2, w2) := spawn (default_config "usurper") None true w1 in
  get_principal w1 = Some p1 /\
  (state <$> heap w1 !! p1) = Some RUNNING /\
  (state <$> heap w2 !! p1) = Some RUNNING /\
  get_principal w2 = Some p2 /\
  get_principal w2 <> get_principal w1.
Proof. vm_compute. repeat split; congruence. Qed.

(** C1 (amended): [ActorRegistry.spawn] has no failing path.  Called with
    [is_principal=True] it allocates a new actor object, registers it in state
    Running under the id drawn for it and makes it the principal whatever
    principal was recorded before.  Every object that existed before is left
    as it was, and the registry gains the entry of the new id and nothing
    else: every other id is registered to the object it was registered to
    (an entry that already had the new id, which takes two equal draws of
    eight hex digits, is taken over by the new actor). *)
Theorem C1_spawn_principal_always_succeeds cfg parent w :
  let a := fst (spawn cfg parent true w) in
  let w' := snd (spawn cfg parent true w) in
  a = length (heap w) /\
  get_principal w' = Some a /\
  (exists A, heap w' !! a = Some A /\ state A = RUNNING /\
             is_principal A = true /\ config A = cfg /\
             get w' (actor_id A) = Some a /\
             _principal_id w' = Some (actor_id A) /\
             _actors w' = <[actor_id A := a]> (_actors w) /\
             (forall i, i <> actor_id A -> get w' i = get w i)) /\
  (forall b, b < length (heap w) -> heap w' !! b = heap w !! b).
Proof.
  cbn zeta. unfold spawn.
  destruct (uuid4_8 w) as [uid w1] eqn:Hu.
  destruct (datetime_now w1) as [t w2] eqn:Ht.
  assert (Hh : heap w2 = heap w /\ _actors w2 = _actors w).
  { unfold uuid4_8 in Hu. unfold datetime_now in Ht.
    inversion Hu; subst. inversion Ht; subst. by split. }
  destruct Hh as [Hh Hreg].
  assert (Htr : Py.truthy uid = true).
  { pose proof (uuid4_8_truthy w) as H. rewrite Hu in H. exact H. }
  cbn [fst snd]. rewrite Hh.
  split; [reflexivity|].
  split.
  { unfold get_principal; cbn. rewrite Htr. apply lookup_insert_eq. }
  split.
  { eexists. split.
    - apply lookup_update_eq. cbn.
      rewrite lookup_app_r by lia. rewrite Nat.sub_diag. reflexivity.
    - cbn. repeat split; try reflexivity.
      + unfold get; cbn. apply lookup_insert_eq.
      + by rewrite Hreg.
      + intros i Hi. unfold get; cbn. rewrite lookup_insert_ne by done.
        by rewrite Hreg. }
  intros b Hb.
  rewrite lookup_update_ne by lia. cbn.
  by rewrite lookup_app_l.
Qed.

End C1.

(** ** Conversation: coalescing of pending messages *)

Section C7.
Import Conversation.
Context {V : Type}.



End C7.

Example three_pending_combined :
  fst (fst (Conversation.get_combined_message three_pending))
  = "a" +:+ String "010" (String "010" "---") +:+ String "010"
      "[Additional message while processing:]" +:+ String "010" "b"
    +:+ String "010" (String "010" "---") +:+ String "010"
      "[Additional message while processing:]" +:+ String "010" "c".
Proof. reflexivity. Qed.


(** ** Hippocampus: response judgment *)

Section C4.
Import Hippocampus.



End C4.

(** ** Actors: messaging and termination *)

Section ActorFacts.
Import Actors Tools.

(** Drawing a message id and a time stamp touches nothing but the supplies. *)
Lemma new_message_spec s r t rt w :
  let m := fst (new_message s r t rt w) in
  let w1 := snd (new_message s r t rt w) in
  sender m = s /\ recipient m = r /\ content m = t /\ reply_to m = rt /\
  heap w1 = heap w /\ _actors w1 = _actors w /\
  _principal_id w1 = _principal_id w /\ scheduled w1 = scheduled w /\
  files w1 = files w.
Proof. cbn. repeat split. Qed.

Lemma heap_update a f w : heap (update a f w) = alter f a (heap w).
Proof. reflexivity. Qed.

Lemma lookup_update a b f w :
  heap (update a f w) !! b
  = if decide (a = b) then f <$> heap w !! a else heap w !! b.
Proof.
  rewrite heap_update. destruct (decide (a = b)) as [->|Hne].
  - apply list_lookup_alter_eq.
  - by apply list_lookup_alter_ne.
Qed.

End ActorFacts.

Section C9.
Import Actors Tools.

(** C9 (as stated, refuted): the principal "butler" sends a message to its
    own id; the call succeeds and the message stands twice in the sender's
    history, once from the receiving side and once from the sending side. *)
Lemma C9_self_send_recorded_twice :
  let '(p, w1) := one_principal in
  match send_to p "0000000a" "note to self" None w1 with
  | (Sent m, w2) =>
      get w1 "0000000a" = Some p /\
      (_messages <$> heap w2 !! p) = Some [m; m]
  | (ValueError _, _) => False
  end.
Proof. vm_compute. split; reflexivity. Qed.

(** C9 (amended): a [send_to] to an id that is not registered raises and
    leaves every actor object, the registry and the pending deliveries as
    they were; a [send_to] to a registered recipient other than the sender
    returns the message, appends it once to the sender's history, once to the
    recipient's history and once to the recipient's inbox, and touches no
    other actor. *)
Theorem C9_send_to_atomic a A rid txt rt w :
  heap w !! a = Some A ->
  let r := send_to a rid txt rt w in
  (get w rid = None ->
     fst r = ValueError ("Actor " +:+ rid +:+ " not found") /\
     heap (snd r) = heap w /\ _actors (snd r) = _actors w /\
     scheduled (snd r) = scheduled w) /\
  (forall b B, get w rid = Some b -> heap w !! b = Some B -> b <> a ->
     exists m A' B',
       fst r = Sent m /\ sender m = actor_id A /\ recipient m = rid /\
       content m = txt /\
       heap (snd r) !! a = Some A' /\
       _messages A' = _messages A ++ [m] /\ _inbox A' = _inbox A /\
       heap (snd r) !! b = Some B' /\
       _messages B' = _messages B ++ [m] /\ _inbox B' = _inbox B ++ [m] /\
       (forall c, c <> a -> c <> b -> heap (snd r) !! c = heap w !! c)).
Proof.
  intros HA r. subst r. unfold send_to. rewrite HA.
  destruct (new_message (actor_id A) rid txt rt w) as [m w1] eqn:Hm.
  pose proof (new_message_spec (actor_id A) rid txt rt w) as Hs.
  rewrite Hm in Hs. cbn [fst snd] in Hs.
  destruct Hs as (Hsnd & Hrcp & Htxt & _ & Hh & Hr & _ & Hsch & _).
  unfold get. rewrite Hr. split.
  - intros Hnone. unfold get in Hnone. rewrite Hnone. cbn. auto.
  - intros b B Hb HB Hne. unfold get in Hb. rewrite Hb. cbn [fst snd].
    exists m. eexists. eexists.
    split; [reflexivity|]. split; [done|]. split; [done|]. split; [done|].
    split.
    { rewrite lookup_update, decide_True by done.
      unfold send. rewrite lookup_update, decide_False by done.
      rewrite Hh, HA. reflexivity. }
    split; [reflexivity|]. split; [reflexivity|].
    split.
    { rewrite lookup_update, decide_False by done.
      unfold send. rewrite lookup_update, decide_True by done.
      rewrite Hh, HB. reflexivity. }
    split; [reflexivity|]. split; [reflexivity|].
    intros c Hca Hcb.
    rewrite lookup_update, decide_False by done.
    unfold send. rewrite lookup_update, decide_False by done.
    by rewrite Hh.
Qed.

End C9.

Lemma C9_send_to_atomic_witness :
  is_Some (Actors.heap butler_and_worker !! 0) /\
  Actors.get butler_and_worker "ffffffff" = None /\
  fst (Actors.send_to 0 "ffffffff" "hi" None butler_and_worker)
  = Actors.ValueError "Actor ffffffff not found" /\
  Actors.heap (snd (Actors.send_to 0 "ffffffff" "hi" None butler_and_worker))
  = Actors.heap butler_and_worker.
Proof.
  split; [eexists; reflexivity|]. split; [reflexivity|].
  destruct (C9_send_to_atomic 0 _ "ffffffff" "hi" None butler_and_worker eq_refl)
    as [H _].
  destruct (H eq_refl) as (H1 & H2 & _). split; assumption.
Defined.

Section C10.
Import Actors Tools.

(** C10: [send_to] never looks at the recipient's state.  For a registered
    recipient in state Terminated it returns the message and appends it to the
    recipient's inbox and history (the recipient stays Terminated); the
    [send_message] tool, called for the same recipient, returns its error
    text and changes nothing. *)
Theorem C10_send_to_ignores_state a A b B rid txt rt rt' w :
  heap w !! a = Some A ->
  get w rid = Some b ->
  heap w !! b = Some B ->
  state B = TERMINATED ->
  (exists m B',
     fst (send_to a rid txt rt w) = Sent m /\
     content m = txt /\ recipient m = rid /\
     heap (snd (send_to a rid txt rt w)) !! b = Some B' /\
     _inbox B' = _inbox B ++ [m] /\
     (exists tl, _messages B' = _messages B ++ m :: tl) /\
     state B' = TERMINATED) /\
  send_message a rid txt rt' w
  = ("Error: actor " +:+ rid +:+ " (" +:+ name (config B) +:+ ") is terminated.", w).
Proof.
  intros HA Hb HB Hst. split.
  - unfold send_to. rewrite HA.
    destruct (new_message (actor_id A) rid txt rt w) as [m w1] eqn:Hm.
    pose proof (new_message_spec (actor_id A) rid txt rt w) as Hs.
    rewrite Hm in Hs. cbn [fst snd] in Hs.
    destruct Hs as (_ & Hrcp & Htxt & _ & Hh & Hr & _).
    unfold get in *. rewrite Hr, Hb. cbn [fst snd].
    exists m. destruct (decide (a = b)) as [->|Hne].
    + eexists. split; [reflexivity|]. split; [done|]. split; [done|].
      split.
      { rewrite lookup_update, decide_True by done.
        unfold send. rewrite lookup_update, decide_True by done.
        rewrite Hh, HB. reflexivity. }
      cbn. split; [reflexivity|]. split; [|done].
      exists [m]. by rewrite <- app_assoc.
    + eexists. split; [reflexivity|]. split; [done|]. split; [done|].
      split.
      { rewrite lookup_update, decide_False by done.
        unfold send. rewrite lookup_update, decide_True by done.
        rewrite Hh, HB. reflexivity. }
      cbn. split; [reflexivity|]. split; [|done].
      by exists [].
  - unfold send_message. rewrite Hb, HB, Hst. reflexivity.
Qed.

End C10.

Lemma C10_send_to_ignores_state_witness :
  Actors.state worker_done_worker = Actors.TERMINATED /\
  Actors.get worker_done "0000000b" = Some 1 /\
  (exists m, fst (Actors.send_to 0 "0000000b" "Are you there?" None worker_done)
             = Actors.Sent m) /\
  fst (Tools.send_message 0 "0000000b" "Are you there?" "" worker_done)
  = "Error: actor 0000000b (researcher) is terminated.".
Proof.
  split; [reflexivity|]. split; [vm_compute; reflexivity|].
  assert (H0 : Actors.heap worker_done !! 0 = Some worker_done_butler)
    by (vm_compute; reflexivity).
  assert (H1 : Actors.get worker_done "0000000b" = Some 1)
    by (vm_compute; reflexivity).
  assert (H2 : Actors.heap worker_done !! 1 = Some worker_done_worker)
    by (vm_compute; reflexivity).
  assert (H3 : Actors.state worker_done_worker = Actors.TERMINATED)
    by reflexivity.
  destruct (C10_send_to_ignores_state 0 worker_done_butler 1 worker_done_worker
              "0000000b" "Are you there?" None "" worker_done H0 H1 H2 H3)
    as [(m & B' & Hs & _) Ht].
  split; [by exists m|]. rewrite Ht. reflexivity.
Defined.

Section C3.
Import Actors Tools.

Lemma same_core_refl X : same_core X X.
Proof. by repeat split. Qed.

(** The termination notice changes inboxes and histories only. *)
Lemma on_actor_terminated_core in_loop i w x X :
  heap w !! x = Some X ->
  exists X', heap (_on_actor_terminated in_loop i w) !! x = Some X' /\ same_core X X'.
Proof.
  intros HX. unfold _on_actor_terminated.
  destruct (_actors w !! i) as [b|]; [|eauto using same_core_refl].
  destruct (heap w !! b) as [B|]; [|eauto using same_core_refl].
  destruct (if Py.truthy (spawned_by B) then _actors w !! spawned_by B else None)
    as [p|]; [|eauto using same_core_refl].
  destruct (heap w !! p) as [P|] eqn:HP; [|eauto using same_core_refl].
  destruct (ActorState_eqb (state P) RUNNING); [|eauto using same_core_refl].
  match goal with |- context [new_message ?s ?r ?t ?rt w] =>
    pose proof (new_message_spec s r t rt w) as Hs;
    destruct (new_message s r t rt w) as [m w1] end.
  cbn [fst snd] in Hs. destruct Hs as (_ & _ & _ & _ & Hh & _).
  destruct in_loop.
  - change (heap (with_scheduled (scheduled w1 ++ [(p, m)]) w1)) with (heap w1).
    rewrite Hh. eauto using same_core_refl.
  - rewrite lookup_update, Hh. destruct (decide (p = x)) as [->|].
    + rewrite HX. eexists. split; [reflexivity|]. by repeat split.
    + eauto using same_core_refl.
Qed.

Lemma on_actor_terminated_notifies in_loop i w b B p P :
  _actors w !! i = Some b ->
  heap w !! b = Some B ->
  Py.truthy (spawned_by B) = true ->
  _actors w !! spawned_by B = Some p ->
  heap w !! p = Some P ->
  state P = RUNNING ->
  _on_actor_terminated in_loop i w
  = let m := fst (new_message i (spawned_by B) (termination_notice B) None w) in
    let w1 := snd (new_message i (spawned_by B) (termination_notice B) None w) in
    if in_loop then with_scheduled (scheduled w1 ++ [(p, m)]) w1
    else update p (fun P' => set_inbox (_inbox P' ++ [m])
                               (set_messages (_messages P' ++ [m]) P')) w1.
Proof.
  intros Hi Hb Ht Hp HP Hs. unfold _on_actor_terminated.
  rewrite Hi, Hb, Ht, Hp, HP, Hs. reflexivity.
Qed.

Lemma stored_result_truthy A result : Py.truthy (stored_result A result) = true.
Proof. destruct result as [[|c s]|]; reflexivity. Qed.

(** C3 (as stated, refuted): the researcher, already Terminated with result
    "done", is terminated again with "again": the stored result changes and
    the Running parent receives a second "[TERMINATED] ..." message. *)
Lemma C3_second_terminate_not_noop :
  let w' := terminate false 1 (Some "again") worker_done in
  (state <$> heap worker_done !! 1) = Some TERMINATED /\
  (_result <$> heap worker_done !! 1) = Some (Some "done") /\
  (_result <$> heap w' !! 1) = Some (Some "again") /\
  (map content <$> (_inbox <$> heap worker_done !! 0))
  = Some ["[TERMINATED] researcher finished: done"] /\
  (map content <$> (_inbox <$> heap w' !! 0))
  = Some ["[TERMINATED] researcher finished: done";
          "[TERMINATED] researcher finished: again"].
Proof. vm_compute. repeat split. Qed.

(** C3 (amended): [terminate] on an actor that is already Terminated leaves
    it Terminated but overwrites the stored result with the new one (or with
    the default text when none is given); and when the actor is registered
    under its id and its parent is registered and Running, one more
    "[TERMINATED] <name> finished: <result>" message goes to the parent:
    handed to the event loop as a delivery task when one is running, appended
    to the parent's history and inbox otherwise. *)
Theorem C3_terminate_again in_loop a A result w :
  heap w !! a = Some A ->
  state A = TERMINATED ->
  let w' := terminate in_loop a result w in
  (exists A', heap w' !! a = Some A' /\ state A' = TERMINATED /\
              _result A' = Some (stored_result A result)) /\
  (forall p P,
     get w (actor_id A) = Some a ->
     Py.truthy (spawned_by A) = true ->
     get w (spawned_by A) = Some p ->
     heap w !! p = Some P ->
     state P = RUNNING ->
     exists m,
       sender m = actor_id A /\ recipient m = spawned_by A /\
       content m = "[TERMINATED] " +:+ name (config A) +:+ " finished: "
                   +:+ stored_result A result /\
       if in_loop
       then scheduled w' = scheduled w ++ [(p, m)] /\ heap w' !! p = Some P
       else exists P', heap w' !! p = Some P' /\
                       _messages P' = _messages P ++ [m] /\
                       _inbox P' = _inbox P ++ [m]).
Proof.
  intros HA Hst w'. subst w'. unfold terminate. rewrite HA.
  fold (stored_result A result).
  set (A1 := set_state TERMINATED (set_result (Some (stored_result A result)) A)).
  set (w1 := update a _ w).
  assert (H1 : heap w1 !! a = Some A1).
  { subst w1. rewrite lookup_update, decide_True by done. by rewrite HA. }
  split.
  - destruct (on_actor_terminated_core in_loop (actor_id A) w1 a A1 H1)
      as (A' & HA' & Hc).
    exists A'. split; [done|].
    destruct Hc as (_ & _ & _ & _ & Hs & Hr & _).
    rewrite Hs, Hr. by split.
  - intros p P Hreg Htr Hp HP HPst.
    assert (Hpa : p <> a).
    { intros ->. rewrite HA in HP. injection HP as <-. congruence. }
    assert (HP1 : heap w1 !! p = Some P).
    { subst w1. by rewrite lookup_update, decide_False by done. }
    assert (Hres : termination_notice A1
                   = "[TERMINATED] " +:+ name (config A) +:+ " finished: "
                     +:+ stored_result A result).
    { unfold termination_notice. cbn [A1 _result set_state set_result config name].
      unfold Py.str_or. by rewrite stored_result_truthy. }
    rewrite (on_actor_terminated_notifies in_loop (actor_id A) w1 a A1 p P);
      [|exact Hreg|exact H1|exact Htr|exact Hp|exact HP1|exact HPst].
    change (spawned_by A1) with (spawned_by A). rewrite Hres.
    pose proof (new_message_spec (actor_id A) (spawned_by A)
                ("[TERMINATED] " +:+ name (config A) +:+ " finished: "
                 +:+ stored_result A result) None w1) as Hs.
    cbv zeta in Hs |- *.
    destruct (new_message (actor_id A) (spawned_by A)
                ("[TERMINATED] " +:+ name (config A) +:+ " finished: "
                 +:+ stored_result A result) None w1) as [m w2].
    cbn [fst snd] in Hs |- *.
    destruct Hs as (Hsnd & Hrcp & Htxt & _ & Hh & _ & _ & Hsch & _).
    exists m. split; [done|]. split; [done|]. split; [done|].
    destruct in_loop.
    + change (scheduled (with_scheduled (scheduled w2 ++ [(p, m)]) w2))
        with (scheduled w2 ++ [(p, m)]).
      change (heap (with_scheduled (scheduled w2 ++ [(p, m)]) w2)) with (heap w2).
      rewrite Hsch, Hh. split; [reflexivity|]. exact HP1.
    + eexists. split.
      { rewrite lookup_update, decide_True by done. rewrite Hh, HP1. reflexivity. }
      by split.
Qed.

End C3.

Lemma C3_terminate_again_witness :
  Actors.heap worker_done !! 1 = Some worker_done_worker /\
  Actors.state worker_done_worker = Actors.TERMINATED /\
  exists A', Actors.heap (Actors.terminate false 1 (Some "again") worker_done) !! 1
             = Some A' /\
             Actors._result A' = Some "again".
Proof.
  assert (H2 : Actors.heap worker_done !! 1 = Some worker_done_worker)
    by (vm_compute; reflexivity).
  assert (H3 : Actors.state worker_done_worker = Actors.TERMINATED)
    by reflexivity.
  split; [exact H2|]. split; [exact H3|].
  destruct (C3_terminate_again false 1 worker_done_worker (Some "again")
              worker_done H2 H3) as [(A' & HA' & _ & Hr) _].
  exists A'. split; [exact HA'|]. exact Hr.
Defined.

(** ** Amygdala: heuristic seed tags *)

Section C6.
Import Amygdala.

(** Whatever the cues, the record holds a valence within [-1, 1] and an
    arousal within [0, 1] (both in hundredths). *)
Lemma seed_of_cues_clamped line u n p m r :
  (-100 <= valence (seed_of_cues line u n p m r) <= 100)%Z /\
  (0 <= arousal (seed_of_cues line u n p m r) <= 100)%Z.
Proof.
  destruct u, n, p, m, r; vm_compute; (split; split; discriminate).
Qed.

(** The step for mixed signals, against the record built without it. *)
Lemma seed_of_cues_mixed line u n r :
  let s := seed_of_cues line u n true true r in
  let base := seed_of_cues line u n true false r in
  valence s = (valence base - 60)%Z /\
  valence s = (if n then -60 else -10)%Z /\
  arousal s = Z.min 100 (arousal base + 10) /\
  In "mixed_or_ironic" (tags s).
Proof.
  destruct u, n, r; vm_compute; (repeat split; auto 10).
Qed.

(** C6 (as stated, refuted): "great but slow" has a positive cue and a
    contrast cue, the record carries the tag [mixed_or_ironic], and its
    valence is -0.1, not -0.6. *)
Lemma C6_contrast_without_negative_cue :
  has_positive_cue (Py.lower "great but slow") = true /\
  has_contrast_cue (Py.lower "great but slow") = true /\
  In "mixed_or_ironic" (tags (seed_of_line "great but slow")) /\
  valence (seed_of_line "great but slow") = (-10)%Z /\
  valence (seed_of_line "great but slow") <> (-60)%Z.
Proof. vm_compute. repeat split; auto; discriminate. Qed.

(** C6 (amended): for a signal line with a positive-affect cue together
    with a negative, contrast or sarcasm cue, the step for mixed signals
    lowers the valence by 0.6 below what the other cues yield (so the record
    has valence -0.6 when a negative-affect cue is present and -0.1 when none
    is), raises the arousal by 0.1 over what the other cues yield, up to the
    clamp at 1, and adds the tag [mixed_or_ironic]; the valence of the record
    lies in [-1, 1] and its arousal in [0, 1].  Values are in hundredths. *)
Theorem C6_mixed_or_ironic line :
  let lower := Py.lower line in
  has_positive_cue lower = true ->
  has_negative_cue lower || has_contrast_cue lower || has_sarcasm_cue lower = true ->
  let s := seed_of_line line in
  let base := seed_of_cues line (Py.any_in urgency_cues lower)
                (has_negative_cue lower) true false (Py.any_in risk_cues lower) in
  valence s = (valence base - 60)%Z /\
  valence s = (if has_negative_cue lower then -60 else -10)%Z /\
  arousal s = Z.min 100 (arousal base + 10) /\
  In "mixed_or_ironic" (tags s) /\
  (-100 <= valence s <= 100)%Z /\ (0 <= arousal s <= 100)%Z.
Proof.
  intros lower Hpos Hmix s base. subst s base. unfold seed_of_line.
  fold lower. rewrite Hpos, Hmix. cbn [andb].
  destruct (seed_of_cues_mixed line (Py.any_in urgency_cues lower)
              (has_negative_cue lower) (Py.any_in risk_cues lower))
    as (H1 & H2 & H3 & H4).
  destruct (seed_of_cues_clamped line (Py.any_in urgency_cues lower)
              (has_negative_cue lower) true true (Py.any_in risk_cues lower))
    as (H5 & H6).
  auto 10.
Qed.

End C6.

Lemma C6_mixed_or_ironic_witness :
  Amygdala.has_positive_cue (Py.lower "Great job, it failed again") = true /\
  Amygdala.has_negative_cue (Py.lower "Great job, it failed again") = true /\
  Amygdala.valence (Amygdala.seed_of_line "Great job, it failed again") = (-60)%Z /\
  Amygdala.arousal (Amygdala.seed_of_line "Great job, it failed again") = 95%Z.
Proof.
  assert (Hp : Amygdala.has_positive_cue (Py.lower "Great job, it failed again") = true)
    by (vm_compute; reflexivity).
  assert (Hm : Amygdala.has_negative_cue (Py.lower "Great job, it failed again")
               || Amygdala.has_contrast_cue (Py.lower "Great job, it failed again")
               || Amygdala.has_sarcasm_cue (Py.lower "Great job, it failed again")
               = true) by (vm_compute; reflexivity).
  destruct (C6_mixed_or_ironic "Great job, it failed again" Hp Hm)
    as (_ & Hv & Ha & _).
  split; [exact Hp|]. split; [vm_compute; reflexivity|].
  split; [rewrite Hv; vm_compute; reflexivity|].
  rewrite Ha. vm_compute. reflexivity.
Defined.

(** ** Text: line splitting, joining and stripping *)

Section TextFacts.

Lemma str_app_cons c s t : String c s +:+ t = String c (s +:+ t).
Proof. reflexivity. Qed.

Lemma str_app_nil_r s : s +:+ "" = s.
Proof.
  induction s as [|c s IH]; [reflexivity|]. by rewrite str_app_cons, IH.
Qed.

Lemma str_app_assoc s t u : (s +:+ t) +:+ u = s +:+ t +:+ u.
Proof.
  induction s as [|c s IH]; [reflexivity|]. by rewrite !str_app_cons, IH.
Qed.

Lemma truthy_app_r s t : Py.truthy t = true -> Py.truthy (s +:+ t) = true.
Proof. destruct s; [done|reflexivity]. Qed.

Lemma not_truthy s : Py.truthy s = false -> s = "".
Proof. by destruct s. Qed.

Lemma no_linebreak_app s t :
  no_linebreak (s +:+ t) = no_linebreak s && no_linebreak t.
Proof.
  induction s as [|c s IH]; [reflexivity|].
  rewrite str_app_cons. cbn [no_linebreak]. rewrite IH. by rewrite andb_assoc.
Qed.

(** Every line [splitlines] returns is free of line boundaries. *)
Lemma splitlines_no_linebreak_le n s :
  String.length s <= n -> Forall (fun l => no_linebreak l = true) (Py.splitlines s).
Proof.
  revert s. induction n as [|n IH]; intros s Hn.
  { destruct s; [constructor|cbn in Hn; lia]. }
  destruct s as [|c s]; [constructor|]. cbn in Hn.
  cbn [Py.splitlines]. destruct (Py.islinebreak c) eqn:Hc.
  - destruct s as [|c' s']; [by repeat constructor|].
    destruct (Ascii.eqb c "013" && Ascii.eqb c' "010").
    + constructor; [done|]. apply IH. cbn in Hn. lia.
    + constructor; [done|]. apply IH. lia.
  - assert (Hs : Forall (fun l => no_linebreak l = true) (Py.splitlines s))
      by (apply IH; lia).
    destruct (Py.splitlines s) as [|l ls].
    + repeat constructor. cbn. by rewrite Hc.
    + inversion Hs; subst. constructor; [|done]. cbn. by rewrite Hc.
Qed.

Lemma splitlines_no_linebreak s :
  Forall (fun l => no_linebreak l = true) (Py.splitlines s).
Proof. by apply (splitlines_no_linebreak_le (String.length s)). Qed.

(** A line followed by LF is split off. *)
Lemma splitlines_line l rest :
  no_linebreak l = true ->
  Py.splitlines (l +:+ NL +:+ rest) = l :: Py.splitlines rest.
Proof.
  induction l as [|c l IH]; intros Hl.
  - change ("" +:+ NL +:+ rest) with (String "010" rest).
    cbn [Py.splitlines]. by destruct rest.
  - cbn in Hl. apply andb_prop in Hl as [Hc Hl].
    rewrite str_app_cons. cbn [Py.splitlines].
    apply negb_true_iff in Hc. rewrite Hc, (IH Hl). reflexivity.
Qed.

Lemma splitlines_last_line l :
  no_linebreak l = true -> Py.splitlines (l +:+ NL) = [l].
Proof.
  intros Hl. rewrite <- (str_app_nil_r (l +:+ NL)), str_app_assoc.
  by rewrite splitlines_line.
Qed.

(** Joining lines with LF, ending with LF and splitting again. *)
Lemma splitlines_join L :
  Forall (fun l => no_linebreak l = true) L -> L <> [] ->
  Py.splitlines (Py.join NL L +:+ NL) = L.
Proof.
  induction L as [|l ls IH]; intros HL Hne; [done|].
  inversion HL as [|? ? Hl Hls]; subst.
  destruct ls as [|l2 rest].
  - cbn [Py.join String.concat]. by apply splitlines_last_line.
  - change (Py.join NL (l :: l2 :: rest))
      with (l +:+ NL +:+ Py.join NL (l2 :: rest)).
    rewrite !str_app_assoc, splitlines_line by done.
    f_equal. by apply IH.
Qed.

(** [rstrip] of a concatenation. *)
Lemma rstrip_app a b :
  Py.rstrip (a +:+ b)
  = if Py.truthy (Py.rstrip b) then a +:+ Py.rstrip b else Py.rstrip a.
Proof.
  induction a as [|c a IH].
  - change ("" +:+ b) with b. destruct (Py.rstrip b); reflexivity.
  - rewrite str_app_cons. cbn [Py.rstrip]. rewrite IH.
    destruct (Py.rstrip b) as [|x y] eqn:Hb; cbn [Py.truthy]; [reflexivity|].
    rewrite str_app_cons. by destruct a.
Qed.

Lemma rstrip_prefix p l :
  String.prefix p (Py.rstrip l) = true -> String.prefix p l = true.
Proof.
  revert p. induction l as [|c l IH]; intros p; [done|].
  cbn [Py.rstrip]. destruct p as [|a p]; [done|].
  destruct (Py.rstrip l) as [|x y] eqn:Hr.
  - destruct (Py.isspace c); cbn [String.prefix]; [discriminate|].
    destruct (ascii_dec a c); [|done]. destruct p; [|discriminate].
    intros _. by destruct l.
  - cbn [String.prefix]. destruct (ascii_dec a c); [|done]. apply IH.
Qed.

Lemma rstrip_no_linebreak l :
  no_linebreak l = true -> no_linebreak (Py.rstrip l) = true.
Proof.
  induction l as [|c l IH]; [done|]. cbn. intros [Hc Hl]%andb_prop.
  specialize (IH Hl). destruct (Py.rstrip l) as [|x y].
  - destruct (Py.isspace c); [done|]. cbn. by rewrite Hc.
  - change (no_linebreak (String c (String x y)))
      with (negb (Py.islinebreak c) && no_linebreak (String x y)).
    by rewrite Hc, IH.
Qed.

Lemma rstrip_lines_cons l ls :
  rstrip_lines (l :: ls)
  = match rstrip_lines ls with
    | [] => if Py.truthy (Py.rstrip l) then [Py.rstrip l] else []
    | ls' => l :: ls'
    end.
Proof. reflexivity. Qed.

Lemma rstrip_join L :
  Py.rstrip (Py.join NL L) = Py.join NL (rstrip_lines L) /\
  (rstrip_lines L <> [] -> Py.truthy (Py.join NL (rstrip_lines L)) = true).
Proof.
  induction L as [|l ls [IH1 IH2]]; [by split|].
  rewrite rstrip_lines_cons.
  destruct ls as [|l2 rest].
  - cbn [rstrip_lines Py.join String.concat].
    destruct (Py.truthy (Py.rstrip l)) eqn:Ht; cbn [String.concat].
    + by split.
    + split; [by apply not_truthy|done].
  - change (Py.join NL (l :: l2 :: rest))
      with (l +:+ NL +:+ Py.join NL (l2 :: rest)).
    rewrite rstrip_app.
    change (NL +:+ Py.join NL (l2 :: rest))
      with (String "010" (Py.join NL (l2 :: rest))).
    cbn [Py.rstrip]. rewrite IH1.
    destruct (rstrip_lines (l2 :: rest)) as [|x xs].
    + cbn [Py.join String.concat Py.truthy].
      change (Py.isspace "010") with true. cbn [Py.truthy].
      destruct (Py.truthy (Py.rstrip l)) eqn:Ht; cbn [String.concat].
      * by split.
      * split; [by apply not_truthy|done].
    + specialize (IH2 ltac:(done)).
      change (Py.join NL (l :: x :: xs))
        with (l +:+ NL +:+ Py.join NL (x :: xs)).
      destruct (Py.join NL (x :: xs)) as [|y ys]; [done|].
      cbn [Py.truthy]. split; [reflexivity|].
      intros _. by apply truthy_app_r.
Qed.

Lemma rstrip_lines_no_linebreak L :
  Forall (fun l => no_linebreak l = true) L ->
  Forall (fun l => no_linebreak l = true) (rstrip_lines L).
Proof.
  induction 1 as [|l ls Hl Hls IH]; [constructor|].
  cbn [rstrip_lines]. destruct (rstrip_lines ls) as [|x xs].
  - destruct (Py.truthy (Py.rstrip l)); [|constructor].
    repeat constructor. by apply rstrip_no_linebreak.
  - by constructor.
Qed.

(** Stripping cannot create lines that start with a given prefix. *)
Lemma rstrip_lines_count p L :
  length (List.filter (String.prefix p) (rstrip_lines L))
  <= length (List.filter (String.prefix p) L).
Proof.
  induction L as [|l ls IH]; [done|].
  cbn [rstrip_lines]. destruct (rstrip_lines ls) as [|x xs].
  - destruct (Py.truthy (Py.rstrip l)); [|cbn; lia].
    cbn [List.filter].
    destruct (String.prefix p (Py.rstrip l)) eqn:Hp.
    + rewrite (rstrip_prefix _ _ Hp). cbn. lia.
    + cbn. destruct (String.prefix p l); cbn; lia.
  - cbn [List.filter] in *.
    destruct (String.prefix p l); cbn [length]; lia.
Qed.

End TextFacts.

(** ** Amygdala: tag log compaction *)

Section C5.
Import Actors Amygdala.

Lemma string_of_uint_no_linebreak d :
  no_linebreak (NilEmpty.string_of_uint d) = true.
Proof. induction d; cbn; by rewrite ?IHd. Qed.

Lemma nilzero_no_linebreak d : no_linebreak (NilZero.string_of_uint d) = true.
Proof. destruct d; try reflexivity; apply (string_of_uint_no_linebreak (_ d)). Qed.

Lemma str_of_nat_no_linebreak n : no_linebreak (Py.str_of_nat n) = true.
Proof. apply nilzero_no_linebreak. Qed.

Lemma str_of_Z_no_linebreak z : no_linebreak (Py.str_of_Z z) = true.
Proof.
  destruct z; cbn [Py.str_of_Z];
    first [apply nilzero_no_linebreak
          |cbn [no_linebreak]; by rewrite nilzero_no_linebreak].
Qed.

Lemma zero_padded_no_linebreak k z : no_linebreak (zero_padded k z) = true.
Proof.
  unfold zero_padded. rewrite no_linebreak_app, str_of_Z_no_linebreak, andb_true_r.
  generalize (k - String.length (Py.str_of_Z z)). intros n.
  induction n as [|n IH]; [reflexivity|]. exact IH.
Qed.

Lemma strftime_minute_no_linebreak t : no_linebreak (strftime_minute t) = true.
Proof.
  unfold strftime_minute.
  rewrite !no_linebreak_app, !zero_padded_no_linebreak. reflexivity.
Qed.

Lemma lstrip_nonspace c s : Py.isspace c = false -> Py.lstrip (String c s) = String c s.
Proof. intros H. cbn. by rewrite H. Qed.

Lemma prefix_app p s : String.prefix p (p +:+ s) = true.
Proof.
  induction p as [|c p IH]; [by destruct s|].
  rewrite str_app_cons. cbn. by destruct (ascii_dec c c).
Qed.

Lemma kept_lines_no_linebreak c :
  Forall (fun l => no_linebreak l = true) (kept_lines c).
Proof.
  unfold kept_lines. destruct (_ <? _)%nat.
  - apply Forall_drop, splitlines_no_linebreak.
  - apply splitlines_no_linebreak.
Qed.

Lemma header_no_linebreak now n :
  no_linebreak now = true ->
  Forall (fun l => no_linebreak l = true) (compaction_header now n).
Proof.
  intros Hnow. unfold compaction_header. repeat constructor.
  - by rewrite !no_linebreak_app, Hnow.
  - by rewrite no_linebreak_app, str_of_nat_no_linebreak.
Qed.

(** The header survives the stripping: its three lines of text are never
    white space. *)
Lemma rstrip_lines_header now n K :
  rstrip_lines (compaction_header now n ++ K)
  = ["# Emotional tags (compacted at " +:+ now +:+ ")";
     "- pruned_lines: " +:+ Py.str_of_nat n;
     "- note: keeping only recent rolling window"] ++ rstrip_lines ("" :: K).
Proof.
  unfold compaction_header. cbn [app].
  rewrite (rstrip_lines_cons _ (_ :: _ :: _ :: K)).
  rewrite (rstrip_lines_cons _ (_ :: _ :: K)).
  rewrite (rstrip_lines_cons _ (_ :: K)).
  destruct (rstrip_lines ("" :: K)); reflexivity.
Qed.

(** The lines of the text a compaction writes. *)
Lemma compacted_text_lines now c :
  no_linebreak now = true ->
  Py.splitlines (compacted_text now c)
  = rstrip_lines (compaction_header now (pruned_lines c) ++ kept_lines c).
Proof.
  intros Hnow. unfold compacted_text, Py.strip.
  assert (Hl : Py.lstrip (Py.join Amygdala.LF
                 (compaction_header now (pruned_lines c) ++ kept_lines c))
               = Py.join NL (compaction_header now (pruned_lines c) ++ kept_lines c)).
  { unfold compaction_header. cbn [app Py.join String.concat].
    apply lstrip_nonspace. reflexivity. }
  rewrite Hl. destruct (rstrip_join
    (compaction_header now (pruned_lines c) ++ kept_lines c)) as [-> _].
  apply splitlines_join.
  - apply rstrip_lines_no_linebreak, Forall_app. split.
    + by apply header_no_linebreak.
    + apply kept_lines_no_linebreak.
  - by rewrite rstrip_lines_header.
Qed.

Lemma filter_none {A} (f : A -> bool) l :
  Forall (fun x => f x = false) l -> List.filter f l = [].
Proof.
  induction 1 as [|x l Hx Hl IH]; [reflexivity|]. cbn. by rewrite Hx.
Qed.

(** C5 (defect, the shortest case): a log of one line of 24001 characters
    is over the threshold; the first compaction keeps the line under a
    header and drops nothing, the log is still over the threshold, and the
    second compaction puts a second header above the first. *)
Lemma C5_header_stacks :
  let r1 := _compact_tag_log initial_status long_log_world in
  let r2 := _compact_tag_log (fst r1) (snd r1) in
  (header_count <$> files (snd r1) !! AMYGDALA_TAGS_FILE) = Some 1 /\
  (header_count <$> files (snd r2) !! AMYGDALA_TAGS_FILE) = Some 2 /\
  tags_pruned_total (fst r2) = 0%Z.
Proof. vm_compute. repeat split. Qed.

(** C5 (defect): a log of 130 entries of 200 characters (26130 characters)
    is over the threshold but has no more than 140 lines, so compaction
    drops nothing and only puts a header on top: after one, two and three
    compactions the log has one, two and three compaction headers and
    26245, 26360 and 26475 characters, and no line has been pruned.  The log
    is not bounded and the header does not stay single. *)
Lemma C5_headers_pile_up :
  let r1 := _compact_tag_log initial_status steady_log_world in
  let r2 := _compact_tag_log (fst r1) (snd r1) in
  let r3 := _compact_tag_log (fst r2) (snd r2) in
  let stats (r : Status * World) :=
    (fun text => (header_count text, Z.of_nat (String.length text)))
      <$> files (snd r) !! AMYGDALA_TAGS_FILE in
  Z.of_nat (String.length (entries_log 130)) = 26130%Z /\
  stats r1 = Some (1, 26245%Z) /\
  stats r2 = Some (2, 26360%Z) /\
  stats r3 = Some (3, 26475%Z) /\
  tags_pruned_total (fst r3) = 0%Z.
Proof. vm_compute. repeat split. Qed.

End C5.

(** ** What the tool calls of a turn cannot change *)

Section Preservation.
Import Actors Tools.

Lemma keeps_refl X : keeps X X.
Proof. by repeat split. Qed.

Lemma keeps_trans X Y Z : keeps X Y -> keeps Y Z -> keeps X Z.
Proof.
  unfold keeps. intros (?&?&?&?&?) (?&?&?&?&?). repeat split; congruence.
Qed.

Lemma world_keeps_refl w : world_keeps w w.
Proof. intros x X HX. eauto using keeps_refl. Qed.

Lemma world_keeps_trans w1 w2 w3 :
  world_keeps w1 w2 -> world_keeps w2 w3 -> world_keeps w1 w3.
Proof.
  intros H12 H23 x X HX.
  destruct (H12 x X HX) as (Y & HY & HXY).
  destruct (H23 x Y HY) as (Z & HZ & HYZ).
  eauto using keeps_trans.
Qed.

Lemma world_keeps_heap_eq w w' : heap w' = heap w -> world_keeps w w'.
Proof. intros Hh x X HX. rewrite Hh. eauto using keeps_refl. Qed.

Lemma world_keeps_update a f w :
  (forall X, keeps X (f X)) -> world_keeps w (update a f w).
Proof.
  intros Hf x X HX. rewrite lookup_update.
  destruct (decide (a = x)) as [->|]; [|eauto using keeps_refl].
  rewrite HX. cbn. eauto.
Qed.

Lemma world_keeps_send a m w : world_keeps w (send a m w).
Proof. apply world_keeps_update. intros X. by repeat split. Qed.

Lemma world_keeps_new_message s r t rt w :
  world_keeps w (snd (new_message s r t rt w)).
Proof. by apply world_keeps_heap_eq. Qed.

Lemma world_keeps_send_to a rid txt rt w :
  world_keeps w (snd (send_to a rid txt rt w)).
Proof.
  unfold send_to. destruct (heap w !! a) as [A|]; [|apply world_keeps_refl].
  pose proof (world_keeps_new_message (actor_id A) rid txt rt w) as Hm.
  destruct (new_message (actor_id A) rid txt rt w) as [m w1]. cbn [snd] in Hm.
  destruct (get w1 rid) as [r|]; [|exact Hm]. cbn [snd].
  eapply world_keeps_trans; [exact Hm|].
  eapply world_keeps_trans; [apply world_keeps_send|].
  apply world_keeps_update. intros X. by repeat split.
Qed.

Lemma same_core_keeps X X' : same_core X X' -> keeps X X'.
Proof. intros (?&?&?&?&?&?&?). by repeat split. Qed.

Lemma world_keeps_on_actor_terminated in_loop i w :
  world_keeps w (_on_actor_terminated in_loop i w).
Proof.
  intros x X HX.
  destruct (on_actor_terminated_core in_loop i w x X HX) as (X' & HX' & Hc).
  eauto using same_core_keeps.
Qed.

Lemma world_keeps_terminate in_loop a result w :
  world_keeps w (terminate in_loop a result w).
Proof.
  unfold terminate. destruct (heap w !! a) as [A|]; [|apply world_keeps_refl].
  eapply world_keeps_trans; [|apply world_keeps_on_actor_terminated].
  apply world_keeps_update. intros X. by repeat split.
Qed.

(** [terminate] on an allocated object: Terminated, with the result stored. *)
Lemma terminate_sets in_loop a A result w :
  heap w !! a = Some A ->
  exists A', heap (terminate in_loop a result w) !! a = Some A' /\
             state A' = TERMINATED /\
             _result A' = Some (stored_result A result) /\
             keeps A A'.
Proof.
  intros HA. unfold terminate. rewrite HA. fold (stored_result A result).
  set (A1 := set_state TERMINATED (set_result (Some (stored_result A result)) A)).
  assert (H1 : heap (update a (fun X => set_state TERMINATED
                        (set_result (Some (stored_result A result)) X)) w) !! a
               = Some A1).
  { rewrite lookup_update, decide_True by done. by rewrite HA. }
  destruct (on_actor_terminated_core in_loop (actor_id A) _ a A1 H1)
    as (A' & HA' & Hc).
  exists A'. split; [exact HA'|].
  destruct Hc as (Hi & Hcfg & Hsp & Hpr & Hs & Hr & Ht).
  rewrite Hs, Hr. repeat split; try done; congruence.
Qed.

Lemma world_keeps_fold_send ts w0 w :
  world_keeps w0 w ->
  world_keeps w0 (fold_left (fun w' t => send (fst t) (snd t) w') ts w).
Proof.
  revert w. induction ts as [|t ts IH]; intros w Hw; [exact Hw|].
  cbn [fold_left]. apply IH.
  eapply world_keeps_trans; [exact Hw|apply world_keeps_send].
Qed.

Lemma world_keeps_run_scheduled w : world_keeps w (run_scheduled w).
Proof.
  unfold run_scheduled. apply world_keeps_fold_send.
  by apply world_keeps_heap_eq.
Qed.

Lemma world_keeps_wait_for_reply a w : world_keeps w (snd (wait_for_reply a w)).
Proof.
  unfold wait_for_reply. destruct (heap w !! a) as [A|]; [|apply world_keeps_refl].
  destruct (_inbox A) as [|m q].
  - destruct (heap (run_scheduled w) !! a) as [A1|];
      [|apply world_keeps_run_scheduled].
    destruct (_inbox A1) as [|m q]; [apply world_keeps_run_scheduled|].
    cbn [snd]. eapply world_keeps_trans; [apply world_keeps_run_scheduled|].
    apply world_keeps_update. intros X. by repeat split.
  - cbn [snd]. apply world_keeps_update. intros X. by repeat split.
Qed.

Lemma world_keeps_spawn cfg parent principal w :
  world_keeps w (snd (spawn cfg parent principal w)).
Proof.
  intros x X HX. unfold spawn. cbn [uuid4_8 datetime_now snd].
  rewrite lookup_update.
  pose proof (lookup_lt_Some _ _ _ HX) as Hlt.
  destruct principal; cbn [heap with_heap with_actors with_principal_id].
  - rewrite decide_False by lia. rewrite lookup_app_l by done.
    eauto using keeps_refl.
  - rewrite decide_False by lia. rewrite lookup_app_l by done.
    eauto using keeps_refl.
Qed.

Lemma world_keeps_send_message a t txt rt w :
  world_keeps w (snd (send_message a t txt rt w)).
Proof.
  unfold send_message. destruct (get w t) as [b|]; [|apply world_keeps_refl].
  destruct (heap w !! b) as [B|]; [|apply world_keeps_refl].
  destruct (ActorState_eqb (state B) TERMINATED); [apply world_keeps_refl|].
  pose proof (world_keeps_send_to a t txt (if Py.truthy rt then Some rt else None) w)
    as Hs.
  by destruct (send_to a t txt (if Py.truthy rt then Some rt else None) w) as [[m|e] w1].
Qed.

Lemma world_keeps_exec_call a c w : world_keeps w (exec_call a c w).
Proof.
  destruct c; cbn [exec_call].
  - apply world_keeps_send_message.
  - unfold wait_for_response.
    pose proof (world_keeps_wait_for_reply a w) as Hw.
    by destruct (wait_for_reply a w) as [[m|] w1].
  - apply world_keeps_refl.
  - apply world_keeps_terminate.
  - destruct (heap w !! a) as [A|] eqn:HA; [|apply world_keeps_refl].
    destruct (can_spawn A); [|apply world_keeps_refl].
    unfold spawn_subagent. rewrite HA.
    match goal with |- context [spawn ?c ?p ?b w] =>
      pose proof (world_keeps_spawn c p b w) as Hs;
      destruct (spawn c p b w) as [x w1] end.
    exact Hs.
  - by apply world_keeps_heap_eq.
  - apply world_keeps_run_scheduled.
Qed.

Lemma world_keeps_exec_calls a cs w : world_keeps w (exec_calls a cs w).
Proof.
  unfold exec_calls. revert w. induction cs as [|c cs IH]; intros w.
  - apply world_keeps_refl.
  - cbn [fold_left]. eapply world_keeps_trans; [apply world_keeps_exec_call|].
    apply IH.
Qed.

End Preservation.

(** ** The runner: bounded turns, forced termination *)

Section C8.
Import Actors Tools Runner.

Variable llm : LLM.
Variable a : nat.
Variable A0 : Actor.

Lemma runner_inv_keeps w w' :
  world_keeps w w' -> runner_inv a A0 w -> runner_inv a A0 w'.
Proof.
  intros Hk (X & HX & Hc & Ht).
  destruct (Hk a X HX) as (X' & HX' & (_ & Hc' & _ & _ & Ht')).
  exists X'. split; [done|]. split; [congruence|lia].
Qed.

Lemma is_terminated_ref_terminate in_loop result w :
  is_Some (heap w !! a) ->
  is_terminated_ref (terminate in_loop a result w) a = true.
Proof.
  intros [X HX].
  destruct (terminate_sets in_loop a X result w HX) as (X' & HX' & Hs & _).
  unfold is_terminated_ref. by rewrite HX', Hs.
Qed.

Lemma runner_inv_drain w : runner_inv a A0 w -> runner_inv a A0 (snd (drain_inbox a w)).
Proof.
  intros (X & HX & Hc & Ht). unfold drain_inbox. rewrite HX. cbn [snd].
  exists (set_inbox [] X).
  split; [by rewrite lookup_update, decide_True, HX by done|]. by split.
Qed.

(** The loop keeps the invariant. *)
Lemma turns_loop_inv n turn response w :
  (0 <= turn)%Z -> (turn + Z.of_nat n <= max_turns (config A0))%Z ->
  (exists X, heap w !! a = Some X /\ config X = config A0 /\
             (n = 0%nat -> (_turns X <= max_turns (config A0))%Z)) ->
  runner_inv a A0 (snd (turns_loop llm a A0 n turn response w)).
Proof.
  revert turn response w. induction n as [|n IH]; intros turn response w H0 Hn Hw.
  { destruct Hw as (X & HX & Hc & Ht). exists X. auto. }
  assert (Hweak : forall k w',
            runner_inv a A0 w' ->
            exists X, heap w' !! a = Some X /\ config X = config A0 /\
                      (k = 0%nat -> (_turns X <= max_turns (config A0))%Z)).
  { intros k w' (X & HX & Hc & Ht). exists X. auto. }
  cbn [turns_loop].
  assert (H1 : runner_inv a A0 (update a (set_turns (turn + 1)) w)).
  { destruct Hw as (X & HX & Hc & _). exists (set_turns (turn + 1) X).
    split; [by rewrite lookup_update, decide_True, HX by done|].
    split; [done|]. cbn. lia. }
  destruct (is_terminated_ref (update a (set_turns (turn + 1)) w) a); [exact H1|].
  pose proof (runner_inv_drain _ H1) as H2.
  destruct (drain_inbox a (update a (set_turns (turn + 1)) w)) as [incoming w2].
  cbn [snd] in H2.
  set (r := llm (Z.to_nat turn) _).
  assert (H3 : runner_inv a A0 (exec_calls a (calls r) w2))
    by (eapply runner_inv_keeps; [apply world_keeps_exec_calls|exact H2]).
  destruct (outcome r) as [resp|e].
  - destruct (is_terminated_ref (exec_calls a (calls r) w2) a); [exact H3|].
    destruct (is_ack resp).
    + apply IH; [lia|lia|by apply Hweak].
    + apply IH; [lia|lia|]. apply Hweak.
      eapply runner_inv_keeps; [apply world_keeps_wait_for_reply|exact H3].
  - cbn [snd]. eapply runner_inv_keeps; [apply world_keeps_terminate|exact H3].
Qed.

Lemma world_keeps_drain w : world_keeps w (snd (drain_inbox a w)).
Proof.
  unfold drain_inbox. destruct (heap w !! a); [|apply world_keeps_refl].
  apply world_keeps_update. intros X. by repeat split.
Qed.

Lemma turns_at_keeps w w' t : world_keeps w w' -> turns_at a w t -> turns_at a w' t.
Proof.
  intros Hk (X & HX & Ht). destruct (Hk a X HX) as (X' & HX' & (_&_&_&_&Ht')).
  exists X'. split; [done|congruence].
Qed.

Lemma turns_at_allocated w t : turns_at a w t -> is_Some (heap w !! a).
Proof. intros (X & HX & _). eauto. Qed.

(** When the loop is left with the actor not Terminated, every turn ran,
    [response] holds the reply of the last one and the counter has reached
    the last turn. *)
Lemma turns_loop_exhausted n turn response w :
  is_Some (heap w !! a) ->
  is_terminated_ref (snd (turns_loop llm a A0 n turn response w)) a = false ->
  match n with
  | O => turns_loop llm a A0 n turn response w = (response, w)
  | S _ =>
      exists message r,
        outcome (llm (Z.to_nat (turn + Z.of_nat n - 1)) message) = Reply r /\
        fst (turns_loop llm a A0 n turn response w) = Some r /\
        turns_at a (snd (turns_loop llm a A0 n turn response w)) (turn + Z.of_nat n)
  end.
Proof.
  revert turn response w. induction n as [|n IH]; intros turn response w Hw Hnt.
  { reflexivity. }
  cbn [turns_loop] in Hnt |- *.
  assert (H1 : turns_at a (update a (set_turns (turn + 1)) w) (turn + 1)).
  { destruct Hw as [X HX]. exists (set_turns (turn + 1) X).
    by rewrite lookup_update, decide_True, HX by done. }
  destruct (is_terminated_ref (update a (set_turns (turn + 1)) w) a) eqn:Ht1.
  { cbn [snd] in Hnt. congruence. }
  pose proof (turns_at_keeps _ _ _ (world_keeps_drain _) H1) as H2.
  destruct (drain_inbox a (update a (set_turns (turn + 1)) w)) as [incoming w2].
  cbn [snd] in H2.
  match type of Hnt with context [llm (Z.to_nat turn) ?m] => set (message := m) in * end.
  pose proof (turns_at_keeps _ _ _
    (world_keeps_exec_calls a (calls (llm (Z.to_nat turn) message)) w2) H2) as H3.
  destruct (outcome (llm (Z.to_nat turn) message)) as [resp|e] eqn:Ho.
  2:{ cbn [snd] in Hnt.
      rewrite is_terminated_ref_terminate in Hnt; [done|].
      by eapply turns_at_allocated. }
  destruct (is_terminated_ref (exec_calls a (calls (llm (Z.to_nat turn) message)) w2) a)
    eqn:Ht3.
  { cbn [snd] in Hnt. congruence. }
  assert (Hlast : forall w',
    turns_at a w' (turn + 1) ->
    is_terminated_ref (snd (turns_loop llm a A0 n (turn + 1) (Some resp) w')) a = false ->
    exists message0 r,
      outcome (llm (Z.to_nat (turn + Z.of_nat (S n) - 1)) message0) = Reply r /\
      fst (turns_loop llm a A0 n (turn + 1) (Some resp) w') = Some r /\
      turns_at a (snd (turns_loop llm a A0 n (turn + 1) (Some resp) w'))
               (turn + Z.of_nat (S n))).
  { intros w' Hw' Hnt'.
    specialize (IH (turn + 1)%Z (Some resp) w' (turns_at_allocated _ _ Hw') Hnt').
    destruct n as [|n'].
    - exists message, resp. rewrite IH. cbn [fst snd].
      replace (turn + Z.of_nat 1 - 1)%Z with turn by lia.
      replace (turn + Z.of_nat 1)%Z with (turn + 1)%Z by lia. by repeat split.
    - destruct IH as (m' & r & Hr & Hf & Hta). exists m', r.
      replace (turn + Z.of_nat (S (S n')) - 1)%Z
        with (turn + 1 + Z.of_nat (S n') - 1)%Z by lia.
      replace (turn + Z.of_nat (S (S n')))%Z
        with (turn + 1 + Z.of_nat (S n'))%Z by lia.
      by repeat split. }
  destruct (is_ack resp).
  - apply Hlast; [exact H3|exact Hnt].
  - apply Hlast; [|exact Hnt].
    eapply turns_at_keeps; [apply world_keeps_wait_for_reply|exact H3].
Qed.

Lemma ActorState_eqb_eq s1 s2 : ActorState_eqb s1 s2 = true -> s1 = s2.
Proof. by destruct s1, s2. Qed.

(** C8: for an actor with [max_turns >= 1], [ActorRunner.run] returns,
    and then the counter is at most [max_turns] (when the set-up before the
    loop raised, no turn ran and this is the bound the counter had before:
    a spawned actor starts at 0),
    the actor is Terminated and the string returned is its stored result;
    when the loop ended without the actor being Terminated, every one of the
    [max_turns] turns ran and the result is "Max turns reached. Last
    response: " followed by the first 200 characters of the reply of the last
    turn ("none" for an empty reply). *)
Theorem C8_runner_bound setup w :
  heap w !! a = Some A0 ->
  (1 <= max_turns (config A0))%Z ->
  setup = None \/ (_turns A0 <= max_turns (config A0))%Z ->
  let res := fst (run setup llm a w) in
  let w' := snd (run setup llm a w) in
  exists A',
    heap w' !! a = Some A' /\ config A' = config A0 /\
    (_turns A' <= max_turns (config A0))%Z /\
    state A' = TERMINATED /\
    res = match _result A' with
          | Some r => Py.str_or r "No result"
          | None => "No result"
          end /\
    (setup = None ->
     is_terminated_ref
       (snd (turns_loop llm a A0 (Z.to_nat (max_turns (config A0))) 0 None w)) a
     = false ->
     exists message r,
       outcome (llm (Z.to_nat (max_turns (config A0) - 1)) message) = Reply r /\
       res = "Max turns reached. Last response: "
             +:+ (if Py.truthy r then Py.slice_to 200 r else "none") /\
       _result A' = Some res /\
       Py.startswith res "Max turns reached." = true /\
       _turns A' = max_turns (config A0)).
Proof.
  intros HA Hmax Hturns res w'. subst res w'. unfold run. rewrite HA.
  assert (Hinv : exists X, heap w !! a = Some X /\ config X = config A0 /\
                           (Z.to_nat (max_turns (config A0)) = 0%nat ->
                            (_turns X <= max_turns (config A0))%Z)).
  { exists A0. split; [done|]. split; [done|]. lia. }
  destruct setup as [e|].
  - destruct Hturns as [[=]|Hturns].
    destruct (terminate_sets true a A0 (Some ("Runner error: " +:+ e)) w HA)
      as (A' & HA' & Hs & Hr & (_ & Hc & _ & _ & Ht)).
    cbn [fst snd]. rewrite HA'. exists A'.
    split; [done|]. split; [done|]. split; [lia|]. split; [done|].
    split; [done|]. intros [=].
  - pose proof (turns_loop_inv (Z.to_nat (max_turns (config A0))) 0 None w
                  ltac:(lia) ltac:(lia) Hinv) as Hinv1.
    pose proof (turns_loop_exhausted (Z.to_nat (max_turns (config A0))) 0 None w
                  ltac:(eauto)) as Hex.
    destruct (turns_loop llm a A0 (Z.to_nat (max_turns (config A0))) 0 None w)
      as [response w1].
    cbn [fst snd] in Hinv1, Hex.
    destruct (is_terminated_ref w1 a) eqn:Hterm.
    + destruct Hinv1 as (X & HX & Hc & Ht). cbn [fst snd]. rewrite HX.
      exists X. split; [done|]. split; [done|]. split; [done|].
      split; [|split; [done|]].
      * unfold is_terminated_ref in Hterm. rewrite HX in Hterm.
        by apply ActorState_eqb_eq.
      * intros _ Hf. cbn [snd] in Hf. congruence.
    + specialize (Hex eq_refl).
      destruct (Z.to_nat (max_turns (config A0))) as [|k] eqn:Hk; [lia|].
      destruct Hex as (message & r & Ho & -> & (X1 & HX1 & Ht1)).
      set (text := "Max turns reached. Last response: "
                   +:+ (if Py.truthy r then Py.slice_to 200 r else "none")).
      destruct (terminate_sets true a X1 (Some text) w1 HX1)
        as (A' & HA' & Hs & Hr & (_ & Hc' & _ & _ & Ht')).
      destruct Hinv1 as (X & HX & Hc & Ht).
      assert (X = X1) by congruence. subst X1.
      cbn [fst snd]. rewrite HA'. exists A'.
      split; [done|]. split; [congruence|]. split; [lia|]. split; [done|].
      rewrite Hr. split; [done|]. intros _ _.
      exists message, r. split.
      { replace (Z.to_nat (max_turns (config A0) - 1))
          with (Z.to_nat (0 + Z.of_nat (S k) - 1)) by lia. exact Ho. }
      split; [reflexivity|]. split; [reflexivity|]. split; [reflexivity|].
      lia.
Qed.

End C8.

Lemma C8_runner_bound_witness :
  Actors.heap slow_worker_world !! 1 = Some slow_worker /\
  (1 <= Actors.max_turns (Actors.config slow_worker))%Z /\
  fst (Runner.run None still_working 1 slow_worker_world)
  = "Max turns reached. Last response: Still working..." /\
  exists A', Actors.heap (snd (Runner.run None still_working 1 slow_worker_world)) !! 1
             = Some A' /\
             Actors.state A' = Actors.TERMINATED /\ Actors._turns A' = 3%Z.
Proof.
  assert (H1 : Actors.heap slow_worker_world !! 1 = Some slow_worker) by reflexivity.
  assert (H2 : (1 <= Actors.max_turns (Actors.config slow_worker))%Z)
    by (vm_compute; discriminate).
  split; [exact H1|]. split; [exact H2|].
  destruct (C8_runner_bound still_working 1 slow_worker None slow_worker_world
              H1 H2 (or_introl eq_refl)) as (A' & HA' & _ & _ & Hs & _ & Hex).
  destruct (Hex eq_refl ltac:(vm_compute; reflexivity))
    as (m & r & Ho & Hres & _ & _ & Ht).
  split.
  - rewrite Hres. injection Ho as <-. reflexivity.
  - exists A'. split; [exact HA'|]. split; [exact Hs|]. exact Ht.
Defined.

(** ** Amygdala: one heartbeat round with a user notification *)

Section StripFacts.

Lemma rstrip_idem s : Py.rstrip (Py.rstrip s) = Py.rstrip s.
Proof.
  induction s as [|c s IH]; [reflexivity|]. cbn [Py.rstrip].
  destruct (Py.rstrip s) as [|x y] eqn:Hr.
  - destruct (Py.isspace c) eqn:Hc; [reflexivity|]. cbn. by rewrite Hc.
  - change (Py.rstrip (String c (String x y)))
      with (match Py.rstrip (String x y) with
            | "" => if Py.isspace c then "" else String c ""
            | r => String c r
            end).
    by rewrite IH.
Qed.

Lemma lstrip_rstrip s : Py.lstrip (Py.rstrip s) = Py.rstrip (Py.lstrip s).
Proof.
  induction s as [|c s IH]; [reflexivity|].
  cbn [Py.rstrip Py.lstrip]. destruct (Py.isspace c) eqn:Hc.
  - rewrite <- IH. destruct (Py.rstrip s) as [|x y]; [reflexivity|].
    cbn [Py.lstrip]. by rewrite Hc.
  - cbn [Py.rstrip]. destruct (Py.rstrip s) as [|x y]; cbn [Py.lstrip]; by rewrite Hc.
Qed.

End StripFacts.

Section RoundFrames.
Import Actors Tools Amygdala.

(** What the steps around the turn loop leave alone. *)
Lemma compact_tag_log_frame st w :
  let st' := fst (_compact_tag_log st w) in
  let w' := snd (_compact_tag_log st w) in
  heap w' = heap w /\ _actors w' = _actors w /\
  uuid_src w' = uuid_src w /\ uuid_pos w' = uuid_pos w /\
  status_state st' = status_state st /\ rounds_total st' = rounds_total st /\
  last_started_at st' = last_started_at st /\
  last_completed_at st' = last_completed_at st /\
  last_turns st' = last_turns st /\ last_alert st' = last_alert st /\
  last_result st' = last_result st /\ last_error st' = last_error st.
Proof.
  cbn zeta. unfold _compact_tag_log.
  destruct (files w !! AMYGDALA_TAGS_FILE) as [content|]; [|by repeat split].
  destruct (Z.of_nat (String.length content) <=? TAG_LOG_MAX_CHARS)%Z;
    by repeat split.
Qed.

(** What [spawn] leaves behind. *)
Lemma spawn_spec cfg parent principal w :
  let a := fst (spawn cfg parent principal w) in
  let w' := snd (spawn cfg parent principal w) in
  a = length (heap w) /\
  heap w' !! a
  = Some {| actor_id := fst (uuid4_8 w); config := cfg;
            spawned_by := match parent with Some p => p | None => "" end;
            is_principal := principal; state := RUNNING;
            _inbox := []; _messages := []; _result := None; _turns := 0;
            created_at := clock_src w (clock_pos w) |} /\
  (forall b, b < length (heap w) -> heap w' !! b = heap w !! b) /\
  _actors w' = <[fst (uuid4_8 w) := length (heap w)]> (_actors w) /\
  files w' = files w.
Proof.
  cbn zeta. unfold spawn, uuid4_8, datetime_now. cbn [fst snd heap].
  split; [reflexivity|]. split.
  { rewrite lookup_update, decide_True by done.
    destruct principal; cbn; rewrite lookup_app_r by lia;
      by rewrite Nat.sub_diag. }
  split.
  { intros b Hb. rewrite lookup_update, decide_False by lia.
    destruct principal; cbn; by rewrite lookup_app_l. }
  by destruct principal.
Qed.

Lemma datetime_now_frame w :
  heap (snd (datetime_now w)) = heap w /\
  _actors (snd (datetime_now w)) = _actors w /\
  files (snd (datetime_now w)) = files w /\
  uuid_src (snd (datetime_now w)) = uuid_src w /\
  uuid_pos (snd (datetime_now w)) = uuid_pos w.
Proof. by repeat split. Qed.

End RoundFrames.

(** C2 (defect): the escalation round on the [ActorRegistry] of
    [lethe/actor/__init__.py], which has no event log.  The model sends "[USER_NOTIFY] deploy failure recurring" to the cortex and
    terminates; the message is in the inbox of the cortex and the round is
    counted, but the query of the event log raises before the notification
    is extracted: [last_alert] stays empty and [last_error] holds the text
    of the [AttributeError]. *)
Lemma C2_alert_not_recorded :
  match Amygdala.run_round (fun _ => "[]") (notifying_llm "deploy failure recurring")
          Amygdala.registry_events furious None heartbeat (snd one_principal) with
  | Amygdala.Returned am' w' =>
      Amygdala.last_alert (Amygdala._status am') = "" /\
      Py.contains "deploy failure recurring"
                  (Amygdala.last_alert (Amygdala._status am')) = false /\
      Amygdala.last_error (Amygdala._status am')
      = "'ActorRegistry' object has no attribute 'events'" /\
      Amygdala.rounds_total (Amygdala._status am') = 1%Z /\
      (map Actors.content <$> (Actors._inbox <$> Actors.heap w' !! 0))
      = Some ["[USER_NOTIFY] deploy failure recurring"]
  | Amygdala.Propagated _ _ _ => False
  end.
Proof. vm_compute. repeat split. Qed.

(** ** What an actor's code can do to the world *)

Section Acts.
Import Actors Tools Runner.

Lemma same_identity_refl X : same_identity X X.
Proof. by repeat split. Qed.

Lemma same_identity_trans X Y Z :
  same_identity X Y -> same_identity Y Z -> same_identity X Z.
Proof.
  intros (?&?&?&?) (?&?&?&?). repeat split; congruence.
Qed.

Lemma lifecycle_refl X : lifecycle X X.
Proof. by left. Qed.

Lemma lifecycle_trans X Y Z : lifecycle X Y -> lifecycle Y Z -> lifecycle X Z.
Proof.
  intros [[H1 H2]|[H1 H2]] [[H3 H4]|[H3 H4]].
  - left. split; congruence.
  - by right.
  - right. split; [congruence|]. destruct H2 as (r & Hr & Ht).
    exists r. split; [congruence|done].
  - by right.
Qed.

Lemma same_core_identity X X' : same_core X X' -> same_identity X X'.
Proof. intros (?&?&?&?&_). by repeat split. Qed.

Lemma same_core_lifecycle X X' : same_core X X' -> lifecycle X X'.
Proof. intros (_&_&_&_&?&?&_). by left. Qed.

(** A consistent registry stays consistent when the registry itself is not
    touched and the objects keep their ids. *)
Lemma registry_wf_heap w w' :
  _actors w' = _actors w ->
  (forall x X, heap w !! x = Some X ->
               exists X', heap w' !! x = Some X' /\ actor_id X' = actor_id X) ->
  registry_wf w -> registry_wf w'.
Proof.
  intros Ha Hh Hwf i x Hi. rewrite Ha in Hi.
  destruct (Hwf i x Hi) as (X & HX & Hid).
  destruct (Hh x X HX) as (X' & HX' & Hid'). exists X'. split; [done|congruence].
Qed.

(** The general shape of a step that leaves the registry alone. *)
Lemma acts_heap a w w' :
  _actors w' = _actors w ->
  _principal_id w' = _principal_id w ->
  (forall x X, heap w !! x = Some X ->
     exists X', heap w' !! x = Some X' /\ same_identity X X' /\ lifecycle X X' /\
                (x <> a -> state X' = state X /\ _result X' = _result X /\
                           _turns X' = _turns X)) ->
  acts a w w'.
Proof.
  intros Ha Hp Hh. split; [exact Hh|]. split; [exact Hp|]. split.
  { by rewrite Ha. }
  apply registry_wf_heap; [exact Ha|].
  intros x X HX. destruct (Hh x X HX) as (X' & HX' & (Hid & _) & _). eauto.
Qed.

Lemma acts_refl a w : acts a w w.
Proof.
  apply acts_heap; try done. intros x X HX. exists X.
  split; [done|]. split; [apply same_identity_refl|].
  split; [apply lifecycle_refl|done].
Qed.

Lemma acts_trans a w1 w2 w3 : acts a w1 w2 -> acts a w2 w3 -> acts a w1 w3.
Proof.
  intros (H1 & P1 & D1 & W1) (H2 & P2 & D2 & W2).
  split; [|split; [congruence|split; [set_solver|tauto]]].
  intros x X HX.
  destruct (H1 x X HX) as (Y & HY & I1 & L1 & O1).
  destruct (H2 x Y HY) as (Z & HZ & I2 & L2 & O2).
  exists Z. split; [done|]. split; [eauto using same_identity_trans|].
  split; [eauto using lifecycle_trans|].
  intros Hne. destruct (O1 Hne) as (?&?&?), (O2 Hne) as (?&?&?).
  repeat split; congruence.
Qed.

(** Steps that leave heap, registry and principal alone. *)
Lemma acts_frame a w w' :
  heap w' = heap w -> _actors w' = _actors w ->
  _principal_id w' = _principal_id w -> acts a w w'.
Proof.
  intros Hh Ha Hp. apply acts_heap; [done..|].
  intros x X HX. exists X. rewrite Hh.
  split; [done|]. split; [apply same_identity_refl|].
  split; [apply lifecycle_refl|done].
Qed.

(** An in-place update that only touches inbox and history. *)
Lemma acts_update_mail a x f w :
  (forall X, same_core X (f X)) -> acts a w (update x f w).
Proof.
  intros Hf. apply acts_heap; [done..|].
  intros y Y HY. rewrite lookup_update. destruct (decide (x = y)) as [->|Hne].
  - rewrite HY. exists (f Y). split; [done|].
    pose proof (Hf Y) as Hc.
    split; [by apply same_core_identity|]. split; [by apply same_core_lifecycle|].
    intros _. destruct Hc as (_&_&_&_&?&?&?). done.
  - exists Y. split; [done|]. split; [apply same_identity_refl|].
    split; [apply lifecycle_refl|done].
Qed.

Lemma acts_send a x m w : acts a w (send x m w).
Proof. apply acts_update_mail. intros X. by repeat split. Qed.

Lemma acts_new_message a s r t rt w : acts a w (snd (new_message s r t rt w)).
Proof. by apply acts_frame. Qed.

Lemma acts_send_to a x rid txt rt w : acts a w (snd (send_to x rid txt rt w)).
Proof.
  unfold send_to. destruct (heap w !! x) as [X|]; [|apply acts_refl].
  pose proof (acts_new_message a (actor_id X) rid txt rt w) as Hn.
  destruct (new_message (actor_id X) rid txt rt w) as [msg w1]. cbn [snd] in Hn.
  destruct (get w1 rid) as [r|]; cbn [snd]; [|exact Hn].
  eapply acts_trans; [exact Hn|].
  eapply acts_trans; [apply acts_send|].
  apply acts_update_mail. intros Y. by repeat split.
Qed.

Lemma acts_on_actor_terminated a in_loop i w :
  acts a w (_on_actor_terminated in_loop i w).
Proof.
  unfold _on_actor_terminated.
  destruct (_actors w !! i) as [b|]; [|apply acts_refl].
  destruct (heap w !! b) as [B|]; [|apply acts_refl].
  destruct (if Py.truthy (spawned_by B) then _actors w !! spawned_by B else None)
    as [p|]; [|apply acts_refl].
  destruct (heap w !! p) as [P|]; [|apply acts_refl].
  destruct (ActorState_eqb (state P) RUNNING); [|apply acts_refl].
  match goal with |- context [new_message ?s ?r ?t ?rt w] =>
    pose proof (acts_new_message a s r t rt w) as Hn;
    destruct (new_message s r t rt w) as [m w1] end.
  cbn [snd] in Hn. destruct in_loop.
  - eapply acts_trans; [exact Hn|]. by apply acts_frame.
  - eapply acts_trans; [exact Hn|]. apply acts_update_mail.
    intros Y. by repeat split.
Qed.

(** [terminate] on the actor's own object. *)
Lemma acts_terminate a in_loop result w : acts a w (terminate in_loop a result w).
Proof.
  unfold terminate. destruct (heap w !! a) as [A|] eqn:HA; [|apply acts_refl].
  fold (stored_result A result).
  eapply acts_trans; [|apply acts_on_actor_terminated].
  apply acts_heap; [done..|].
  intros y Y HY. rewrite lookup_update. destruct (decide (a = y)) as [->|Hne].
  - rewrite HY. eexists. split; [reflexivity|].
    split; [by repeat split|]. split; [|done].
    right. split; [done|]. eexists. split; [reflexivity|].
    apply stored_result_truthy.
  - exists Y. split; [done|]. split; [apply same_identity_refl|].
    split; [apply lifecycle_refl|done].
Qed.

Lemma acts_fold_send a ts w0 w :
  acts a w0 w ->
  acts a w0 (fold_left (fun w' t => send (fst t) (snd t) w') ts w).
Proof.
  revert w. induction ts as [|t ts IH]; intros w H; [exact H|].
  cbn [fold_left]. apply IH. eapply acts_trans; [exact H|apply acts_send].
Qed.

Lemma acts_run_scheduled a w : acts a w (run_scheduled w).
Proof. unfold run_scheduled. apply acts_fold_send. by apply acts_frame. Qed.

Lemma acts_set_inbox a x q w : acts a w (update x (set_inbox q) w).
Proof. apply acts_update_mail. intros X. by repeat split. Qed.

Lemma acts_wait_for_reply a x w : acts a w (snd (wait_for_reply x w)).
Proof.
  unfold wait_for_reply. destruct (heap w !! x) as [X|]; [|apply acts_refl].
  destruct (_inbox X) as [|m q]; cbn [snd]; [|apply acts_set_inbox].
  destruct (heap (run_scheduled w) !! x) as [X1|]; [|apply acts_run_scheduled].
  destruct (_inbox X1) as [|m q]; cbn [snd]; [apply acts_run_scheduled|].
  eapply acts_trans; [apply acts_run_scheduled|apply acts_set_inbox].
Qed.

Lemma acts_drain a x w : acts a w (snd (drain_inbox x w)).
Proof.
  unfold drain_inbox. destruct (heap w !! x); [|apply acts_refl].
  apply acts_set_inbox.
Qed.

(** The runner's own counter. *)
Lemma acts_set_turns a n w : acts a w (update a (set_turns n) w).
Proof.
  apply acts_heap; [done..|].
  intros y Y HY. rewrite lookup_update. destruct (decide (a = y)) as [->|Hne].
  - rewrite HY. eexists. split; [reflexivity|].
    split; [by repeat split|]. split; [by left|done].
  - exists Y. split; [done|]. split; [apply same_identity_refl|].
    split; [apply lifecycle_refl|done].
Qed.

(** [spawn] with [is_principal=False]. *)
Lemma acts_spawn a cfg parent w : acts a w (snd (spawn cfg parent false w)).
Proof.
  pose proof (spawn_spec cfg parent false w) as (Ha & Hnew & Hold & Hact & _).
  cbn zeta in Hnew, Hold, Hact. rewrite Ha in Hnew.
  assert (Hh : forall x X, heap w !! x = Some X ->
                heap (snd (spawn cfg parent false w)) !! x = Some X).
  { intros x X HX. rewrite Hold; [done|]. by eapply lookup_lt_Some. }
  split; [|split; [reflexivity|split]].
  - intros x X HX. exists X. split; [by apply Hh|].
    split; [apply same_identity_refl|]. split; [apply lifecycle_refl|done].
  - rewrite Hact. set_solver.
  - intros Hwf i x Hi. rewrite Hact in Hi.
    destruct (decide (fst (uuid4_8 w) = i)) as [<-|Hne].
    + rewrite lookup_insert_eq in Hi. injection Hi as <-.
      eexists. split; [exact Hnew|reflexivity].
    + rewrite lookup_insert_ne in Hi by done.
      destruct (Hwf i x Hi) as (X & HX & Hid). exists X. split; [by apply Hh|done].
Qed.

Lemma acts_send_message a x t txt rt w : acts a w (snd (send_message x t txt rt w)).
Proof.
  unfold send_message. destruct (get w t) as [r|]; [|apply acts_refl].
  destruct (heap w !! r) as [T|]; [|apply acts_refl].
  destruct (ActorState_eqb (state T) TERMINATED); [apply acts_refl|].
  pose proof (acts_send_to a x t txt (if Py.truthy rt then Some rt else None) w) as H.
  destruct (send_to x t txt (if Py.truthy rt then Some rt else None) w) as [[m|e] w1];
    exact H.
Qed.

Lemma acts_spawn_subagent a nm gls grp tls mdl mt w :
  acts a w (snd (spawn_subagent a nm gls grp tls mdl mt w)).
Proof.
  unfold spawn_subagent. destruct (heap w !! a) as [A|]; [|apply acts_refl].
  match goal with |- context [spawn ?cfg ?p false w] =>
    pose proof (acts_spawn a cfg p w) as H; destruct (spawn cfg p false w) as [c w1] end.
  exact H.
Qed.

Lemma acts_exec_call a c w : acts a w (exec_call a c w).
Proof.
  destruct c; cbn [exec_call].
  - apply acts_send_message.
  - unfold wait_for_response.
    pose proof (acts_wait_for_reply a a w) as H.
    destruct (wait_for_reply a w) as [[m|] w1]; exact H.
  - apply acts_refl.
  - apply acts_terminate.
  - destruct (heap w !! a) as [A|]; [|apply acts_refl].
    destruct (can_spawn A); [apply acts_spawn_subagent|apply acts_refl].
  - by apply acts_frame.
  - apply acts_run_scheduled.
Qed.

Lemma acts_exec_calls a cs w : acts a w (exec_calls a cs w).
Proof.
  unfold exec_calls. revert w.
  induction cs as [|c cs IH]; intros w; [apply acts_refl|].
  cbn [fold_left]. eapply acts_trans; [apply acts_exec_call|apply IH].
Qed.

Lemma acts_turns_loop llm a A0 n turn response w :
  acts a w (snd (turns_loop llm a A0 n turn response w)).
Proof.
  revert turn response w.
  induction n as [|n IH]; intros turn response w; [apply acts_refl|].
  cbn [turns_loop].
  pose proof (acts_set_turns a (turn + 1) w) as H1.
  set (w1 := update a (set_turns (turn + 1)) w) in *.
  destruct (is_terminated_ref w1 a); [exact H1|].
  pose proof (acts_drain a a w1) as H2.
  destruct (drain_inbox a w1) as [incoming w2]. cbn [snd] in H2.
  set (r := llm _ _).
  pose proof (acts_exec_calls a (calls r) w2) as H3.
  set (w3 := exec_calls a (calls r) w2) in *.
  assert (H13 : acts a w w3) by eauto using acts_trans.
  destruct (outcome r) as [resp|e].
  - destruct (is_terminated_ref w3 a); [exact H13|].
    destruct (is_ack resp).
    + eapply acts_trans; [exact H13|apply IH].
    + eapply acts_trans; [exact H13|].
      eapply acts_trans; [apply (acts_wait_for_reply a a)|apply IH].
  - cbn [snd]. eapply acts_trans; [exact H13|apply acts_terminate].
Qed.

Lemma acts_run setup llm a w : acts a w (snd (run setup llm a w)).
Proof.
  unfold run. destruct (heap w !! a) as [A|]; [|apply acts_refl]. cbn [snd].
  destruct setup as [e|]; [apply acts_terminate|].
  pose proof (acts_turns_loop llm a A (Z.to_nat (max_turns (config A))) 0 None w) as H.
  destruct (turns_loop llm a A (Z.to_nat (max_turns (config A))) 0 None w)
    as [response w1]. cbn [snd] in H.
  destruct (is_terminated_ref w1 a); [exact H|].
  destruct response; (eapply acts_trans; [exact H|apply acts_terminate]).
Qed.

End Acts.

(** ** Registry consistency, isolation of actors and finality of termination *)

Section Lifecycle.
Import Actors Tools Runner.

Lemma registry_wf_spawn cfg parent principal w :
  registry_wf w -> registry_wf (snd (spawn cfg parent principal w)).
Proof.
  pose proof (spawn_spec cfg parent principal w) as (Ha & Hnew & Hold & Hact & _).
  cbn zeta in Hnew, Hold, Hact. rewrite Ha in Hnew.
  intros Hwf i x Hi. rewrite Hact in Hi.
  destruct (decide (fst (uuid4_8 w) = i)) as [<-|Hne].
  - rewrite lookup_insert_eq in Hi. injection Hi as <-.
    eexists. split; [exact Hnew|reflexivity].
  - rewrite lookup_insert_ne in Hi by done.
    destruct (Hwf i x Hi) as (X & HX & Hid). exists X. split; [|done].
    rewrite Hold; [done|]. by eapply lookup_lt_Some.
Qed.

Lemma registry_wf_cleanup w : registry_wf w -> registry_wf (cleanup_terminated w).
Proof.
  intros Hwf i x Hi. unfold cleanup_terminated in Hi. cbn in Hi.
  apply map_lookup_filter_Some in Hi as [Hi _]. exact (Hwf i x Hi).
Qed.

Lemma registry_wf_empty w : _actors w = ∅ -> registry_wf w.
Proof. intros H i a Hi. by rewrite H, lookup_empty in Hi. Qed.

(** X1: a consistent registry (every key is the id of the actor stored under
    it) stays consistent under [spawn], [cleanup_terminated], any sequence of
    tool calls an actor makes, and a whole [ActorRunner.run]. *)
Theorem registry_stays_consistent w :
  registry_wf w ->
  (forall cfg parent principal, registry_wf (snd (spawn cfg parent principal w))) /\
  registry_wf (cleanup_terminated w) /\
  (forall a cs, registry_wf (exec_calls a cs w)) /\
  (forall setup llm a, registry_wf (snd (run setup llm a w))).
Proof.
  intros Hwf. split; [|split; [|split]].
  - intros. by apply registry_wf_spawn.
  - by apply registry_wf_cleanup.
  - intros a cs. by apply (acts_exec_calls a cs w).
  - intros setup llm a. by apply (acts_run setup llm a w).
Qed.

(** X2: the code run for one actor (its tool calls, its whole runner) never
    changes the identity, state, result or turn counter of another actor
    object: an actor can terminate itself, but not others. *)
Theorem other_actors_untouched a b B w :
  heap w !! b = Some B ->
  b <> a ->
  let untouched := fun w' =>
    exists B', heap w' !! b = Some B' /\ same_identity B B' /\
               state B' = state B /\ _result B' = _result B /\
               _turns B' = _turns B in
  (forall cs, untouched (exec_calls a cs w)) /\
  (forall setup llm, untouched (snd (run setup llm a w))).
Proof.
  intros HB Hne untouched.
  assert (H : forall w', acts a w w' -> untouched w').
  { intros w' (Hh & _). destruct (Hh b B HB) as (B' & HB' & Hid & _ & Ho).
    exists B'. destruct (Ho Hne) as (?&?&?). done. }
  split; intros; apply H; [apply acts_exec_calls|apply acts_run].
Qed.

(** X3: termination is final.  Whatever tool calls any actor makes and
    whichever runner runs, an object that is Terminated stays Terminated, and
    an object that becomes Terminated holds a non-empty result. *)
Theorem terminated_is_final a x X w :
  heap w !! x = Some X ->
  let final := fun w' =>
    exists X', heap w' !! x = Some X' /\
               (state X = TERMINATED -> state X' = TERMINATED) /\
               (state X <> TERMINATED -> state X' = TERMINATED -> has_result X') in
  (forall cs, final (exec_calls a cs w)) /\
  (forall setup llm, final (snd (run setup llm a w))).
Proof.
  intros HX final.
  assert (H : forall w', acts a w w' -> final w').
  { intros w' (Hh & _).
    destruct (Hh x X HX) as (X' & HX' & _ & [[Hs Hr]|[Hs Hr]] & _);
      exists X'; (split; [done|]); split; try congruence; try done. }
  split; intros; apply H; [apply acts_exec_calls|apply acts_run].
Qed.

(** X4: no tool call and no runner changes who the principal is or takes an
    id out of the registry. *)
Theorem tools_keep_principal_and_ids a w :
  let kept := fun w' =>
    _principal_id w' = _principal_id w /\
    forall i, is_Some (get w i) -> is_Some (get w' i) in
  (forall cs, kept (exec_calls a cs w)) /\
  (forall setup llm, kept (snd (run setup llm a w))).
Proof.
  intros kept.
  assert (H : forall w', acts a w w' -> kept w').
  { intros w' (_ & Hp & Hd & _). split; [done|].
    intros i Hi. unfold get in *. apply elem_of_dom. apply Hd. by apply elem_of_dom. }
  split; intros; apply H; [apply acts_exec_calls|apply acts_run].
Qed.

(** X5: [ActorRunner.run] on an allocated actor that is not already
    Terminated without a result returns a non-empty string, which is the
    result stored in the actor, and leaves the actor Terminated: "No result"
    is never returned. *)
Theorem run_returns_stored_result setup llm a A w :
  heap w !! a = Some A ->
  (state A = TERMINATED -> has_result A) ->
  exists A' r,
    heap (snd (run setup llm a w)) !! a = Some A' /\
    state A' = TERMINATED /\
    _result A' = Some r /\ Py.truthy r = true /\
    fst (run setup llm a w) = r.
Proof.
  intros HA Hres.
  pose proof (acts_run setup llm a w) as (Hh & _).
  destruct (Hh a A HA) as (A' & HA' & _ & Hl & _).
  assert (Hterm : state A' = TERMINATED).
  { revert HA'. unfold run. rewrite HA. cbn [snd].
    destruct setup as [e|].
    - intros HA'. destruct (terminate_sets true a A (Some ("Runner error: " +:+ e)) w HA)
        as (A1 & HA1 & Hs & _). congruence.
    - pose proof (acts_turns_loop llm a A (Z.to_nat (max_turns (config A))) 0 None w)
        as (Hh1 & _).
      destruct (turns_loop llm a A (Z.to_nat (max_turns (config A))) 0 None w)
        as [response w1]. cbn [snd] in Hh1.
      destruct (Hh1 a A HA) as (A1 & HA1 & _).
      destruct (is_terminated_ref w1 a) eqn:Ht.
      + intros HA'. unfold is_terminated_ref in Ht. rewrite HA' in Ht.
        by apply ActorState_eqb_eq.
      + destruct response as [r|]; intros HA';
          match type of HA' with heap (terminate true a ?res w1) !! a = _ =>
            destruct (terminate_sets true a A1 res w1 HA1) as (A2 & HA2 & Hs & _) end;
          congruence. }
  assert (Hr : has_result A').
  { destruct Hl as [[Hs Hr]|[_ Hr]]; [|done].
    destruct (Hres ltac:(congruence)) as (r & Hr' & Ht).
    exists r. split; [congruence|done]. }
  destruct Hr as (r & Hr & Ht). exists A', r.
  split; [done|]. split; [done|]. split; [done|]. split; [done|].
  unfold run in *. rewrite HA in *. cbn [fst snd] in *. rewrite HA', Hr.
  unfold Py.str_or. by rewrite Ht.
Qed.

End Lifecycle.

Lemma registry_stays_consistent_witness :
  registry_wf empty_world /\
  registry_wf (Actors.cleanup_terminated (snd one_principal)) /\
  registry_wf (snd (Runner.run None still_working 0 (snd one_principal))).
Proof.
  assert (H0 : registry_wf empty_world).
  { intros i a Hi. vm_compute in Hi. discriminate. }
  split; [exact H0|].
  destruct (registry_stays_consistent empty_world H0) as (Hs & _).
  pose proof (Hs (Actors.default_config "butler") None true) as H1.
  fold one_principal in H1.
  destruct (registry_stays_consistent (snd one_principal) H1) as (_ & Hc & _ & Hr).
  split; [exact Hc|]. exact (Hr None still_working 0).
Defined.

Lemma other_actors_untouched_witness :
  Actors.heap slow_worker_world !! 0 = Some butler /\
  exists B', Actors.heap (snd (Runner.run None still_working 1 slow_worker_world)) !! 0
             = Some B' /\
             Actors.state B' = Actors.RUNNING /\ Actors._result B' = None.
Proof.
  assert (H1 : Actors.heap slow_worker_world !! 0 = Some butler) by reflexivity.
  split; [exact H1|].
  destruct (other_actors_untouched 1 0 butler slow_worker_world H1 ltac:(discriminate))
    as (_ & Hrun).
  destruct (Hrun None still_working) as (B' & HB' & _ & Hs & Hr & _).
  exists B'. split; [exact HB'|]. split; [exact Hs|exact Hr].
Defined.

Lemma terminated_is_final_witness :
  Actors.heap worker_done !! 1 = Some worker_done_worker /\
  Actors.state worker_done_worker = Actors.TERMINATED /\
  exists X', Actors.heap (Tools.exec_calls 1
                 [Tools.CallSendMessage "0000000a" "one more thing" "";
                  Tools.CallWaitForResponse] worker_done) !! 1 = Some X' /\
             Actors.state X' = Actors.TERMINATED.
Proof.
  assert (H1 : Actors.heap worker_done !! 1 = Some worker_done_worker) by reflexivity.
  split; [exact H1|]. split; [reflexivity|].
  destruct (terminated_is_final 1 1 worker_done_worker worker_done H1) as (Hcalls & _).
  destruct (Hcalls [Tools.CallSendMessage "0000000a" "one more thing" "";
                    Tools.CallWaitForResponse]) as (X' & HX' & Hs & _).
  exists X'. split; [exact HX'|]. exact (Hs eq_refl).
Defined.

Lemma run_returns_stored_result_witness :
  Actors.heap slow_worker_world !! 1 = Some slow_worker /\
  exists A' r,
    Actors.heap (snd (Runner.run None still_working 1 slow_worker_world)) !! 1 = Some A' /\
    Actors._result A' = Some r /\ Py.truthy r = true /\
    fst (Runner.run None still_working 1 slow_worker_world) = r.
Proof.
  assert (H1 : Actors.heap slow_worker_world !! 1 = Some slow_worker) by reflexivity.
  split; [exact H1|].
  destruct (run_returns_stored_result None still_working 1 slow_worker slow_worker_world
              H1 ltac:(discriminate)) as (A' & r & HA' & _ & Hr & Ht & Hf).
  exists A', r. split; [exact HA'|]. split; [exact Hr|]. split; [exact Ht|exact Hf].
Defined.

(** ** Spawning takes permission *)

Section Population.
Import Actors Tools Runner.

Lemma same_population_refl w : same_population w w.
Proof. by split. Qed.

Lemma same_population_trans w1 w2 w3 :
  same_population w1 w2 -> same_population w2 w3 -> same_population w1 w3.
Proof. intros [? ?] [? ?]. split; congruence. Qed.

Lemma same_population_update x f w : same_population w (update x f w).
Proof. split; [done|]. rewrite heap_update. apply length_alter. Qed.

Lemma same_population_frame w w' :
  heap w' = heap w -> _actors w' = _actors w -> same_population w w'.
Proof. intros Hh Ha. split; [done|]. by rewrite Hh. Qed.

Lemma same_population_send_to x rid txt rt w :
  same_population w (snd (send_to x rid txt rt w)).
Proof.
  unfold send_to. destruct (heap w !! x) as [X|]; [|apply same_population_refl].
  assert (Hn : same_population w (snd (new_message (actor_id X) rid txt rt w)))
    by by apply same_population_frame.
  destruct (new_message (actor_id X) rid txt rt w) as [msg w1]. cbn [snd] in Hn.
  destruct (get w1 rid) as [r|]; cbn [snd]; [|exact Hn].
  eapply same_population_trans; [exact Hn|].
  eapply same_population_trans; apply same_population_update.
Qed.

Lemma same_population_on_actor_terminated in_loop i w :
  same_population w (_on_actor_terminated in_loop i w).
Proof.
  unfold _on_actor_terminated.
  destruct (_actors w !! i) as [b|]; [|apply same_population_refl].
  destruct (heap w !! b) as [B|]; [|apply same_population_refl].
  destruct (if Py.truthy (spawned_by B) then _actors w !! spawned_by B else None)
    as [p|]; [|apply same_population_refl].
  destruct (heap w !! p) as [P|]; [|apply same_population_refl].
  destruct (ActorState_eqb (state P) RUNNING); [|apply same_population_refl].
  match goal with |- context [new_message ?s ?r ?t ?rt w] =>
    assert (Hn : same_population w (snd (new_message s r t rt w)))
      by (by apply same_population_frame);
    destruct (new_message s r t rt w) as [m w1] end.
  cbn [snd] in Hn. destruct in_loop.
  - eapply same_population_trans; [exact Hn|]. by apply same_population_frame.
  - eapply same_population_trans; [exact Hn|]. apply same_population_update.
Qed.

Lemma same_population_terminate in_loop x result w :
  same_population w (terminate in_loop x result w).
Proof.
  unfold terminate. destruct (heap w !! x) as [X|]; [|apply same_population_refl].
  eapply same_population_trans;
    [apply same_population_update|apply same_population_on_actor_terminated].
Qed.

Lemma same_population_fold_send ts w0 w :
  same_population w0 w ->
  same_population w0 (fold_left (fun w' t => send (fst t) (snd t) w') ts w).
Proof.
  revert w. induction ts as [|t ts IH]; intros w H; [exact H|].
  cbn [fold_left]. apply IH.
  eapply same_population_trans; [exact H|apply same_population_update].
Qed.

Lemma same_population_run_scheduled w : same_population w (run_scheduled w).
Proof.
  unfold run_scheduled. apply same_population_fold_send.
  by apply same_population_frame.
Qed.

Lemma same_population_wait_for_reply x w :
  same_population w (snd (wait_for_reply x w)).
Proof.
  unfold wait_for_reply. destruct (heap w !! x) as [X|]; [|apply same_population_refl].
  destruct (_inbox X) as [|m q]; cbn [snd]; [|apply same_population_update].
  destruct (heap (run_scheduled w) !! x) as [X1|]; [|apply same_population_run_scheduled].
  destruct (_inbox X1) as [|m q]; cbn [snd]; [apply same_population_run_scheduled|].
  eapply same_population_trans;
    [apply same_population_run_scheduled|apply same_population_update].
Qed.

Lemma same_population_send_message x t txt rt w :
  same_population w (snd (send_message x t txt rt w)).
Proof.
  unfold send_message. destruct (get w t) as [r|]; [|apply same_population_refl].
  destruct (heap w !! r) as [T|]; [|apply same_population_refl].
  destruct (ActorState_eqb (state T) TERMINATED); [apply same_population_refl|].
  pose proof (same_population_send_to x t txt (if Py.truthy rt then Some rt else None) w)
    as H.
  destruct (send_to x t txt (if Py.truthy rt then Some rt else None) w) as [[m|e] w1];
    exact H.
Qed.

Lemma same_population_exec_call a A c w :
  heap w !! a = Some A -> can_spawn A = false ->
  same_population w (exec_call a c w).
Proof.
  intros HA Hc. destruct c; cbn [exec_call].
  - apply same_population_send_message.
  - unfold wait_for_response.
    pose proof (same_population_wait_for_reply a w) as H.
    destruct (wait_for_reply a w) as [[m|] w1]; exact H.
  - apply same_population_refl.
  - apply same_population_terminate.
  - rewrite HA, Hc. apply same_population_refl.
  - by apply same_population_frame.
  - apply same_population_run_scheduled.
Qed.

(** The permission is a matter of identity and configuration, which the
    actor's own code does not change. *)
Lemma can_spawn_acts a A w w' :
  heap w !! a = Some A -> acts a w w' ->
  exists A', heap w' !! a = Some A' /\ can_spawn A' = can_spawn A.
Proof.
  intros HA (Hh & _). destruct (Hh a A HA) as (A' & HA' & (_ & Hc & _ & Hp) & _).
  exists A'. split; [done|]. unfold can_spawn. by rewrite Hc, Hp.
Qed.

Lemma same_population_exec_calls a A cs w :
  heap w !! a = Some A -> can_spawn A = false ->
  same_population w (exec_calls a cs w).
Proof.
  unfold exec_calls. revert A w.
  induction cs as [|c cs IH]; intros A w HA Hc; [apply same_population_refl|].
  cbn [fold_left].
  destruct (can_spawn_acts a A w (exec_call a c w) HA (acts_exec_call a c w))
    as (A' & HA' & Hc').
  eapply same_population_trans; [by eapply same_population_exec_call|].
  eapply IH; [exact HA'|congruence].
Qed.

Lemma same_population_turns_loop llm a A A0 n turn response w :
  heap w !! a = Some A -> can_spawn A = false ->
  same_population w (snd (turns_loop llm a A0 n turn response w)).
Proof.
  revert A turn response w.
  induction n as [|n IH]; intros A turn response w HA Hc; [apply same_population_refl|].
  cbn [turns_loop].
  pose proof (same_population_update a (set_turns (turn + 1)) w) as H1.
  destruct (can_spawn_acts a A w _ HA (acts_set_turns a (turn + 1) w)) as (A1 & HA1 & Hc1).
  set (w1 := update a (set_turns (turn + 1)) w) in *.
  destruct (is_terminated_ref w1 a); [exact H1|].
  destruct (can_spawn_acts a A1 w1 _ HA1 (acts_drain a a w1)) as (A2 & HA2 & Hc2).
  assert (H2 : same_population w1 (snd (drain_inbox a w1))).
  { unfold drain_inbox. rewrite HA1. apply same_population_update. }
  destruct (drain_inbox a w1) as [incoming w2]. cbn [snd] in *.
  set (r := llm _ _).
  destruct (can_spawn_acts a A2 w2 _ HA2 (acts_exec_calls a (calls r) w2))
    as (A3 & HA3 & Hc3).
  assert (H3 : same_population w2 (exec_calls a (calls r) w2)).
  { eapply same_population_exec_calls; [exact HA2|congruence]. }
  set (w3 := exec_calls a (calls r) w2) in *.
  assert (H13 : same_population w w3) by eauto using same_population_trans.
  assert (Hc3' : can_spawn A3 = false) by congruence.
  destruct (outcome r) as [resp|e].
  - destruct (is_terminated_ref w3 a); [exact H13|].
    destruct (is_ack resp).
    + eapply same_population_trans; [exact H13|by eapply IH].
    + destruct (can_spawn_acts a A3 w3 _ HA3 (acts_wait_for_reply a a w3))
        as (A4 & HA4 & Hc4).
      eapply same_population_trans; [exact H13|].
      eapply same_population_trans; [apply same_population_wait_for_reply|].
      eapply IH; [exact HA4|congruence].
  - cbn [snd]. eapply same_population_trans; [exact H13|apply same_population_terminate].
Qed.

(** X6: an actor that is neither the principal nor has "spawn" among its
    tools cannot create actors: whatever tool calls the model makes, also
    during a whole [ActorRunner.run], the registry and the number of actor
    objects stay as they are. *)
Theorem no_spawn_without_permission a A w :
  heap w !! a = Some A ->
  can_spawn A = false ->
  (forall cs, same_population w (exec_calls a cs w)) /\
  (forall setup llm, same_population w (snd (run setup llm a w))).
Proof.
  intros HA Hc. split.
  - intros cs. by eapply same_population_exec_calls.
  - intros setup llm. unfold run. rewrite HA. cbn [snd].
    destruct setup as [e|]; [apply same_population_terminate|].
    pose proof (same_population_turns_loop llm a A A
                  (Z.to_nat (max_turns (config A))) 0 None w HA Hc) as H.
    destruct (turns_loop llm a A (Z.to_nat (max_turns (config A))) 0 None w)
      as [response w1]. cbn [snd] in H.
    destruct (is_terminated_ref w1 a); [exact H|].
    destruct response;
      (eapply same_population_trans; [exact H|apply same_population_terminate]).
Qed.

End Population.

Lemma no_spawn_without_permission_witness :
  Actors.heap slow_worker_world !! 1 = Some slow_worker /\
  Tools.can_spawn slow_worker = false /\
  same_population slow_worker_world
    (Tools.exec_calls 1 [Tools.CallSpawnSubagent "helper" "help" "" "" "" 3]
                      slow_worker_world).
Proof.
  assert (H1 : Actors.heap slow_worker_world !! 1 = Some slow_worker) by reflexivity.
  assert (H2 : Tools.can_spawn slow_worker = false) by reflexivity.
  split; [exact H1|]. split; [exact H2|].
  destruct (no_spawn_without_permission 1 slow_worker slow_worker_world H1 H2)
    as (Hcalls & _).
  exact (Hcalls [Tools.CallSpawnSubagent "helper" "help" "" "" "" 3]).
Defined.

(** ** Termination notices: the two delivery paths agree *)

Section Delivery.
Import Actors Tools.

Lemma with_scheduled_nil w : scheduled w = [] -> with_scheduled [] w = w.
Proof. destruct w. cbn. by intros ->. Qed.

Lemma run_scheduled_nil w : scheduled w = [] -> run_scheduled w = w.
Proof.
  intros H. unfold run_scheduled. rewrite H. cbn. by apply with_scheduled_nil.
Qed.

(** X7: when no delivery is pending, terminating inside an event loop and
    letting the loop run the task it was handed leaves exactly the world that
    terminating outside any loop leaves: the parent's notice is the same
    message, queued the same way. *)
Theorem deferred_notice_is_delivered a result w :
  scheduled w = [] ->
  run_scheduled (terminate true a result w) = terminate false a result w.
Proof.
  intros Hs. unfold terminate. destruct (heap w !! a) as [A|]; [|by apply run_scheduled_nil].
  set (w1 := update a _ w).
  assert (Hs1 : scheduled w1 = []) by exact Hs.
  clearbody w1. unfold _on_actor_terminated.
  destruct (_actors w1 !! actor_id A) as [b|]; [|by apply run_scheduled_nil].
  destruct (heap w1 !! b) as [B|]; [|by apply run_scheduled_nil].
  destruct (if Py.truthy (spawned_by B) then _actors w1 !! spawned_by B else None)
    as [p|]; [|by apply run_scheduled_nil].
  destruct (heap w1 !! p) as [P|]; [|by apply run_scheduled_nil].
  destruct (ActorState_eqb (state P) RUNNING); [|by apply run_scheduled_nil].
  match goal with |- context [new_message ?s ?r ?t ?rt w1] =>
    pose proof (new_message_spec s r t rt w1) as Hn;
    destruct (new_message s r t rt w1) as [m w2] end.
  cbn [fst snd] in Hn. destruct Hn as (_ & _ & _ & _ & _ & _ & _ & Hs2 & _).
  rewrite Hs1 in Hs2. unfold run_scheduled. cbn [scheduled with_scheduled].
  rewrite Hs2. cbn [app fold_left fst snd]. unfold send.
  f_equal. destruct w2; cbn in *. by subst.
Qed.

End Delivery.

Lemma deferred_notice_is_delivered_witness :
  Actors.scheduled butler_and_worker = [] /\
  Actors.run_scheduled (Actors.terminate true 1 (Some "done") butler_and_worker)
  = worker_done.
Proof.
  assert (H1 : Actors.scheduled butler_and_worker = []) by reflexivity.
  split; [exact H1|].
  rewrite (deferred_notice_is_delivered 1 (Some "done") butler_and_worker H1).
  vm_compute. reflexivity.
Defined.

(** ** Messages between actors arrive in the order they were sent *)

Section Mailbox.
Import Actors Tools.

Lemma send_to_inbox a A b B rid txt w :
  heap w !! a = Some A -> get w rid = Some b -> heap w !! b = Some B ->
  exists m A' B',
    fst (send_to a rid txt None w) = Sent m /\
    content m = txt /\ sender m = actor_id A /\ recipient m = rid /\
    heap (snd (send_to a rid txt None w)) !! a = Some A' /\
    actor_id A' = actor_id A /\
    heap (snd (send_to a rid txt None w)) !! b = Some B' /\
    _inbox B' = _inbox B ++ [m] /\
    get (snd (send_to a rid txt None w)) rid = Some b.
Proof.
  intros HA Hr HB. unfold send_to. rewrite HA.
  pose proof (new_message_spec (actor_id A) rid txt None w) as Hm.
  destruct (new_message (actor_id A) rid txt None w) as [m w1].
  cbn [fst snd] in Hm. destruct Hm as (Hsnd & Hrcp & Htxt & _ & Hh & Hreg & _).
  unfold get in *. rewrite Hreg, Hr. cbn [fst snd].
  unfold send. rewrite !lookup_update, Hh.
  destruct (decide (a = b)) as [->|Hne].
  - assert (A = B) by congruence. subst A.
    rewrite !decide_True by done. rewrite HB. cbn.
    eexists m, _, _. repeat split; try done. by rewrite Hreg.
  - rewrite ?(decide_True (P := a = a)) by done.
    rewrite ?(decide_True (P := b = b)) by done.
    rewrite ?(decide_False (P := b = a)) by done.
    rewrite HA, HB. cbn.
    eexists m, _, _. repeat split; try done. by rewrite Hreg.
Qed.

Lemma send_all_inbox a rid b txts : forall A B w,
  heap w !! a = Some A -> get w rid = Some b -> heap w !! b = Some B ->
  exists ms B',
    heap (send_all a rid txts w) !! b = Some B' /\
    _inbox B' = _inbox B ++ ms /\
    map content ms = txts /\
    Forall (fun m => sender m = actor_id A /\ recipient m = rid) ms.
Proof.
  induction txts as [|t ts IH]; intros A B w HA Hr HB.
  - exists [], B. cbn. by rewrite app_nil_r.
  - cbn [send_all].
    destruct (send_to_inbox a A b B rid t w HA Hr HB)
      as (m & A' & B' & _ & Hc & Hs & Hrc & HA' & Hid & HB' & Hin & Hr').
    destruct (IH A' B' _ HA' Hr' HB') as (ms & B'' & HB'' & Hin' & Hcs & Hall).
    exists (m :: ms), B''. split; [done|]. split.
    { rewrite Hin', Hin. by rewrite <- app_assoc. }
    split; [cbn; by rewrite Hc, Hcs|].
    constructor; [done|]. rewrite <- Hid. exact Hall.
Qed.

Lemma receive_inbox b ms : forall B w,
  heap w !! b = Some B -> _inbox B = ms ->
  fst (receive b (length ms) w) = map Some ms /\
  exists B', heap (snd (receive b (length ms) w)) !! b = Some B' /\ _inbox B' = [].
Proof.
  induction ms as [|m ms IH]; intros B w HB Hin.
  - cbn. split; [done|]. by exists B.
  - cbn [length receive]. unfold wait_for_reply. rewrite HB, Hin.
    assert (H1 : heap (update b (set_inbox ms) w) !! b = Some (set_inbox ms B)).
    { by rewrite lookup_update, decide_True, HB. }
    destruct (IH _ _ H1 eq_refl) as (Hf & B' & HB' & Hin').
    destruct (receive b (length ms) (update b (set_inbox ms) w)) as [got w2].
    cbn [fst snd] in *. split; [by rewrite Hf|]. by exists B'.
Qed.

(** X8: the inbox is a queue.  When an actor sends a sequence of texts to a
    registered actor whose inbox is empty, the recipient's next
    [wait_for_reply] calls return exactly these messages (none lost, none
    repeated), in the order they were sent, each naming the sender; after
    that the inbox is empty again. *)
Theorem messages_arrive_in_order a A b B rid txts w :
  heap w !! a = Some A ->
  get w rid = Some b ->
  heap w !! b = Some B ->
  _inbox B = [] ->
  let got := fst (receive b (length txts) (send_all a rid txts w)) in
  let w' := snd (receive b (length txts) (send_all a rid txts w)) in
  exists ms,
    got = map Some ms /\
    map content ms = txts /\
    Forall (fun m => sender m = actor_id A /\ recipient m = rid) ms /\
    exists B', heap w' !! b = Some B' /\ _inbox B' = [].
Proof.
  intros HA Hr HB Hin.
  destruct (send_all_inbox a rid b txts A B w HA Hr HB)
    as (ms & B1 & HB1 & Hin1 & Hc & Hall).
  rewrite Hin in Hin1. cbn in Hin1.
  assert (Hlen : length txts = length ms) by (by rewrite <- Hc, length_map).
  cbn zeta. rewrite Hlen.
  destruct (receive_inbox b ms B1 _ HB1 Hin1) as (Hf & B' & HB' & Hin').
  exists ms. split; [done|]. split; [done|]. split; [done|]. by exists B'.
Qed.

End Mailbox.

Lemma messages_arrive_in_order_witness :
  Actors.heap butler_and_worker !! 0 = Some butler /\
  Actors.get butler_and_worker "0000000b" = Some 1 /\
  exists ms,
    fst (receive 1 2 (send_all 0 "0000000b" ["first"; "second"] butler_and_worker))
    = map Some ms /\
    map Actors.content ms = ["first"; "second"].
Proof.
  assert (H1 : Actors.heap butler_and_worker !! 0 = Some butler) by reflexivity.
  assert (H2 : Actors.get butler_and_worker "0000000b" = Some 1) by reflexivity.
  split; [exact H1|]. split; [exact H2|].
  destruct (messages_arrive_in_order 0 butler 1 _ "0000000b" ["first"; "second"]
              butler_and_worker H1 H2 eq_refl eq_refl) as (ms & Hg & Hc & _).
  exists ms. split; [exact Hg|exact Hc].
Defined.

(** ** The child that [spawn_subagent] creates *)

Section SpawnSubagent.
Import Actors Tools.

Lemma split_comma_single s : no_comma s = true -> split_comma s = [s].
Proof.
  induction s as [|c s IH]; [done|]. cbn. intros H.
  apply andb_true_iff in H as [Hc Hs]. apply negb_true_iff in Hc.
  rewrite Hc, IH by done. done.
Qed.

Lemma split_comma_app s t :
  no_comma s = true -> split_comma (s +:+ String "," t) = s :: split_comma t.
Proof.
  induction s as [|c s IH]; [done|]. cbn. intros H.
  apply andb_true_iff in H as [Hc Hs]. apply negb_true_iff in Hc.
  rewrite str_app_cons. cbn. rewrite Hc, IH by done. done.
Qed.

Lemma split_comma_join padded :
  padded <> [] -> Forall (fun p => no_comma p = true) padded ->
  split_comma (Py.join "," padded) = padded.
Proof.
  intros Hne Hall. induction Hall as [|p ps Hp Hps IH]; [done|].
  unfold Py.join in *. destruct ps as [|q qs].
  - cbn. by apply split_comma_single.
  - change (String.concat "," (p :: q :: qs))
      with (p +:+ String "," (String.concat "," (q :: qs))).
    rewrite split_comma_app by done. by rewrite IH.
Qed.

Lemma split_comma_no_comma s : Forall (fun p => no_comma p = true) (split_comma s).
Proof.
  induction s as [|c s IH]; [by repeat constructor|]. cbn.
  destruct (Ascii.eqb c ",") eqn:Hc; [by constructor|].
  destruct (split_comma s) as [|l ls]; [repeat constructor; cbn; by rewrite Hc|].
  inversion IH; subst. constructor; [cbn; by rewrite Hc|done].
Qed.

Lemma no_comma_lstrip s : no_comma s = true -> no_comma (Py.lstrip s) = true.
Proof.
  induction s as [|c s IH]; [done|]. intros H. cbn [Py.lstrip].
  destruct (Py.isspace c); [|done]. cbn in H.
  apply andb_true_iff in H as [_ Hs]. by apply IH.
Qed.

Lemma no_comma_rstrip s : no_comma s = true -> no_comma (Py.rstrip s) = true.
Proof.
  induction s as [|c s IH]; [done|]. intros H. cbn in H.
  apply andb_true_iff in H as [Hc Hs]. specialize (IH Hs). cbn [Py.rstrip].
  destruct (Py.rstrip s) as [|c' r].
  - destruct (Py.isspace c); [done|]. cbn. by rewrite Hc.
  - cbn [no_comma] in *. by rewrite Hc, IH.
Qed.

Lemma lstrip_idem s : Py.lstrip (Py.lstrip s) = Py.lstrip s.
Proof.
  induction s as [|c s IH]; [done|]. cbn [Py.lstrip].
  destruct (Py.isspace c) eqn:Hc; [done|]. cbn [Py.lstrip]. by rewrite Hc.
Qed.

Lemma strip_idem s : Py.strip (Py.strip s) = Py.strip s.
Proof.
  unfold Py.strip. by rewrite lstrip_rstrip, lstrip_idem, rstrip_idem.
Qed.

(** X9: [spawn_subagent] registers a new Running actor that is not the
    principal, was spawned by the calling actor, carries the given name,
    goals and turn limit, and joins the given group or, for an empty group
    argument, the caller's.  Its tools are the entries of the comma-separated
    argument with the white space around them removed and empty entries
    dropped: every tool name kept is non-empty, free of commas and of
    surrounding white space. *)
Theorem spawn_subagent_child a A nm gls grp tls mdl mt w :
  heap w !! a = Some A ->
  let w' := snd (spawn_subagent a nm gls grp tls mdl mt w) in
  exists C,
    heap w' !! length (heap w) = Some C /\
    get w' (actor_id C) = Some (length (heap w)) /\
    state C = RUNNING /\ is_principal C = false /\
    spawned_by C = actor_id A /\
    name (config C) = nm /\ goals (config C) = gls /\ max_turns (config C) = mt /\
    group (config C) = (if Py.truthy grp then grp else group (config A)) /\
    Forall (fun t => Py.truthy t = true /\ no_comma t = true /\ Py.strip t = t)
           (tools (config C)) /\
    forall padded,
      padded <> [] -> Forall (fun p => no_comma p = true) padded ->
      tls = Py.join "," padded ->
      tools (config C) = List.filter Py.truthy (map Py.strip padded).
Proof.
  intros HA. cbn zeta. unfold spawn_subagent. rewrite HA.
  match goal with |- context [spawn ?cfg ?p false w] =>
    pose proof (spawn_spec cfg p false w) as (Ha & Hnew & _ & Hact & _);
    destruct (spawn cfg p false w) as [c w1] end.
  cbn [fst snd] in *. subst c. eexists. split; [exact Hnew|].
  cbn [actor_id config state is_principal spawned_by name goals max_turns group tools].
  split; [unfold get; rewrite Hact; apply lookup_insert_eq|].
  do 7 (split; [reflexivity|]). split.
  - destruct (Py.truthy tls); [|constructor].
    apply Forall_forall. intros t Ht.
    apply list_elem_of_In, filter_In in Ht as [Ht Htr].
    apply in_map_iff in Ht as (p & <- & Hp).
    split; [done|]. split; [|apply strip_idem].
    unfold Py.strip. apply no_comma_rstrip, no_comma_lstrip.
    pose proof (split_comma_no_comma tls) as Hall.
    rewrite Forall_forall in Hall. apply Hall. by apply list_elem_of_In.
  - intros padded Hne Hall ->. destruct (Py.truthy (Py.join "," padded)) eqn:Ht.
    + by rewrite split_comma_join.
    + apply not_truthy in Ht. destruct padded as [|p [|q qs]]; [done| |].
      * unfold Py.join in Ht. cbn in Ht. subst p. reflexivity.
      * unfold Py.join in Ht. cbn [String.concat] in Ht.
        destruct p; discriminate Ht.
Qed.

End SpawnSubagent.

Lemma spawn_subagent_child_witness :
  Actors.heap (snd one_principal) !! 0 = Some butler /\
  exists C,
    Actors.heap (snd (Tools.spawn_subagent 0 "coder" "Write the patch." ""
                        "read_file, write_file,,bash " "" 7 (snd one_principal))) !! 1
    = Some C /\
    Actors.spawned_by C = "0000000a" /\
    Actors.group (Actors.config C) = "default" /\
    Actors.tools (Actors.config C) = ["read_file"; "write_file"; "bash"].
Proof.
  assert (H1 : Actors.heap (snd one_principal) !! 0 = Some butler) by reflexivity.
  split; [exact H1|].
  destruct (spawn_subagent_child 0 butler "coder" "Write the patch." ""
              "read_file, write_file,,bash " "" 7 (snd one_principal) H1)
    as (C & HC & _ & _ & _ & Hs & _ & _ & _ & Hg & _ & Hp).
  exists C. split; [exact HC|]. split; [exact Hs|]. split; [exact Hg|].
  rewrite (Hp ["read_file"; " write_file"; ""; "bash "]).
  - reflexivity.
  - discriminate.
  - repeat constructor.
  - reflexivity.
Defined.

(** ** Listings of the registry *)

Section Listings.
Import Actors Tools Views.

Lemma omap_ext_in {A B} (f g : A -> option B) (l : list A) :
  (forall x, x ∈ l -> f x = g x) -> omap f l = omap g l.
Proof.
  induction l as [|x l IH]; intros H; [done|]. cbn.
  rewrite (H x) by constructor. rewrite IH; [done|].
  intros y Hy. apply H. by constructor.
Qed.

(** A listing is a selection from the registered references. *)
Lemma listing_omap {B} (Q : nat * Actor -> Prop) `{!forall x, Decision (Q x)}
    (g : nat * Actor -> B) w :
  map g (filter Q (values w))
  = omap (fun kv : string * nat =>
            heap w !! snd kv ≫= fun A =>
              if decide (Q (snd kv, A)) then Some (g (snd kv, A)) else None)
         (map_to_list (_actors w)).
Proof.
  unfold values. induction (map_to_list (_actors w)) as [|kv l IH]; [done|].
  cbn. destruct (heap w !! snd kv) as [A|]; cbn; [|exact IH].
  destruct (decide (Q (snd kv, A))); [cbn [map]; f_equal|]; exact IH.
Qed.

Lemma map_to_list_filter {A} (P : string * A -> Prop) `{!forall x, Decision (P x)}
    (m : gmap string A) :
  map_to_list (filter P m) ≡ₚ filter P (map_to_list m).
Proof.
  apply NoDup_Permutation.
  - apply NoDup_map_to_list.
  - apply NoDup_filter, NoDup_map_to_list.
  - intros [i x]. rewrite list_elem_of_filter, !elem_of_map_to_list.
    rewrite map_lookup_filter_Some. tauto.
Qed.

Lemma omap_filter_drop {A B} (P : A -> Prop) `{!forall x, Decision (P x)}
    (f : A -> option B) (l : list A) :
  (forall x, ~ P x -> f x = None) -> omap f (filter P l) = omap f l.
Proof.
  intros Hf. induction l as [|x l IH]; [done|].
  rewrite filter_cons. destruct (decide (P x)) as [HP|HP]; cbn.
  - by rewrite IH.
  - by rewrite (Hf x HP).
Qed.

(** The live part of a listing does not change when the terminated entries
    leave the registry. *)
Lemma listing_cleanup {B} (Q : nat * Actor -> Prop) `{!forall x, Decision (Q x)}
    (g : nat * Actor -> B) w :
  (forall x, Q x -> state (snd x) <> TERMINATED) ->
  map g (filter Q (values (cleanup_terminated w)))
  ≡ₚ map g (filter Q (values w)).
Proof.
  intros HQ. rewrite !listing_omap.
  change (heap (cleanup_terminated w)) with (heap w).
  change (_actors (cleanup_terminated w))
    with (filter (fun kv : string * nat => is_terminated_ref w (snd kv) = false)
                 (_actors w)).
  rewrite map_to_list_filter. rewrite omap_filter_drop; [done|].
  intros [i x] Hx. cbn in *. unfold is_terminated_ref in Hx.
  destruct (heap w !! x) as [X|]; cbn; [|done].
  destruct (decide (Q (x, X))) as [Hq|]; [|done].
  specialize (HQ _ Hq). cbn in HQ. by destruct (state X).
Qed.

(** X10: [cleanup_terminated] removes from the registry exactly the ids of
    the Terminated actors and touches nothing else (no object, and not the
    principal id); running it twice is the same as running it once; it
    leaves [active_count] as it is, and afterwards every registered actor
    counts as active. *)
Theorem cleanup_terminated_exact w :
  let w' := cleanup_terminated w in
  heap w' = heap w /\
  _principal_id w' = _principal_id w /\
  (forall i a, get w' i = Some a <->
               get w i = Some a /\ is_terminated_ref w a = false) /\
  cleanup_terminated w' = w' /\
  active_count w' = active_count w /\
  size (_actors w') = active_count w.
Proof.
  cbn zeta. split; [done|]. split; [done|]. split.
  { intros i a. unfold get, cleanup_terminated. cbn.
    by rewrite map_lookup_filter_Some. }
  assert (Hf : filter (fun kv : string * nat => is_terminated_ref w (snd kv) = false)
                 (filter (fun kv : string * nat => is_terminated_ref w (snd kv) = false)
                         (_actors w))
               = filter (fun kv : string * nat => is_terminated_ref w (snd kv) = false)
                        (_actors w)).
  { apply map_filter_id. intros i x Hi.
    by apply map_lookup_filter_Some in Hi as [_ Hi]. }
  split; [|split].
  - unfold cleanup_terminated at 1 3.
    change (is_terminated_ref (cleanup_terminated w)) with (is_terminated_ref w).
    change (_actors (cleanup_terminated w))
      with (filter (fun kv : string * nat => is_terminated_ref w (snd kv) = false)
                   (_actors w)).
    rewrite Hf. by destruct w.
  - unfold active_count.
    change (is_terminated_ref (cleanup_terminated w)) with (is_terminated_ref w).
    change (_actors (cleanup_terminated w))
      with (filter (fun kv : string * nat => is_terminated_ref w (snd kv) = false)
                   (_actors w)).
    by rewrite Hf.
  - reflexivity.
Qed.

(** X11: [cleanup_terminated] does not change what the registry lists as
    live: [discover] yields the same actors for every group and
    [get_children] the same children for every parent (listings are compared
    up to order); [all_actors] afterwards lists no Terminated actor. *)
Theorem cleanup_terminated_keeps_listings w :
  let w' := cleanup_terminated w in
  (forall g, discover w' g ≡ₚ discover w g) /\
  (forall p, get_children w' p ≡ₚ get_children w p) /\
  (forall i, i ∈ all_actors w' -> info_state i <> TERMINATED).
Proof.
  cbn zeta. split; [|split].
  - intros g. unfold discover. apply listing_cleanup. by intros x [_ H].
  - intros p. unfold get_children. apply listing_cleanup. by intros x [_ H].
  - intros i Hi. unfold all_actors, values in Hi.
    apply list_elem_of_fmap in Hi as ([x X] & -> & Hx).
    apply list_elem_of_omap in Hx as ([k y] & Hk & Hy).
    apply elem_of_map_to_list in Hk. cbn in Hk, Hy.
    apply map_lookup_filter_Some in Hk as [_ Hk]. cbn in Hk.
    unfold is_terminated_ref in Hk.
    destruct (heap w !! y) as [Y|] eqn:HY; [|done]. cbn in Hy.
    injection Hy as <- <-. cbn. intros Hs. rewrite Hs in Hk. done.
Qed.

Lemma filter_omap {A B} (R : B -> Prop) `{!forall x, Decision (R x)}
    (f : A -> option B) (l : list A) :
  filter R (omap f l)
  = omap (fun x => f x ≫= fun y => if decide (R y) then Some y else None) l.
Proof.
  induction l as [|x l IH]; [done|]. cbn.
  destruct (f x) as [y|]; cbn; [|exact IH].
  destruct (decide (R y)); [f_equal|]; exact IH.
Qed.

(** A listing after one more reference was registered. *)
Lemma listing_insert {B} (Q : nat * Actor -> Prop) `{!forall x, Decision (Q x)}
    (g : nat * Actor -> B) w w' uid a A :
  _actors w' = <[uid := a]> (_actors w) ->
  _actors w !! uid = None ->
  heap w' !! a = Some A ->
  (forall i x, _actors w !! i = Some x -> heap w' !! x = heap w !! x) ->
  map g (filter Q (values w'))
  ≡ₚ (if decide (Q (a, A)) then [g (a, A)] else []) ++ map g (filter Q (values w)).
Proof.
  intros Hact Hfresh HA Hkeep. rewrite !listing_omap, Hact.
  set (F' := fun kv : string * nat => heap w' !! snd kv ≫= _).
  set (F := fun kv : string * nat => heap w !! snd kv ≫= _).
  rewrite map_to_list_insert by done.
  change (omap F' ((uid, a) :: map_to_list (_actors w)))
    with (match F' (uid, a) with
          | Some y => y :: omap F' (map_to_list (_actors w))
          | None => omap F' (map_to_list (_actors w))
          end).
  assert (HF : F' (uid, a) = if decide (Q (a, A)) then Some (g (a, A)) else None).
  { subst F'. cbn. by rewrite HA. }
  rewrite HF. rewrite (omap_ext_in F' F).
  - by destruct (decide (Q (a, A))).
  - intros [i x] Hx. apply elem_of_map_to_list in Hx. subst F' F. cbn.
    by rewrite (Hkeep i x Hx).
Qed.

(** X12: a [spawn] under an id that is not yet registered, in a consistent
    registry, adds exactly one live actor: the new actor is found under its
    id, every other lookup is as before, [discover] lists it in its own group
    beside the actors listed before and lists the other groups as before
    (group isolation), and [active_count] goes up by one. *)
Theorem spawn_is_discoverable cfg parent principal w :
  registry_wf w ->
  get w (fst (uuid4_8 w)) = None ->
  let a := fst (spawn cfg parent principal w) in
  let w' := snd (spawn cfg parent principal w) in
  exists A,
    heap w' !! a = Some A /\ config A = cfg /\ state A = RUNNING /\
    get w' (actor_id A) = Some a /\
    (forall i, i <> actor_id A -> get w' i = get w i) /\
    (forall g, discover w' g
               ≡ₚ (if decide (group cfg = g) then [info A] else []) ++ discover w g) /\
    active_count w' = S (active_count w).
Proof.
  intros Hwf Hfresh.
  pose proof (spawn_spec cfg parent principal w) as (Ha & Hnew & Hold & Hact & _).
  cbn zeta in *. rewrite Ha in *.
  set (w' := snd (spawn cfg parent principal w)) in *.
  set (uid := fst (uuid4_8 w)) in *.
  assert (Hkeep : forall i x, _actors w !! i = Some x -> heap w' !! x = heap w !! x).
  { intros i x Hi. destruct (Hwf i x Hi) as (X & HX & _).
    apply Hold. by eapply lookup_lt_Some. }
  eexists. split; [exact Hnew|]. cbn [config state actor_id].
  split; [done|]. split; [done|]. unfold get in *. rewrite Hact.
  split; [apply lookup_insert_eq|].
  split; [intros i Hi; by rewrite lookup_insert_ne|].
  split.
  - intros g. unfold discover.
    rewrite (listing_insert _ _ w w' uid (length (heap w)) _ Hact Hfresh Hnew Hkeep).
    cbn [snd config state].
    destruct (decide (group cfg = g)) as [Hg|Hg].
    + rewrite decide_True by (split; [done|discriminate]). done.
    + rewrite decide_False by (intros [? _]; done). done.
  - unfold active_count. rewrite Hact.
    rewrite map_filter_insert_True.
    2:{ cbn [snd]. unfold is_terminated_ref. by rewrite Hnew. }
    rewrite map_size_insert_None.
    2:{ apply map_lookup_filter_None. by left. }
    f_equal. f_equal. apply map_filter_ext. intros i x Hi. cbn [snd].
    unfold is_terminated_ref. by rewrite (Hkeep i x Hi).
Qed.

(** What [terminate] leaves of the world, as far as the listings look. *)
Lemma terminate_view in_loop a A result w :
  heap w !! a = Some A ->
  let w' := terminate in_loop a result w in
  _actors w' = _actors w /\
  (exists A', heap w' !! a = Some A' /\ state A' = TERMINATED /\
              same_identity A A') /\
  (forall x X, x <> a -> heap w !! x = Some X ->
     exists X', heap w' !! x = Some X' /\ info X' = info X /\ state X' = state X).
Proof.
  intros HA. cbn zeta.
  destruct (same_population_terminate in_loop a result w) as [Hact _].
  split; [exact Hact|]. split.
  - destruct (terminate_sets in_loop a A result w HA) as (A' & HA' & Hs & _ & Hk).
    exists A'. split; [done|]. split; [done|].
    destruct Hk as (?&?&?&?&_). by repeat split.
  - intros x X Hne HX.
    destruct (acts_terminate a in_loop result w) as (Hh & _).
    destruct (Hh x X HX) as (X' & HX' & (Hi & Hc & Hsp & _) & _ & Ho).
    destruct (Ho Hne) as (Hs & _). exists X'. split; [done|]. split; [|done].
    unfold info. by rewrite Hi, Hc, Hs, Hsp.
Qed.

(** X13: when a registered actor terminates, in a consistent registry, it
    stays registered ([get] still finds it and [all_actors] lists it, as
    Terminated) but leaves every [discover] listing, which otherwise stays
    as it was, entry by entry; [active_count] goes down by one unless the
    actor was Terminated already. *)
Theorem terminated_actor_leaves_discovery in_loop a A result w :
  registry_wf w ->
  heap w !! a = Some A ->
  get w (actor_id A) = Some a ->
  let w' := terminate in_loop a result w in
  get w' (actor_id A) = Some a /\
  (exists A', heap w' !! a = Some A' /\ info A' ∈ all_actors w' /\
              info_id (info A') = actor_id A /\
              info_state (info A') = TERMINATED) /\
  (forall g, discover w' g
             = filter (fun i => info_id i <> actor_id A) (discover w g)) /\
  active_count w' + (if decide (state A = TERMINATED) then 0 else 1)
  = active_count w.
Proof.
  intros Hwf HA Hreg. cbn zeta.
  destruct (terminate_view in_loop a A result w HA) as (Hact & (A' & HA' & Hs' & Hid') & Hoth).
  cbn zeta in *. set (w' := terminate in_loop a result w) in *.
  unfold get in *.
  assert (Hinj : forall i x, _actors w !! i = Some x -> x <> a -> i <> actor_id A).
  { intros i x Hi Hne ->. congruence. }
  split; [by rewrite Hact|]. split.
  { exists A'. split; [done|]. split.
    - unfold all_actors, values. apply list_elem_of_fmap.
      exists (a, A'). split; [done|]. apply list_elem_of_omap.
      exists (actor_id A, a). split; [apply elem_of_map_to_list; by rewrite Hact|].
      cbn. by rewrite HA'.
    - split; [|done]. destruct Hid' as (Hi & _). exact Hi. }
  split.
  - intros g. unfold discover. rewrite !listing_omap, filter_omap, Hact.
    apply omap_ext_in. intros [i x] Hx. apply elem_of_map_to_list in Hx.
    cbn [snd]. destruct (Hwf i x Hx) as (X & HX & HiX).
    destruct (decide (x = a)) as [->|Hne].
    + rewrite HA', HA. cbn [mbind option_bind].
      rewrite decide_False by (intros [_ H]; done).
      destruct (decide (group (config A) = g /\ state A <> TERMINATED)); [|done].
      cbn [mbind option_bind]. by rewrite decide_False by (intros H; by apply H).
    + destruct (Hoth x X Hne HX) as (X' & HX' & Hinfo & Hst).
      rewrite HX', HX. cbn [mbind option_bind].
      assert (Hcfg : group (config X') = group (config X)).
      { by apply (f_equal info_group) in Hinfo. }
      rewrite Hinfo, Hst, Hcfg.
      destruct (decide (group (config X) = g /\ state X <> TERMINATED)); [|done].
      cbn [mbind option_bind]. rewrite decide_True; [done|].
      cbn. rewrite HiX. by eapply Hinj.
  - unfold active_count. rewrite Hact.
    assert (Hother : forall i x, _actors w !! i = Some x -> i <> actor_id A ->
              is_terminated_ref w' x = is_terminated_ref w x).
    { intros i x Hi Hne. destruct (Hwf i x Hi) as (X & HX & HiX).
      assert (x <> a) by (intros ->; congruence).
      destruct (Hoth x X ltac:(done) HX) as (X' & HX' & _ & Hst).
      unfold is_terminated_ref. by rewrite HX', HX, Hst. }
    assert (Hself : is_terminated_ref w' a = true).
    { unfold is_terminated_ref. by rewrite HA', Hs'. }
    destruct (decide (state A = TERMINATED)) as [Hst|Hst].
    + rewrite Nat.add_0_r. f_equal. apply map_filter_ext. intros i x Hi. cbn [snd].
      destruct (decide (i = actor_id A)) as [->|Hne].
      * assert (x = a) by congruence. subst x. rewrite Hself.
        unfold is_terminated_ref. by rewrite HA, Hst.
      * by rewrite (Hother i x Hi Hne).
    + assert (Hdel :
        filter (fun kv : string * nat => is_terminated_ref w' (snd kv) = false) (_actors w)
        = delete (actor_id A)
            (filter (fun kv : string * nat => is_terminated_ref w (snd kv) = false)
                    (_actors w))).
      { rewrite <- map_filter_delete. apply map_filter_strong_ext. intros i x. cbn [snd].
        rewrite lookup_delete_Some. split.
        - intros [Ht Hi]. destruct (decide (i = actor_id A)) as [->|Hne].
          + assert (x = a) by congruence. subst x. congruence.
          + rewrite <- (Hother i x Hi Hne). done.
        - intros [Ht [Hne Hi]]. split; [|done].
          by rewrite (Hother i x Hi (not_eq_sym Hne)). }
      rewrite Hdel, map_size_delete_Some.
      2:{ exists a. apply map_lookup_filter_Some. split; [done|]. cbn.
          unfold is_terminated_ref. rewrite HA. by destruct (state A). }
      assert (Hpos : size (filter (fun kv : string * nat =>
                                     is_terminated_ref w (snd kv) = false) (_actors w)) <> 0).
      { intros H0. apply map_size_empty_iff in H0.
        assert (Hin : filter (fun kv : string * nat =>
                                is_terminated_ref w (snd kv) = false) (_actors w)
                      !! actor_id A = Some a).
        { apply map_lookup_filter_Some. split; [done|]. cbn.
          unfold is_terminated_ref. rewrite HA. by destruct (state A). }
        by rewrite H0, lookup_empty in Hin. }
      lia.
Qed.

End Listings.

Lemma spawn_is_discoverable_witness :
  registry_wf (snd one_principal) /\
  Actors.get (snd one_principal) (fst (Actors.uuid4_8 (snd one_principal))) = None /\
  Actors.active_count butler_and_worker = 2 /\
  exists A, Views.discover butler_and_worker "main" ≡ₚ [Views.info A] /\
            Actors.actor_id A = "0000000b".
Proof.
  assert (H0 : registry_wf empty_world).
  { intros i a Hi. vm_compute in Hi. discriminate. }
  assert (H1 : registry_wf (snd one_principal)).
  { apply registry_wf_spawn, H0. }
  assert (H2 : Actors.get (snd one_principal)
                 (fst (Actors.uuid4_8 (snd one_principal))) = None)
    by (vm_compute; reflexivity).
  split; [exact H1|]. split; [exact H2|].
  destruct (spawn_is_discoverable
              (Actors.mk_config "researcher" "main" "Research the topic." ""
                                ["web_search"; "read_file"] 5 50)
              (Some "0000000a") false (snd one_principal) H1 H2)
    as (A & HA & _ & _ & _ & _ & Hd & Hc).
  fold butler_and_worker in Hd, Hc, HA.
  split; [rewrite Hc; vm_compute; reflexivity|].
  exists A. split.
  - rewrite (Hd "main"). rewrite decide_True by reflexivity.
    assert (Hnil : Views.discover (snd one_principal) "main" = [])
      by (vm_compute; reflexivity).
    by rewrite Hnil.
  - vm_compute in HA. by injection HA as <-.
Defined.

Lemma terminated_actor_leaves_discovery_witness :
  registry_wf butler_and_worker /\
  Actors.heap butler_and_worker !! 1 = Some researcher /\
  Actors.get butler_and_worker "0000000b" = Some 1 /\
  Views.discover (Actors.terminate true 1 (Some "done") butler_and_worker) "main" = [] /\
  Actors.active_count (Actors.terminate true 1 (Some "done") butler_and_worker) = 1.
Proof.
  assert (H0 : registry_wf empty_world).
  { intros i a Hi. vm_compute in Hi. discriminate. }
  assert (H1 : registry_wf butler_and_worker).
  { apply registry_wf_spawn, registry_wf_spawn, H0. }
  assert (H2 : Actors.heap butler_and_worker !! 1 = Some researcher) by reflexivity.
  assert (H3 : Actors.get butler_and_worker "0000000b" = Some 1) by reflexivity.
  split; [exact H1|]. split; [exact H2|]. split; [exact H3|].
  destruct (terminated_actor_leaves_discovery true 1 researcher (Some "done")
              butler_and_worker H1 H2 H3) as (_ & _ & Hd & Hc).
  split.
  - rewrite (Hd "main"). vm_compute. reflexivity.
  - assert (H4 : Actors.active_count butler_and_worker = 2) by (vm_compute; reflexivity).
    rewrite H4, decide_False in Hc by discriminate. lia.
Defined.

(** ** The context window of an actor *)

Section Context.
Import Actors Tools Views.

Lemma slice_last_suffix {A} (k : Z) (l : list A) :
  exists older, l = older ++ slice_last k l.
Proof.
  unfold slice_last. destruct (0 <? k)%Z.
  - exists (take (length l - Z.to_nat k) l). by rewrite take_drop.
  - exists (take (Z.to_nat (- k)) l). by rewrite take_drop.
Qed.

(** X14: [get_context_messages] turns a suffix of the actor's history, in
    order, into chat entries: a message the actor sent itself becomes an
    "assistant" entry with the content as it is, any other message a "user"
    entry whose content is prefixed with "[From <name>]: ", the name being
    the sender's configured name when the sender is registered and the
    sender's id otherwise.  With [max_messages >= 1] the suffix holds the
    last [max_messages] messages (all of them when there are fewer); with
    [max_messages = 0] nothing is cut off: the whole history is returned. *)
Theorem context_window a A w :
  heap w !! a = Some A ->
  let ctx := get_context_messages w a in
  let k := max_messages (config A) in
  exists older recent,
    _messages A = older ++ recent /\
    Forall2 (fun m e =>
               (sender m = actor_id A -> e = ("assistant", content m)) /\
               (sender m <> actor_id A ->
                e = ("user", "[From " +:+ sender_name w (sender m) +:+ "]: "
                             +:+ content m)))
            recent ctx /\
    ((1 <= k)%Z -> length recent = Nat.min (length (_messages A)) (Z.to_nat k)) /\
    (k = 0%Z -> older = []).
Proof.
  intros HA. cbn zeta. unfold get_context_messages. rewrite HA.
  set (k := max_messages (config A)).
  destruct (slice_last_suffix k (_messages A)) as (older & Hsplit).
  exists older, (slice_last k (_messages A)). split; [exact Hsplit|]. split.
  - clear Hsplit.
    induction (slice_last k (_messages A)) as [|m ms IH]; [constructor|].
    cbn [map]. constructor; [|exact IH]. split.
    + intros Hs. apply String.eqb_eq in Hs. by rewrite Hs.
    + intros Hs. apply String.eqb_neq in Hs. by rewrite Hs.
  - split.
    + intros Hk. unfold slice_last. subst k.
      destruct (Z.ltb_spec 0 (max_messages (config A))); [|exfalso; lia].
      rewrite length_drop. lia.
    + intros Hk. unfold slice_last in Hsplit. subst k. rewrite Hk in Hsplit. cbn in Hsplit.
      apply (f_equal length) in Hsplit. rewrite length_app in Hsplit.
      change (Z.to_nat (- 0)) with 0 in Hsplit. rewrite drop_0 in Hsplit.
      destruct older; [done|]. cbn in Hsplit. lia.
Qed.

End Context.

Lemma context_window_witness :
  Actors.heap worker_done !! 0 = Some worker_done_butler /\
  Views.get_context_messages worker_done 0
  = [("user", "[From researcher]: [TERMINATED] researcher finished: done")].
Proof.
  assert (H1 : Actors.heap worker_done !! 0 = Some worker_done_butler) by reflexivity.
  split; [exact H1|].
  pose proof (context_window 0 worker_done_butler worker_done H1) as Hw.
  cbn zeta in Hw. remember (Views.get_context_messages worker_done 0) as ctx.
  destruct Hw as (older & recent & Hsplit & Hall & Hlen & _).
  assert (Hm : Actors._messages worker_done_butler
               = [Actors.mk_message "0000000c" "0000000b" "0000000a"
                    "[TERMINATED] researcher finished: done" None
                    (Actors.mk_datetime 2026 1 2 3 4 5 0)]) by reflexivity.
  rewrite Hm in Hsplit, Hlen.
  specialize (Hlen ltac:(vm_compute; discriminate)).
  destruct recent as [|m [|m' rest]]; [discriminate Hlen| |discriminate Hlen].
  destruct older as [|o older]; [|destruct older; discriminate Hsplit].
  injection Hsplit as <-.
  inversion Hall as [|m0 e ms es [_ He] Hrest]; subst.
  inversion Hrest; subst.
  rewrite (He ltac:(discriminate)). reflexivity.
Defined.

(** ** Runs that end at once *)

Section RunnerEdges.
Import Actors Tools Runner.

Lemma is_terminated_ref_false a A w :
  heap w !! a = Some A -> state A <> TERMINATED -> is_terminated_ref w a = false.
Proof.
  intros HA Hs. unfold is_terminated_ref. rewrite HA. by destruct (state A).
Qed.

Lemma is_terminated_ref_true a A w :
  heap w !! a = Some A -> state A = TERMINATED -> is_terminated_ref w a = true.
Proof. intros HA Hs. unfold is_terminated_ref. by rewrite HA, Hs. Qed.

(** X15: when the first [llm.chat] of a run raises, whatever tool calls the
    model made before, the run ends in that turn: the actor is Terminated
    after one turn, and the string returned, which is also the stored
    result, is "Error: " followed by the text of the exception. *)
Theorem llm_error_ends_run llm a A w e :
  heap w !! a = Some A ->
  state A <> TERMINATED ->
  (1 <= max_turns (config A))%Z ->
  outcome (llm 0 (initial_message A)) = Raises e ->
  fst (run None llm a w) = "Error: " +:+ e /\
  exists A', heap (snd (run None llm a w)) !! a = Some A' /\
             state A' = TERMINATED /\ _turns A' = 1%Z /\
             _result A' = Some ("Error: " +:+ e).
Proof.
  intros HA Hst Hmax Hout. unfold run. rewrite HA.
  destruct (Z.to_nat (max_turns (config A))) as [|n] eqn:Hn; [lia|].
  cbn [turns_loop].
  change (0 + 1)%Z with 1%Z. change (0 =? 0)%Z with true. cbn iota.
  set (w1 := update a (set_turns 1) w).
  assert (HA1 : heap w1 !! a = Some (set_turns 1 A)).
  { unfold w1. by rewrite lookup_update, decide_True, HA. }
  rewrite (is_terminated_ref_false a _ w1 HA1) by exact Hst.
  unfold drain_inbox. rewrite HA1.
  set (w2 := update a (set_inbox []) w1).
  assert (HA2 : heap w2 !! a = Some (set_inbox [] (set_turns 1 A))).
  { unfold w2. by rewrite lookup_update, decide_True, HA1. }
  change (Z.to_nat 0) with 0. rewrite Hout.
  set (w3 := exec_calls a (calls (llm 0 (initial_message A))) w2).
  destruct (world_keeps_exec_calls a (calls (llm 0 (initial_message A))) w2 a _ HA2)
    as (A3 & HA3 & Hk3).
  fold w3 in HA3.
  destruct (terminate_sets true a A3 (Some ("Error: " +:+ e)) w3 HA3)
    as (A4 & HA4 & Hs4 & Hr4 & Hk4).
  cbn [fst snd]. rewrite (is_terminated_ref_true a A4 _ HA4 Hs4).
  rewrite HA4, Hr4.
  assert (Hres : stored_result A3 (Some ("Error: " +:+ e)) = "Error: " +:+ e)
    by reflexivity.
  rewrite Hres. split; [reflexivity|].
  exists A4. split; [done|]. split; [done|]. split; [|done].
  destruct Hk3 as (_&_&_&_&Ht3), Hk4 as (_&_&_&_&Ht4). rewrite Ht4, Ht3. done.
Qed.

(** X16: runs in which the model is never consulted.  Run on an actor that
    is already Terminated (with a turn limit of at least 1), the runner
    returns the stored result and changes nothing but the turn counter, which
    it sets to 1.  Run on a live actor whose turn limit is zero or negative,
    the loop body never runs, [response] is read unbound, and the actor is
    terminated with a "Runner error: ..." result instead of the "Max turns
    reached" one. *)
Theorem model_not_consulted llm a A w :
  heap w !! a = Some A ->
  (forall r, state A = TERMINATED -> _result A = Some r -> Py.truthy r = true ->
             (1 <= max_turns (config A))%Z ->
             run None llm a w = (r, update a (set_turns 1) w)) /\
  (state A <> TERMINATED -> (max_turns (config A) <= 0)%Z ->
   run None llm a w
   = ("Runner error: " +:+ unbound_response,
      terminate true a (Some ("Runner error: " +:+ unbound_response)) w)).
Proof.
  intros HA. split.
  - intros r Hst Hr Ht Hmax. unfold run. rewrite HA.
    destruct (Z.to_nat (max_turns (config A))) as [|n] eqn:Hn; [lia|].
    cbn [turns_loop]. change (0 + 1)%Z with 1%Z.
    set (w1 := update a (set_turns 1) w).
    assert (HA1 : heap w1 !! a = Some (set_turns 1 A)).
    { unfold w1. by rewrite lookup_update, decide_True, HA. }
    rewrite (is_terminated_ref_true a _ w1 HA1) by exact Hst.
    rewrite (is_terminated_ref_true a _ w1 HA1) by exact Hst.
    rewrite HA1. cbn [_result set_turns]. rewrite Hr. unfold Py.str_or. by rewrite Ht.
  - intros Hst Hmax. unfold run. rewrite HA.
    replace (Z.to_nat (max_turns (config A))) with 0 by lia.
    cbn [turns_loop]. rewrite (is_terminated_ref_false a A w HA Hst).
    destruct (terminate_sets true a A (Some ("Runner error: " +:+ unbound_response)) w HA)
      as (A' & HA' & _ & Hr & _).
    rewrite HA', Hr. reflexivity.
Qed.

End RunnerEdges.

Lemma llm_error_ends_run_witness :
  Actors.heap slow_worker_world !! 1 = Some slow_worker /\
  fst (Runner.run None (fun _ _ => Tools.mk_chat [Tools.CallTerminate "all done"]
                                     (Tools.Raises "rate limit"))
                  1 slow_worker_world)
  = "Error: rate limit".
Proof.
  assert (H1 : Actors.heap slow_worker_world !! 1 = Some slow_worker) by reflexivity.
  split; [exact H1|].
  destruct (llm_error_ends_run
              (fun _ _ => Tools.mk_chat [Tools.CallTerminate "all done"]
                            (Tools.Raises "rate limit"))
              1 slow_worker slow_worker_world "rate limit" H1
              ltac:(discriminate) ltac:(vm_compute; discriminate) eq_refl) as (Hr & _).
  exact Hr.
Defined.

Lemma model_not_consulted_witness :
  Actors.heap worker_done !! 1 = Some worker_done_worker /\
  Runner.run None still_working 1 worker_done
  = ("done", Actors.update 1 (Actors.set_turns 1) worker_done).
Proof.
  assert (H1 : Actors.heap worker_done !! 1 = Some worker_done_worker) by reflexivity.
  split; [exact H1|].
  destruct (model_not_consulted still_working 1 worker_done_worker worker_done H1)
    as (Hdone & _).
  exact (Hdone "done" eq_refl eq_refl eq_refl ltac:(vm_compute; discriminate)).
Defined.

(** ** The conversation manager: queueing, coalescing, the processing loop *)

Section ManagerFacts.
Import Conversation Manager.
Context {V : Type}.

Lemma submit_all_cons m l (st : ConversationState V) :
  submit_all (m :: l) st
  = submit_all l (snd (Conversation.add_message (fst (fst m)) (snd (fst m)) (snd m) st)).
Proof. reflexivity. Qed.

Lemma pending_submit_all l (st : ConversationState V) :
  pending_messages (submit_all l st) = pending_messages st ++ map to_pending l.
Proof.
  revert st. induction l as [|m l IH]; intros st.
  - cbn. by rewrite app_nil_r.
  - rewrite submit_all_cons, IH. unfold Conversation.add_message.
    destruct (is_processing st); cbn [snd pending_messages with_pending map];
      rewrite <- app_assoc; reflexivity.
Qed.


Lemma combined_of_state (st : ConversationState V) :
  fst (get_combined_message st) = combined_of (pending_messages st).
Proof.
  unfold combined_of, get_combined_message. cbn [pending_messages].
  by destruct (pending_messages st) as [|m [|m' l]].
Qed.

Lemma pending_after_combine (st : ConversationState V) :
  pending_messages (snd (get_combined_message st)) = [].
Proof.
  unfold get_combined_message.
  by destruct (pending_messages st) as [|m [|m' l]] eqn:H.
Qed.

Lemma combined_of_contents (batch : list (PendingMessage V)) :
  fst (combined_of batch) = Py.join SEPARATOR (map content batch).
Proof. unfold combined_of, get_combined_message. by destruct batch as [|m [|m' l]]. Qed.

(** X17: queueing and draining compose.  After any sequence of submissions
    to a state with nothing pending, [get_combined_message] returns the
    submitted contents in order, joined by the separator (the one content
    as it is when there is one), and empties the queue; asked again at once
    it returns the empty string and an empty dictionary and changes
    nothing. *)
Theorem submit_then_combine (st : ConversationState V) l :
  pending_messages st = [] ->
  let st1 := submit_all l st in
  let st2 := snd (get_combined_message st1) in
  length (pending_messages st1) = length l /\
  fst (fst (get_combined_message st1))
  = Py.join SEPARATOR (map (fun m => fst (fst m)) l) /\
  pending_messages st2 = [] /\
  get_combined_message st2 = (EmptyString, ∅, st2).
Proof.
  intros Hp. cbn zeta. rewrite combined_of_state, pending_submit_all, Hp.
  cbn [app]. rewrite length_map, combined_of_contents, map_map.
  split; [done|]. split; [done|].
  pose proof (pending_after_combine (submit_all l st)) as He.
  split; [exact He|]. unfold get_combined_message at 1. by rewrite He.
Qed.

(** X18: [ConversationManager.add_message] always returns [True], queues the
    message on the chat (creating its state when the chat is new) and leaves
    every other chat alone.  It starts a processing task exactly when the
    chat is not being processed and a callback was passed, and then marks the
    chat as processing; for a chat that is being processed it starts nothing
    and raises the interrupt flag instead, so a chat never has two
    processing loops. *)
Theorem manager_add_message_spec (states : gmap Z (ConversationState V))
    c u txt meta now cb :
  let ret := fst (fst (Manager.add_message states c u txt meta now cb)) in
  let started := snd (fst (Manager.add_message states c u txt meta now cb)) in
  let states' := snd (Manager.add_message states c u txt meta now cb) in
  ret = true /\
  started = (cb && negb (is_processing_chat states c)) /\
  is_processing_chat states' c = (is_processing_chat states c || cb) /\
  get_pending_count states' c = S (get_pending_count states c) /\
  (forall c', c' <> c -> states' !! c' = states !! c') /\
  exists st', states' !! c = Some st' /\
              (is_processing_chat states c = true -> interrupt_event st' = true) /\
              (is_processing_chat states c = false ->
               interrupt_event st' = match states !! c with
                                     | Some st => interrupt_event st
                                     | None => false
                                     end).
Proof.
  cbn zeta. unfold Manager.add_message, get_or_create_state, is_processing_chat,
    get_pending_count, Conversation.add_message.
  destruct (states !! c) as [st|] eqn:Hc;
    [destruct (is_processing st) eqn:Hp|]; destruct cb;
    cbn [fst snd is_processing with_pending with_processing pending_messages
         interrupt_event];
    rewrite ?Hp; cbn [fst snd]; rewrite ?lookup_insert_eq;
    cbn [is_processing with_pending with_processing pending_messages interrupt_event
         andb orb negb length];
    rewrite ?Hp, ?length_app; cbn [length];
    (split; [done|]); (split; [done|]); (split; [done|]); (split; [lia|]);
    (split; [intros c' Hne; by rewrite ?lookup_insert_ne by done|]);
    (eexists; split; [reflexivity|]); split; intros; try done.
Qed.



Lemma process_while_head (cb : Callback V) fuel i st :
  pending_messages st = [] -> process_while cb (S fuel) i st = Some (Finished, [], st).
Proof. intros H. cbn [process_while]. by rewrite H. Qed.

Lemma process_while_total (cb : Callback V) k :
  (forall i m d, k <= i -> arrivals (cb i m d) = []) ->
  forall fuel i st, (k - i) + 2 <= fuel -> is_Some (process_while cb fuel i st).
Proof.
  intros Hq. induction fuel as [|fuel IH]; intros i st Hf; [lia|].
  cbn [process_while].
  destruct (pending_messages st) as [|m0 ms] eqn:Hp; [done|].
  set (st1 := with_interrupt false st).
  pose proof (pending_after_combine st1) as He.
  destruct (get_combined_message st1) as [[combined metadata] st2]. cbn [snd] in He.
  destruct (Py.truthy combined); cbn [negb]; [|done].
  set (r := cb i combined metadata).
  destruct (ending r); try done.
  - set (st4 := if interrupt_event _ then _ else _).
    assert (Hp4 : pending_messages st4 = map to_pending (arrivals r)).
    { unfold st4. destruct (interrupt_event _);
        cbn [with_interrupt pending_messages]; by rewrite pending_submit_all, He. }
    destruct (decide (k <= i)) as [Hk|Hk].
    + unfold r in Hp4. rewrite (Hq i combined metadata Hk) in Hp4.
      destruct fuel as [|fuel']; [lia|].
      by rewrite (process_while_head cb fuel' (S i) st4 Hp4).
    + destruct (IH (S i) st4 ltac:(lia)) as [[[e1 c1] s1] ->]. done.
  - set (st4 := if interrupt_event _ then _ else _).
    assert (Hp4 : pending_messages st4 = map to_pending (arrivals r)).
    { unfold st4. destruct (interrupt_event _);
        cbn [with_interrupt pending_messages]; by rewrite pending_submit_all, He. }
    destruct (decide (k <= i)) as [Hk|Hk].
    + unfold r in Hp4. rewrite (Hq i combined metadata Hk) in Hp4.
      destruct fuel as [|fuel']; [lia|].
      by rewrite (process_while_head cb fuel' (S i) st4 Hp4).
    + destruct (IH (S i) st4 ltac:(lia)) as [[[e1 c1] s1] ->]. done.
Qed.

Lemma process_while_calls (cb : Callback V) fuel : forall i st e calls st',
  process_while cb fuel i st = Some (e, calls, st') -> length calls <= fuel.
Proof.
  induction fuel as [|fuel IH]; intros i st e calls st' H; [discriminate|].
  cbn [process_while] in H.
  destruct (pending_messages st); [injection H as <- <- <-; cbn [length]; lia|].
  destruct (get_combined_message (with_interrupt false st)) as [[combined metadata] st2].
  destruct (Py.truthy combined); cbn [negb] in H;
    [|injection H as <- <- <-; cbn [length]; lia].
  destruct (ending (cb i combined metadata)).
  - destruct (process_while cb fuel (S i) _) as [[[e1 c1] s1]|] eqn:Hr; [|discriminate].
    injection H as <- <- <-. specialize (IH _ _ _ _ _ Hr). cbn [length]. lia.
  - destruct (process_while cb fuel (S i) _) as [[[e1 c1] s1]|] eqn:Hr; [|discriminate].
    injection H as <- <- <-. specialize (IH _ _ _ _ _ Hr). cbn [length]. lia.
  - injection H as <- <- <-. cbn [length]. lia.
Qed.

(** X20: the processing loop comes to an end once submissions stop.  If
    from the [k]-th call of the callback on nothing is submitted during a
    call, [_process_loop] finishes, whatever its starting state: [k + 2]
    rounds of the loop are enough, and the callback is called at most once
    per round. *)
Theorem process_loop_finishes (cb : Callback V) k st :
  (forall i m d, k <= i -> arrivals (cb i m d) = []) ->
  forall fuel, k + 2 <= fuel ->
    exists e calls st', _process_loop cb fuel st = Some (e, calls, st') /\
                        length calls <= fuel.
Proof.
  intros Hq fuel Hf. unfold _process_loop.
  destruct (process_while_total cb k Hq fuel 0 st ltac:(lia)) as [[[e calls] st'] H].
  rewrite H. exists e, calls, (with_processing false st'). split; [done|].
  by eapply process_while_calls.
Qed.

End ManagerFacts.

Lemma submit_then_combine_witness :
  fst (fst (Conversation.get_combined_message
              (Manager.submit_all
                 [("a", None, Actors.mk_datetime 2026 1 2 3 4 5 0);
                  ("b", None, Actors.mk_datetime 2026 1 2 3 4 6 0)]
                 (Conversation.mk_state (V := string) 7 1 [] true false))))
  = "a" +:+ Conversation.SEPARATOR +:+ "b".
Proof.
  destruct (submit_then_combine (Conversation.mk_state (V := string) 7 1 [] true false)
              [("a", None, Actors.mk_datetime 2026 1 2 3 4 5 0);
               ("b", None, Actors.mk_datetime 2026 1 2 3 4 6 0)] eq_refl)
    as (_ & Hc & _).
  rewrite Hc. reflexivity.
Defined.


Lemma process_loop_finishes_witness :
  exists e calls st',
    Manager._process_loop busy_callback 3 three_pending = Some (e, calls, st') /\
    length calls <= 3.
Proof.
  destruct (process_loop_finishes busy_callback 1 three_pending) with (fuel := 3)
    as (e & calls & st' & H & Hl).
  - intros [|i] m d Hi; [lia|reflexivity].
  - lia.
  - exists e, calls, st'. split; [exact H|exact Hl].
Defined.

(** ** Memory recall *)

Section RecallFacts.
Import Hippocampus Recall.

Variable json_loads : string -> option JSON.
Variable re_search_braces : string -> option string.
Variable agent : option string.
Variable create : string -> option (list ReplyMessage).
Variable str_of_json : JSON -> string.
Variable archival_search : JSON -> option (list string).
Variable conversation_search : JSON -> option (list ConversationHit).

Lemma length_app_str s t : String.length (s +:+ t) = String.length s + String.length t.
Proof. induction s as [|c s IH]; [done|]. rewrite str_app_cons. cbn. by rewrite IH. Qed.

Lemma length_slice_to n s : String.length (Py.slice_to n s) <= n.
Proof.
  revert s. induction n as [|n IH]; intros [|c s]; cbn; try lia.
  specialize (IH s). lia.
Qed.

Lemma truthy_join_cons sep x l :
  Py.truthy x = true -> Py.truthy (Py.join sep (x :: l)) = true.
Proof.
  intros Hx. unfold Py.join. destruct x as [|c x]; [done|].
  destruct l; [done|]. cbn [String.concat]. by rewrite str_app_cons.
Qed.

Lemma search_results_truthy query :
  Forall (fun r => Py.truthy r = true)
         (search_results archival_search conversation_search query).
Proof.
  unfold search_results. apply Forall_app. split.
  - destruct (archival_search query) as [ps|]; [|constructor].
    apply Forall_forall. intros r Hr. apply list_elem_of_fmap in Hr as (c & -> & _).
    done.
  - destruct (conversation_search query) as [hs|]; [|constructor].
    apply Forall_forall. intros r Hr. apply list_elem_of_fmap in Hr as (h & -> & _).
    done.
Qed.

Lemma compress_memories_cases memories query :
  _compress_memories agent create str_of_json memories query = memories \/
  exists t, _compress_memories agent create str_of_json memories query
            = "[Compressed summary] " +:+ t.
Proof.
  unfold _compress_memories. destruct agent; [|by left].
  destruct (create _); [|by left]. destruct (summary_text _); [|by left].
  right. by eexists.
Qed.

Lemma search_memories_empty query :
  search_memories agent create str_of_json archival_search conversation_search query = ""
  <-> search_results archival_search conversation_search query = [].
Proof.
  unfold search_memories.
  pose proof (search_results_truthy query) as Htr.
  destruct (search_results archival_search conversation_search query) as [|r rs]; [done|].
  assert (Hc : Py.truthy (Py.join (LF +:+ LF) (r :: rs)) = true).
  { apply truthy_join_cons. by inversion Htr. }
  split; [|done]. intros Hout. exfalso.
  destruct (3000 <? String.length (Py.join (LF +:+ LF) (r :: rs))).
  - destruct (compress_memories_cases (Py.join (LF +:+ LF) (r :: rs)) query)
      as [He|[t He]]; rewrite He in Hout.
    + by rewrite Hout in Hc.
    + discriminate.
  - by rewrite Hout in Hc.
Qed.

(** X21: [search_memories] returns the empty string exactly when neither
    search yields a hit (a search that raises counts as yielding none and
    does not hide the hits of the other).  It collects at most ten entries,
    five from each search.  When the entries joined by blank lines take at
    most 3000 characters they are returned as they are, without consulting
    the model; otherwise the result is that same text (when compression
    fails) or a text that starts with "[Compressed summary] ". *)
Theorem search_memories_spec query :
  let results := search_results archival_search conversation_search query in
  let combined := Py.join (LF +:+ LF) results in
  let out := search_memories agent create str_of_json archival_search
                             conversation_search query in
  (out = "" <-> results = []) /\
  length results <= 10 /\
  (String.length combined <= 3000 -> out = combined) /\
  (out = combined \/ exists t, out = "[Compressed summary] " +:+ t).
Proof.
  cbn zeta. split; [apply search_memories_empty|].
  assert (Hlen : length (search_results archival_search conversation_search query) <= 10).
  { unfold search_results. rewrite length_app.
    destruct (archival_search query), (conversation_search query);
      rewrite ?length_map, ?length_take; cbn [length]; lia. }
  split; [exact Hlen|]. unfold search_memories.
  destruct (search_results archival_search conversation_search query) as [|r rs].
  { split; [done|]. by left. }
  set (combined := Py.join (LF +:+ LF) (r :: rs)).
  split.
  - intros Hshort. destruct (Nat.ltb_spec 3000 (String.length combined)); [lia|done].
  - destruct (3000 <? String.length combined);
      [apply compress_memories_cases|by left].
Qed.

(** X22: [augment_message] never loses or alters the user's message: what
    it returns starts with the message, and is the message itself unless a
    recall block was appended.  Nothing is appended when the hippocampus is
    disabled, when its agent cannot be obtained, when the model's answer
    does not decode to an object, when that object's [should_recall] or
    [search_query] entry is missing or falsy, or when the search finds
    nothing; and when a block is appended it holds the recalled memories,
    which are not empty, under the reason given. *)
Theorem augment_message_appends enabled new_message recent :
  let out := augment_message json_loads re_search_braces agent create str_of_json
                             archival_search conversation_search
                             enabled new_message recent in
  let analysis := analyze_for_recall json_loads re_search_braces agent create
                                     enabled new_message recent in
  String.prefix new_message out = true /\
  (enabled = false \/ agent = None \/ analysis = None ->
   out = new_message) /\
  (forall fields, analysis = Some fields ->
     json_truthy (dict_get fields "should_recall" JNull) = false \/
     json_truthy (dict_get fields "search_query" JNull) = false \/
     search_results archival_search conversation_search
                    (dict_get fields "search_query" JNull) = [] ->
     out = new_message) /\
  (out = new_message \/
   exists fields memories,
     analysis = Some fields /\
     memories = search_memories agent create str_of_json archival_search
                                conversation_search
                                (dict_get fields "search_query" JNull) /\
     memories <> "" /\
     out = new_message +:+ LF +:+ LF +:+ "---" +:+ LF
           +:+ "[Memory recall: "
           +:+ format_value str_of_json
                 (dict_get fields "reason" (JString "potentially relevant context"))
           +:+ "]" +:+ LF +:+ memories +:+ LF +:+ "[End of recall]").
Proof.
  cbn zeta. unfold augment_message.
  assert (Hself : String.prefix new_message new_message = true).
  { rewrite <- (str_app_nil_r new_message) at 2. apply prefix_app. }
  destruct enabled; cbn [negb].
  2:{ split; [done|]. split; [done|]. split; [done|]. by left. }
  destruct (analyze_for_recall json_loads re_search_braces agent create true
              new_message recent) as [fields|] eqn:Han.
  2:{ split; [done|]. split; [done|]. split; [done|]. by left. }
  assert (Hag : agent <> None).
  { intros Hn. unfold analyze_for_recall in Han. rewrite Hn in Han. discriminate. }
  destruct (json_truthy (JObject fields)) eqn:Ho; cbn [negb orb].
  2:{ split; [done|]. split; [done|]. split; [done|]. by left. }
  destruct (json_truthy (dict_get fields "should_recall" JNull)) eqn:Hs; cbn [negb orb].
  2:{ split; [done|]. split; [done|]. split; [done|]. by left. }
  destruct (json_truthy (dict_get fields "search_query" JNull)) eqn:Hq; cbn [negb orb].
  2:{ split; [done|]. split; [done|]. split; [done|]. by left. }
  pose proof (search_memories_empty (dict_get fields "search_query" JNull)) as Hempty.
  destruct (Py.truthy (search_memories agent create str_of_json archival_search
                         conversation_search (dict_get fields "search_query" JNull)))
    eqn:Hm; cbn [negb].
  - split; [apply prefix_app|]. split.
    { intros [H|[H|H]]; [discriminate|done|discriminate]. }
    split.
    { intros f Hf [H|[H|H]]; injection Hf as <-; [congruence|congruence|].
      apply Hempty in H. by rewrite H in Hm. }
    right. eexists fields, _. split; [done|]. split; [reflexivity|]. split; [|done].
    intros He. by rewrite He in Hm.
  - split; [done|]. split; [done|]. split; [done|]. by left.
Qed.

(** X23: the context that goes into the recall prompt is bounded whatever
    the length of the history: it has a line for each of the last five
    messages only (or says "(new conversation)" when there is none), and each
    line consists of the role (or "unknown"), a colon, and at most 203
    characters of content: contents longer than 200 characters are cut to
    their first 200 and marked with "...". *)
Theorem recall_context_bounded recent :
  exists lines,
    length lines = Nat.min 5 (length recent) /\
    format_context recent
    = (match lines with [] => "(new conversation)" | _ => Py.join LF lines end) /\
    Forall2 (fun m line =>
               exists content,
                 line = default "unknown" (role m) +:+ ": " +:+ content /\
                 String.length content <= 203)
            (Views.slice_last 5 recent) lines.
Proof.
  exists (map context_line (Views.slice_last 5 recent)).
  split; [|split; [unfold format_context;
                     by destruct (map context_line (Views.slice_last 5 recent))|]].
  - rewrite length_map. unfold Views.slice_last.
    change (0 <? 5)%Z with true. cbn iota. rewrite length_drop.
    change (Z.to_nat 5) with 5. lia.
  - induction (Views.slice_last 5 recent) as [|m ms IH]; [constructor|].
    cbn [map]. constructor; [|exact IH]. unfold context_line.
    eexists. split; [reflexivity|].
    destruct (Nat.ltb_spec 200 (String.length
               match recent_content m with
               | Some (ContextStr s) => s
               | Some (ContextParts parts) => joined_parts parts
               | None => ""
               end)) as [Hl|Hl].
    + rewrite length_app_str. pose proof (length_slice_to 200
        match recent_content m with
        | Some (ContextStr s) => s
        | Some (ContextParts parts) => joined_parts parts
        | None => ""
        end). cbn [String.length]. lia.
    + lia.
Qed.

End RecallFacts.

(** ** Amygdala: seed records, active patterns, notifications *)

Section SeedFacts.
Import Actors Amygdala.

Lemma length_last_n {A} n (l : list A) : length (Py.last_n n l) <= n.
Proof. unfold Py.last_n. rewrite length_drop. lia. Qed.

Lemma elem_of_last_n {A} n (l : list A) x : In x (Py.last_n n l) -> In x l.
Proof.
  unfold Py.last_n. intros H. apply list_elem_of_In.
  apply list_elem_of_In in H. by eapply subseteq_drop.
Qed.

Lemma truthy_slice_to n s :
  Py.truthy s = true -> Py.truthy (Py.slice_to (S n) s) = true.
Proof. by destruct s. Qed.

(** What holds of the record whichever cues the line has. *)
Lemma seed_of_cues_facts line u n p m r :
  let s := seed_of_cues line u n p m r in
  tags s <> [] /\
  high_arousal s = (75 <=? arousal s)%Z /\
  (tags s = ["neutral"] ->
   valence s = 0%Z /\ arousal s = 20%Z /\ high_arousal s = false) /\
  (high_arousal s = true ->
   exists rest, tags s = "urgency" :: rest \/ tags s = "negative_affect" :: rest).
Proof.
  destruct u, n, p, m, r; vm_compute;
    (split; [discriminate|]); (split; [reflexivity|]);
    (split; [intros H; first [discriminate H | by repeat split]|]);
    intros H; first [discriminate H | eexists; by left | eexists; by right].
Qed.

Lemma seed_of_cues_signal line u n p m r :
  signal (seed_of_cues line u n p m r) = Py.slice_to 180 line.
Proof. by destruct u, n, p, m, r. Qed.

Lemma signal_lines_truthy recent_signals :
  Forall (fun l => Py.truthy l = true) (signal_lines recent_signals).
Proof.
  unfold signal_lines. apply Forall_forall. intros l Hl.
  apply list_elem_of_In, elem_of_last_n, filter_In in Hl. tauto.
Qed.

(** X24: whatever the signal text, [_heuristic_seed_tags] builds at most
    eight records, for the last eight non-blank lines.  Each record carries
    a non-empty signal of at most 180 characters, a valence between -1 and 1
    and an arousal between 0 and 1 (as hundredths), at least one tag, and a
    [high_arousal] flag that agrees with the rounded arousal it reports
    (true exactly from 0.75 on); the tag "neutral" stands alone and goes with
    valence 0, arousal 0.2 and no high arousal. *)
Theorem heuristic_seeds_bounded recent_signals :
  length (heuristic_seeds recent_signals) <= 8 /\
  Forall (fun s =>
            Py.truthy (signal s) = true /\
            String.length (signal s) <= 180 /\
            (-100 <= valence s <= 100)%Z /\
            (0 <= arousal s <= 100)%Z /\
            tags s <> [] /\
            high_arousal s = (75 <=? arousal s)%Z /\
            (tags s = ["neutral"] ->
             valence s = 0%Z /\ arousal s = 20%Z /\ high_arousal s = false))
         (heuristic_seeds recent_signals).
Proof.
  unfold heuristic_seeds. split.
  { rewrite length_map. unfold signal_lines. apply length_last_n. }
  pose proof (signal_lines_truthy recent_signals) as Ht.
  induction Ht as [|l ls Hl _ IH]; [constructor|].
  cbn [map]. constructor; [|exact IH]. unfold seed_of_line.
  set (u := Py.any_in urgency_cues (Py.lower l)).
  set (n := has_negative_cue (Py.lower l)).
  set (p := has_positive_cue (Py.lower l)).
  set (m := p && _).
  set (r := Py.any_in risk_cues (Py.lower l)).
  destruct (seed_of_cues_clamped l u n p m r) as [Hv Ha].
  destruct (seed_of_cues_facts l u n p m r) as (Hne & Hh & Hn & _).
  rewrite seed_of_cues_signal.
  split; [apply truthy_slice_to, Hl|].
  split; [apply length_slice_to|]. done.
Qed.

Lemma deque_append_length {A} n (x : A) d :
  length (deque_append n x d) <= n.
Proof. apply length_last_n. Qed.

Lemma deque_append_In {A} n (x y : A) d :
  In y (deque_append n x d) -> In y d \/ y = x.
Proof.
  intros H. apply elem_of_last_n, in_app_or in H as [H|[H|[]]]; auto.
Qed.

Lemma update_active_patterns_cons s seeds d :
  _update_active_patterns (s :: seeds) d
  = _update_active_patterns seeds
      (if high_arousal s then
         match tags s with
         | t :: _ => deque_append FLASHBACK_LOOKBACK t d
         | [] => d
         end
       else d).
Proof. reflexivity. Qed.

Lemma update_active_patterns_spec seeds : forall patterns,
  Forall (fun s => high_arousal s = true ->
            exists rest, tags s = "urgency" :: rest \/
                         tags s = "negative_affect" :: rest) seeds ->
  let patterns' := _update_active_patterns seeds patterns in
  length patterns' <= Nat.max (length patterns) FLASHBACK_LOOKBACK /\
  (forall t, In t patterns' ->
             In t patterns \/ t = "urgency" \/ t = "negative_affect") /\
  (Forall (fun s => high_arousal s = false) seeds -> patterns' = patterns).
Proof.
  induction seeds as [|s seeds IH]; intros patterns Hall.
  { cbn. split; [lia|]. split; [auto|done]. }
  inversion Hall as [|? ? Hs Hrest]; subst.
  cbn zeta. rewrite update_active_patterns_cons.
  destruct (high_arousal s) eqn:Hh.
  - destruct (Hs eq_refl) as (rest & Ht).
    assert (Hfirst : exists t0, tags s = t0 :: rest /\
                                (t0 = "urgency" \/ t0 = "negative_affect")).
    { destruct Ht as [Ht|Ht]; eexists; split; eauto. }
    destruct Hfirst as (t0 & Ht0 & Hcase). rewrite Ht0.
    pose proof (IH (deque_append FLASHBACK_LOOKBACK t0 patterns) Hrest) as HI.
    cbn zeta in HI. destruct HI as (I1 & I2 & _).
    pose proof (deque_append_length FLASHBACK_LOOKBACK t0 patterns) as Hlen.
    unfold FLASHBACK_LOOKBACK in *.
    split; [lia|]. split.
    + intros t Hin. destruct (I2 t Hin) as [Hd|Hd]; [|auto].
      apply deque_append_In in Hd as [Hd|Hd]; [auto|]. subst t.
      destruct Hcase; auto.
    + intros Hf. inversion Hf; congruence.
  - pose proof (IH patterns Hrest) as HI. cbn zeta in HI.
    destruct HI as (I1 & I2 & I3).
    split; [exact I1|]. split; [exact I2|].
    intros Hf. apply I3. by inversion Hf.
Qed.

(** X25: [_update_active_patterns] keeps the window of active patterns
    bounded and records only real alarms.  Fed with the seed records of any
    signal text, it never grows the window beyond twelve entries (a window
    within the bound stays within it), it changes nothing when no record has
    high arousal, and every entry it adds is "urgency" or "negative_affect",
    the first tag of a high-arousal record: "neutral" is never recorded. *)
Theorem active_patterns_bounded recent_signals patterns :
  let seeds := heuristic_seeds recent_signals in
  let patterns' := _update_active_patterns seeds patterns in
  length patterns' <= Nat.max (length patterns) 12 /\
  (forall t, In t patterns' ->
             In t patterns \/ t = "urgency" \/ t = "negative_affect") /\
  (Forall (fun s => high_arousal s = false) seeds -> patterns' = patterns).
Proof.
  cbn zeta. apply update_active_patterns_spec.
  unfold heuristic_seeds. apply Forall_forall. intros s Hs.
  apply list_elem_of_fmap in Hs as (l & -> & _). unfold seed_of_line.
  apply seed_of_cues_facts.
Qed.

Lemma last_app_one {A} (l : list A) x : last (l ++ [x]) = Some x.
Proof. apply last_snoc. Qed.

Lemma notification_candidates_app ms ms' cortex :
  notification_candidates (ms ++ ms') cortex
  = notification_candidates ms cortex ++ notification_candidates ms' cortex.
Proof.
  induction ms as [|m ms IH]; [done|]. cbn [app notification_candidates].
  destruct (negb (recipient m =? cortex)%string || (sender m =? cortex)%string);
    [exact IH|].
  destruct (Py.startswith (Py.strip (content m)) USER_NOTIFY); [by rewrite IH|].
  destruct (Py.startswith (Py.strip (content m)) AMYGDALA_ALERT); [by rewrite IH|].
  exact IH.
Qed.

(** X26: [_extract_user_notification] returns the notification of the
    latest message that qualifies.  A message that is not addressed to the
    cortex, or that the cortex sent itself, or whose stripped content starts
    with neither tag, changes nothing when it is appended to the history; an
    appended "[USER_NOTIFY]" message addressed to the cortex yields its
    payload without the tag and without surrounding white space, an
    "[AMYGDALA_ALERT]" message its stripped text with the tag.  Without any
    message there is no notification, and every notification returned is
    free of surrounding white space. *)
Theorem extract_user_notification_latest messages m cortex :
  let text := Py.strip (content m) in
  _extract_user_notification [] cortex = None /\
  _extract_user_notification (messages ++ [m]) cortex
  = (if negb (String.eqb (recipient m) cortex) || String.eqb (sender m) cortex
     then _extract_user_notification messages cortex
     else if Py.startswith text USER_NOTIFY
          then Some (Py.strip (Py.slice_from (String.length USER_NOTIFY) text))
          else if Py.startswith text AMYGDALA_ALERT then Some text
               else _extract_user_notification messages cortex) /\
  (forall n, _extract_user_notification messages cortex = Some n -> Py.strip n = n).
Proof.
  cbn zeta. split; [reflexivity|]. split.
  - unfold _extract_user_notification. rewrite notification_candidates_app.
    cbn [notification_candidates].
    destruct (negb (recipient m =? cortex)%string || (sender m =? cortex)%string);
      [by rewrite app_nil_r|].
    destruct (Py.startswith (Py.strip (content m)) USER_NOTIFY);
      [apply last_app_one|].
    destruct (Py.startswith (Py.strip (content m)) AMYGDALA_ALERT);
      [apply last_app_one|].
    by rewrite app_nil_r.
  - unfold _extract_user_notification. intros n Hn.
    assert (Hall : Forall (fun c => Py.strip c = c)
                          (notification_candidates messages cortex)).
    { clear. induction messages as [|x xs IH]; [constructor|].
      cbn [notification_candidates].
      destruct (negb (recipient x =? cortex)%string || (sender x =? cortex)%string);
        [exact IH|].
      destruct (Py.startswith (Py.strip (content x)) USER_NOTIFY);
        [constructor; [apply strip_idem|exact IH]|].
      destruct (Py.startswith (Py.strip (content x)) AMYGDALA_ALERT);
        [constructor; [apply strip_idem|exact IH]|].
      exact IH. }
    rewrite Forall_forall in Hall. apply Hall.
    by apply last_Some_elem_of.
Qed.

End SeedFacts.

(** ** Amygdala: the bookkeeping of a round *)

Section RoundBookkeeping.
Import Actors Tools Amygdala.

Variable json_dumps : list Seed -> string.
Variable llm : LLM.
Variable events : nat -> EventsAnswer.

Lemma compact_tag_log_pruned st w :
  (tags_pruned_total st <= tags_pruned_total (fst (_compact_tag_log st w)))%Z.
Proof.
  unfold _compact_tag_log.
  destruct (files w !! AMYGDALA_TAGS_FILE) as [content|]; [|cbn; lia].
  destruct (Z.of_nat (String.length content) <=? TAG_LOG_MAX_CHARS)%Z; cbn; lia.
Qed.

Lemma deque_append_last {A} n (x : A) d : last (deque_append (S n) x d) = Some x.
Proof.
  unfold deque_append, Py.last_n. rewrite length_app. cbn [length].
  rewrite drop_app_le by lia. apply last_snoc.
Qed.

(** The turn loop of a round leaves the internal actor allocated, with its
    identity and parentage, and with a counter that tells how many turns
    were started. *)
Lemma round_loop_exit cortex message a n : forall turn um w X,
  heap w !! a = Some X ->
  exists X',
    heap (exit_world (round_loop llm events cortex message a n turn um w)) !! a
    = Some X' /\
    actor_id X' = actor_id X /\ spawned_by X' = spawned_by X /\
    config X' = config X /\
    (n = 0 -> _turns X' = _turns X) /\
    (1 <= n -> (turn + 1 <= _turns X' <= turn + Z.of_nat n)%Z).
Proof.
  induction n as [|n IH]; intros turn um w X HX.
  { exists X. cbn. repeat split; try done; lia. }
  cbn [round_loop].
  set (w1 := update a (set_turns (turn + 1)) w).
  assert (H1 : heap w1 !! a = Some (set_turns (turn + 1) X)).
  { unfold w1. rewrite lookup_update, decide_True by done. by rewrite HX. }
  destruct (is_terminated_ref w1 a).
  { eexists. split; [exact H1|]. cbn. repeat split; try done; lia. }
  pose proof (world_keeps_drain a w1) as Hk2.
  destruct (drain_inbox a w1) as [incoming w2]. cbn [snd] in Hk2.
  set (r := llm (Z.to_nat turn) _).
  pose proof (world_keeps_exec_calls a (calls r) w2) as Hk3.
  set (w3 := exec_calls a (calls r) w2) in *.
  destruct (Hk2 a _ H1) as (X2 & H2 & K2).
  destruct (Hk3 a _ H2) as (X3 & H3 & K3).
  destruct K2 as (I2 & C2 & S2 & _ & T2), K3 as (I3 & C3 & S3 & _ & T3).
  cbn [set_turns actor_id spawned_by config _turns] in I2, C2, S2, T2.
  assert (Hhere : exists X', heap w3 !! a = Some X' /\
            actor_id X' = actor_id X /\ spawned_by X' = spawned_by X /\
            config X' = config X /\
            (S n = 0 -> _turns X' = _turns X) /\
            (1 <= S n -> (turn + 1 <= _turns X' <= turn + Z.of_nat (S n))%Z)).
  { exists X3. split; [exact H3|]. repeat split; try congruence; lia. }
  destruct (outcome r); [|exact Hhere].
  destruct (events (Z.to_nat turn)) as [e|evs]; [exact Hhere|].
  destruct (is_terminated_ref w3 a); [exact Hhere|].
  match goal with |- context [round_loop llm events cortex message a n (turn + 1) ?u w3] =>
    destruct (IH (turn + 1)%Z u w3 X3 H3) as (X' & H' & I' & S' & C' & T0 & T') end.
  exists X'. split; [exact H'|].
  repeat split; try congruence; try lia;
    (destruct n; [rewrite T0 by done|]; lia).
Qed.

(** X27: the bookkeeping of [run_round], whatever the model, the tools it
    calls, the event log and the signals do.  The round ends by the
    exception of [_create_amygdala_llm] only; then the status is left at
    "running", the round is not counted and the internal actor stays
    Running and current.  Otherwise the round returns: the status is "idle",
    [rounds_total] is one more, no actor is current, the internal actor
    (spawned by the cortex) is Terminated, [last_turns] is its counter and
    lies between 1 and 6, [last_result] is non-empty and has at most 240
    characters, the history has at most 40 entries and ends with the record
    of this round, the window of active patterns does not grow beyond
    twelve, and the count of pruned lines has not decreased. *)
Theorem run_round_bookkeeping signals llm_error am w :
  match run_round json_dumps llm events signals llm_error am w with
  | Returned am' w' =>
      llm_error = None /\
      cortex_id am' = cortex_id am /\
      _current_actor am' = None /\
      status_state (_status am') = "idle" /\
      rounds_total (_status am') = (rounds_total (_status am) + 1)%Z /\
      (tags_pruned_total (_status am) <= tags_pruned_total (_status am'))%Z /\
      (1 <= last_turns (_status am') <= 6)%Z /\
      Py.truthy (last_result (_status am')) = true /\
      String.length (last_result (_status am')) <= 240 /\
      length (_round_history am') <= 40 /\
      (exists rd, last (_round_history am') = Some rd /\
                  turns rd = last_turns (_status am') /\
                  error rd = last_error (_status am') /\
                  result rd = last_result (_status am') /\
                  completed_at rd = last_completed_at (_status am')) /\
      length (_active_patterns am')
      <= Nat.max (length (_active_patterns am)) 12 /\
      exists A, heap w' !! length (heap w) = Some A /\
                state A = TERMINATED /\
                spawned_by A = cortex_id am /\
                _turns A = last_turns (_status am')
  | Propagated e am' w' =>
      llm_error = Some e /\
      cortex_id am' = cortex_id am /\
      status_state (_status am') = "running" /\
      rounds_total (_status am') = rounds_total (_status am) /\
      _round_history am' = _round_history am /\
      _active_patterns am' = _active_patterns am /\
      _current_actor am' = Some (length (heap w)) /\
      exists A, heap w' !! length (heap w) = Some A /\
                state A = RUNNING /\ spawned_by A = cortex_id am
  end.
Proof.
  unfold run_round.
  destruct (datetime_now_frame w) as (Hh0 & _).
  destruct (datetime_now w) as [t0 wa]. cbn [snd] in Hh0.
  match goal with |- context [_compact_tag_log ?st wa] =>
    pose proof (compact_tag_log_frame st wa) as Hf1;
    pose proof (compact_tag_log_pruned st wa) as Hp1;
    destruct (_compact_tag_log st wa) as [st2 wb] end.
  cbn [fst snd status_state rounds_total last_started_at last_completed_at
       last_turns last_alert last_result last_error tags_pruned_total] in Hf1, Hp1.
  destruct Hf1 as (Hh1 & _ & _ & _ & Hss1 & Hrt1 & _).
  pose proof (spawn_spec amygdala_config (Some (cortex_id am)) false wb) as Hsp.
  destruct (spawn amygdala_config (Some (cortex_id am)) false wb) as [a wc].
  cbn [fst snd] in Hsp. destruct Hsp as (Ha & HA & _).
  rewrite Hh1, Hh0 in Ha. subst a.
  destruct llm_error as [e|].
  { cbn [_status cortex_id _round_history _active_patterns _current_actor].
    repeat split; try done. eexists. split; [exact HA|]. by split. }
  set (wd := cleanup_terminated wc).
  assert (HAd : heap wd !! length (heap w) = Some _) by exact HA.
  change (Z.to_nat (max_turns amygdala_config)) with 6%nat.
  match goal with |- context [round_loop llm events ?cx ?msg ?a 6 0 None wd] =>
    destruct (round_loop_exit cx msg a 6 0%Z None wd _ HAd)
      as (X & HX & _ & HXs & _ & _ & HXt);
    destruct (round_loop llm events cx msg a 6 0 None wd) as [le um w1|e um w1]
  end.
  all: cbn [exit_world] in HX; cbn [spawned_by] in HXs; specialize (HXt ltac:(lia)).
  all: match goal with |- context [if is_terminated_ref ?w1 ?a then ?w1 else ?t] =>
         assert (Hfin : exists A, heap (if is_terminated_ref w1 a then w1 else t) !! a
                                  = Some A /\ state A = TERMINATED /\
                                  spawned_by A = cortex_id am /\ _turns A = _turns X);
         [ destruct (is_terminated_ref w1 a) eqn:Ht;
           [ exists X; split; [exact HX|]; split; [|by split];
             unfold is_terminated_ref in Ht; rewrite HX in Ht;
             by apply ActorState_eqb_eq
           | match goal with |- context [terminate true ?a ?res w1] =>
               destruct (terminate_sets true a X res w1 HX)
                 as (A' & HA' & Hs' & _ & (_ & _ & Hsp' & _ & Ht'))
             end;
             exists A'; split; [exact HA'|]; split; [exact Hs'|];
             split; congruence ]
         | generalize dependent (if is_terminated_ref w1 a then w1 else t);
           intros w2 (A & HA2 & HAs & HAsp & HAt) ]
       end.
  all: destruct (datetime_now_frame w2) as (Hh4 & _);
       destruct (datetime_now w2) as [t1 we]; cbn [snd] in Hh4;
       rewrite Hh4, HA2;
       match goal with |- context [_compact_tag_log ?st we] =>
         pose proof (compact_tag_log_frame st we) as Hf2;
         pose proof (compact_tag_log_pruned st we) as Hp2;
         destruct (_compact_tag_log st we) as [st5 wf] end;
       cbn [fst snd status_state rounds_total last_started_at last_completed_at
            last_turns last_alert last_result last_error tags_pruned_total]
         in Hf2, Hp2;
       destruct Hf2 as (Hh5 & _ & _ & _ & Hss5 & Hrt5 & _ & Hlc5 & Hlt5 & _ & Hlr5 & Hle5);
       cbn [_status cortex_id _round_history _active_patterns _current_actor];
       rewrite Hss5, Hrt5, Hlt5, Hlr5, Hle5, Hlc5, Hh5, Hh4, Hrt1;
       (split; [done|]); (split; [done|]); (split; [done|]); (split; [done|]);
       (split; [done|]); (split; [lia|]); (split; [lia|]);
       (split; [apply truthy_slice_to;
                destruct (_result A) as [s|]; [|done];
                unfold Py.str_or; by destruct (Py.truthy s) eqn:Hs|]);
       (split; [apply length_slice_to|]);
       (split; [apply deque_append_length|]);
       (split; [eexists; split; [apply deque_append_last|by repeat split]|]);
       (split; [apply update_active_patterns_spec;
                unfold heuristic_seeds; apply Forall_forall; intros s Hs;
                apply list_elem_of_fmap in Hs as (l & -> & _); unfold seed_of_line;
                apply seed_of_cues_facts|]);
       exists A; by repeat split.
Qed.

End RoundBookkeeping.

(** ** The [send_message] tool *)

Section SendMessageTool.
Import Actors Tools.

(** X28: the [send_message] tool delivers to live actors only, where
    [Actor.send_to] delivers to any registered actor.  For an id the
    registry does not hold, or the id of a Terminated actor, the tool
    changes nothing at all and answers with a text that starts with
    "Error: actor " and the id.  For the id of a registered actor that is not
    Terminated (the caller being an actor itself) it answers "Message sent"
    with the id of the message, the name of the target and its id; exactly
    one message, from the caller, to that id, with the content given and
    with [reply_to] the argument ([None] when the argument is empty), has
    been appended to the inbox and the history of the target and to the
    history of the caller, and nothing else has changed in the heap, the
    registry or the files. *)
Theorem send_message_guard a target_id txt rt w :
  let out := send_message a target_id txt rt w in
  (get w target_id = None ->
   snd out = w /\ String.prefix ("Error: actor " +:+ target_id) (fst out) = true) /\
  (forall b B, get w target_id = Some b -> heap w !! b = Some B ->
     state B = TERMINATED ->
     snd out = w /\ String.prefix ("Error: actor " +:+ target_id) (fst out) = true) /\
  (forall A b B, heap w !! a = Some A ->
     get w target_id = Some b -> heap w !! b = Some B ->
     state B <> TERMINATED ->
     exists m,
       fst out = "Message sent (id=" +:+ msg_id m +:+ ") to " +:+ name (config B)
                 +:+ " (" +:+ target_id +:+ ")" /\
       sender m = actor_id A /\ recipient m = target_id /\ content m = txt /\
       reply_to m = (if Py.truthy rt then Some rt else None) /\
       heap (snd out)
       = alter (fun X => set_messages (_messages X ++ [m]) X) a
           (alter (fun X => set_inbox (_inbox X ++ [m])
                              (set_messages (_messages X ++ [m]) X)) b (heap w)) /\
       _actors (snd out) = _actors w /\ files (snd out) = files w).
Proof.
  cbn zeta. unfold send_message. split; [|split].
  - intros ->. split; [reflexivity|]. rewrite <- str_app_assoc. apply prefix_app.
  - intros b B -> -> ->. cbn [ActorState_eqb]. split; [reflexivity|].
    rewrite <- str_app_assoc. apply prefix_app.
  - intros A b B HA Ht HB Hst. rewrite Ht, HB.
    destruct (ActorState_eqb (state B) TERMINATED) eqn:Hs.
    { apply ActorState_eqb_eq in Hs. done. }
    unfold send_to. rewrite HA.
    pose proof (new_message_spec (actor_id A) target_id txt
                  (if Py.truthy rt then Some rt else None) w) as Hm.
    destruct (new_message (actor_id A) target_id txt
                (if Py.truthy rt then Some rt else None) w) as [m w1].
    cbn [fst snd] in Hm.
    destruct Hm as (Hsnd & Hrcp & Htxt & Hrt & Hh & Hr & _ & _ & Hf).
    unfold get in *. rewrite Hr, Ht. cbn [fst snd].
    exists m. split; [reflexivity|]. split; [done|]. split; [done|].
    split; [done|]. split; [done|].
    unfold send. rewrite !heap_update, Hh. split; [reflexivity|].
    split; [exact Hr|exact Hf].
Qed.

End SendMessageTool.

(** ** Amygdala: one compaction of the tag log *)

Section CompactionStep.
Import Actors Amygdala.

(** X29: a log of at most 24000 characters is left alone.  A
    longer one is replaced by the three header lines (the title with the time
    stamp, "- pruned_lines: N", the note), an empty line and the kept lines,
    which are the last 140 lines of the log or all of them when it has no
    more; trailing white space is stripped from the whole, so white-space
    lines at the end go; N, the number of lines dropped, is added to
    [tags_pruned_total].  When the log had more than 140 lines and no line
    but its first was a compaction header, the new log has exactly one. *)
Theorem compact_tag_log_step st w c :
  files w !! AMYGDALA_TAGS_FILE = Some c ->
  let st' := fst (_compact_tag_log st w) in
  let w' := snd (_compact_tag_log st w) in
  let lines := Py.splitlines c in
  ((Z.of_nat (String.length c) <= 24000)%Z -> st' = st /\ w' = w) /\
  ((24000 < Z.of_nat (String.length c))%Z ->
     exists now kept text,
       now = strftime_minute (clock_src w (clock_pos w)) /\
       kept = (if (140 <? length lines)%nat then Py.last_n 140 lines else lines) /\
       tags_pruned_total st'
       = (tags_pruned_total st + Z.of_nat (length lines - length kept))%Z /\
       files w' !! AMYGDALA_TAGS_FILE = Some text /\
       text = Py.strip (Py.join Amygdala.LF
                (compaction_header now (length lines - length kept) ++ kept))
              +:+ Amygdala.LF /\
       Py.splitlines text
       = ["# Emotional tags (compacted at " +:+ now +:+ ")";
          "- pruned_lines: " +:+ Py.str_of_nat (length lines - length kept);
          "- note: keeping only recent rolling window"]
         ++ rstrip_lines ("" :: kept) /\
       (140 < length lines ->
        Forall (fun l => is_compaction_header l = false) (drop 1 lines) ->
        header_count text = 1)).
Proof.
  intros Hc st' w' lines. subst st' w'. unfold _compact_tag_log. rewrite Hc.
  unfold TAG_LOG_MAX_CHARS.
  destruct (Z.leb_spec (Z.of_nat (String.length c)) 24000) as [Hle|Hgt].
  { split; [done|lia]. }
  split; [lia|]. intros _.
  set (now := strftime_minute (clock_src w (clock_pos w))).
  assert (Hnow : no_linebreak now = true) by apply strftime_minute_no_linebreak.
  exists now, (kept_lines c), (compacted_text now c).
  assert (Hlines : Py.splitlines (compacted_text now c)
                   = ["# Emotional tags (compacted at " +:+ now +:+ ")";
                      "- pruned_lines: " +:+ Py.str_of_nat (pruned_lines c);
                      "- note: keeping only recent rolling window"]
                     ++ rstrip_lines ("" :: kept_lines c)).
  { by rewrite compacted_text_lines, rstrip_lines_header. }
  split; [reflexivity|]. split; [reflexivity|].
  split; [reflexivity|].
  split; [cbn; apply lookup_insert_eq|].
  split; [reflexivity|].
  split; [exact Hlines|].
  intros Hmany Hnone. unfold header_count. rewrite Hlines.
  rewrite List.filter_app, length_app.
  assert (Hk : List.filter is_compaction_header (rstrip_lines ("" :: kept_lines c)) = []).
  { apply length_zero_iff_nil.
    pose proof (rstrip_lines_count COMPACTION_HEADER_PREFIX ("" :: kept_lines c)) as Hcnt.
    change (String.prefix COMPACTION_HEADER_PREFIX) with is_compaction_header in Hcnt.
    rewrite (filter_none is_compaction_header ("" :: kept_lines c)) in Hcnt;
      [cbn [length] in Hcnt; lia|].
    constructor; [reflexivity|].
    unfold kept_lines. fold lines. unfold TAG_LOG_KEEP_LINES.
    apply Nat.ltb_lt in Hmany as Hb. rewrite Hb.
    unfold Py.last_n.
    replace (length lines - 140) with (1 + (length lines - 141)) by lia.
    rewrite <- drop_drop. by apply Forall_drop. }
  rewrite Hk. cbn [List.filter length].
  unfold is_compaction_header at 1, COMPACTION_HEADER_PREFIX.
  rewrite prefix_app. reflexivity.
Qed.

End CompactionStep.

Lemma compact_tag_log_step_witness :
  Actors.files full_log_world !! Amygdala.AMYGDALA_TAGS_FILE = Some (entries_log 141) /\
  exists text,
    Actors.files (snd (Amygdala._compact_tag_log Amygdala.initial_status full_log_world))
      !! Amygdala.AMYGDALA_TAGS_FILE = Some text /\
    header_count text = 1 /\
    length (Py.splitlines text) = 144 /\
    Amygdala.tags_pruned_total
      (fst (Amygdala._compact_tag_log Amygdala.initial_status full_log_world)) = 1%Z.
Proof.
  assert (Hc : Actors.files full_log_world !! Amygdala.AMYGDALA_TAGS_FILE
               = Some (entries_log 141)) by reflexivity.
  split; [exact Hc|].
  destruct (compact_tag_log_step Amygdala.initial_status full_log_world _ Hc)
    as [_ H].
  destruct H as (now & kept & text & Hnow & Hkept & Hp & Hf & Htext & Hlines & Hone).
  { vm_compute. reflexivity. }
  exists text. split; [exact Hf|]. split; [|split].
  - apply Hone.
    + apply Nat.ltb_lt. vm_compute. reflexivity.
    + apply (bool_decide_unpack _). vm_compute. reflexivity.
  - rewrite Hlines, Hkept. vm_compute. reflexivity.
  - rewrite Hp, Hkept. vm_compute. reflexivity.
Defined.

(** ** Amygdala: rounds on a registry without an event log *)

Section EventLog.
Import Actors Tools Amygdala.

Variable json_dumps : list Seed -> string.
Variable llm : LLM.

(** The first turn of a round whose actor is not Terminated at the start:
    the loop is left in that turn, by the error of the model or by the
    exception of the event query, and no notification was looked for. *)
Lemma round_loop_no_event_log cortex message a n um w X :
  heap w !! a = Some X ->
  state X <> TERMINATED ->
  exists w' X',
    heap w' !! a = Some X' /\ _turns X' = 1%Z /\ spawned_by X' = spawned_by X /\
    round_loop llm registry_events cortex message a (S n) 0 um w
    = match outcome (llm 0 message) with
      | Raises e => LoopDone (Some e) um w'
      | Reply _ =>
          LoopRaised "'ActorRegistry' object has no attribute 'events'" um w'
      end.
Proof.
  intros HX Hst. cbn [round_loop].
  set (w1 := update a (set_turns (0 + 1)) w).
  assert (H1 : heap w1 !! a = Some (set_turns (0 + 1) X)).
  { unfold w1. rewrite lookup_update, decide_True by done. by rewrite HX. }
  assert (Hnt : is_terminated_ref w1 a = false).
  { unfold is_terminated_ref. rewrite H1. cbn. by destruct (state X). }
  rewrite Hnt.
  pose proof (world_keeps_drain a w1) as Hk2.
  destruct (drain_inbox a w1) as [incoming w2]. cbn [snd] in Hk2.
  change (0 =? 0)%Z with true. cbn iota. change (Z.to_nat 0) with 0.
  pose proof (world_keeps_exec_calls a (calls (llm 0 message)) w2) as Hk3.
  destruct (Hk2 a _ H1) as (X2 & H2 & (_ & _ & S2 & _ & T2)).
  destruct (Hk3 a _ H2) as (X3 & H3 & (_ & _ & S3 & _ & T3)).
  cbn [set_turns spawned_by _turns] in S2, T2.
  exists (exec_calls a (calls (llm 0 message)) w2), X3.
  split; [exact H3|]. split; [by rewrite T3, T2|]. split; [congruence|].
  by destruct (outcome (llm 0 message)).
Qed.

(** X30: on the [ActorRegistry] of [lethe/actor/__init__.py], which has no
    event log, no heartbeat round records an alert.  Whatever the model, its tool calls
    and the signals do, [run_round] returns after a single turn: the query
    of the event log raises as soon as the first [llm.chat] has returned, so
    [_extract_user_notification] is never reached.  [last_alert] is what it
    was before the round, the record of the round says that there was no
    alert, [last_turns] is 1, the round is counted, and [last_error] is the
    text of the [AttributeError], or the error of the model when the first
    [llm.chat] raised. *)
Theorem round_without_event_log signals am w :
  match run_round json_dumps llm registry_events signals None am w with
  | Returned am' w' =>
      last_alert (_status am') = last_alert (_status am) /\
      (exists rd, last (_round_history am') = Some rd /\ alert rd = false) /\
      last_turns (_status am') = 1%Z /\
      rounds_total (_status am') = (rounds_total (_status am) + 1)%Z /\
      exists message,
        last_error (_status am')
        = match outcome (llm 0 message) with
          | Raises e => e
          | Reply _ => "'ActorRegistry' object has no attribute 'events'"
          end
  | Propagated _ _ _ => False
  end.
Proof.
  unfold run_round.
  destruct (datetime_now_frame w) as (Hh0 & _).
  destruct (datetime_now w) as [t0 wa]. cbn [snd] in Hh0.
  match goal with |- context [_compact_tag_log ?st wa] =>
    pose proof (compact_tag_log_frame st wa) as Hf1;
    destruct (_compact_tag_log st wa) as [st2 wb] end.
  cbn [fst snd status_state rounds_total last_started_at last_completed_at
       last_turns last_alert last_result last_error] in Hf1.
  destruct Hf1 as (Hh1 & _ & _ & _ & _ & Hrt1 & _ & _ & _ & Hla1 & _).
  pose proof (spawn_spec amygdala_config (Some (cortex_id am)) false wb) as Hsp.
  destruct (spawn amygdala_config (Some (cortex_id am)) false wb) as [a wc].
  cbn [fst snd] in Hsp. destruct Hsp as (_ & HA & _).
  set (wd := cleanup_terminated wc).
  assert (HAd : heap wd !! a = Some _) by exact HA.
  change (Z.to_nat (max_turns amygdala_config)) with 6%nat.
  match goal with |- context [round_loop llm registry_events ?cx ?msg a 6 0 None wd] =>
    destruct (round_loop_no_event_log cx msg a 5 None wd _ HAd ltac:(discriminate))
      as (w1 & X & HX & HXt & _ & ->);
    set (message := msg) in *
  end.
  assert (Hfin : forall res,
            exists A, heap (if is_terminated_ref w1 a then w1
                            else terminate true a res w1) !! a = Some A /\
                      _turns A = 1%Z).
  { intros res. destruct (is_terminated_ref w1 a); [by exists X|].
    destruct (terminate_sets true a X res w1 HX)
      as (A' & HA' & _ & _ & (_ & _ & _ & _ & Ht')).
    exists A'. split; [exact HA'|congruence]. }
  destruct (outcome (llm 0 message)) as [reply|e] eqn:Hout.
  all: match goal with
       | |- context [if is_terminated_ref ?v ?b then ?v else terminate true ?b ?res ?v] =>
           destruct (Hfin res) as (A & HA2 & HAt);
           generalize dependent
             (if is_terminated_ref v b then v else terminate true b res v)
       end;
       intros w2 HA2;
       destruct (datetime_now_frame w2) as (Hh4 & _);
       destruct (datetime_now w2) as [t1 we]; cbn [snd] in Hh4;
       rewrite Hh4, HA2;
       match goal with |- context [_compact_tag_log ?st we] =>
         pose proof (compact_tag_log_frame st we) as Hf2;
         destruct (_compact_tag_log st we) as [st5 wf] end;
       cbn [fst snd status_state rounds_total last_started_at last_completed_at
            last_turns last_alert last_result last_error] in Hf2;
       destruct Hf2 as (_ & _ & _ & _ & _ & Hrt5 & _ & _ & Hlt5 & Hla5 & _ & Hle5);
       cbn [_status _round_history];
       rewrite Hla5, Hrt5, Hlt5, Hle5, Hla1, Hrt1, HAt;
       (split; [reflexivity|]);
       (split; [eexists; split; [apply deque_append_last|reflexivity]|]);
       (split; [reflexivity|]); (split; [reflexivity|]);
       exists message; by rewrite Hout.
Qed.

End EventLog.
